(** * PayRegister: synthetic payroll tables and the net-pay recomputation

    A shallow embedding of [PayRegister.py].  The script draws a payroll
    table from NumPy's (or CuPy's) random generator, derives the monetary
    columns elementwise, rounds them to two decimals, recomputes the
    [Net Pay] column from the stored columns and times that step.

    - Python integers are [Z]; Python strings are [string].
    - The array element type (dtype float64) is the carrier of the class
      [Float64]; its instance [binary64] is IEEE double precision (Rocq's
      primitive floats).  The values of doubles are rationals ([Q]) in the
      part on rounding.
    - [numpy.random] and [cupy.random] are external: they are instances of
      the interface [RandomState], and their documented contracts are the
      hypotheses of the theorems that need them.
    - The global generator states, the wall clock and standard output are
      threaded through the monad [M], which also carries Python exceptions. *)

From Stdlib Require Import ZArith List FinFun String Ascii Bool Lia.
From Stdlib Require Import QArith Qpower Lqa Floats.
Import ListNotations.

Set Warnings "-inexact-float".
Close Scope Q_scope.
Close Scope float_scope.
Open Scope Z_scope.

(** ** Python's integer formatting *)

Definition digit_char (d : Z) : ascii := ascii_of_nat (48 + Z.to_nat d).

(** The decimal digits of [n], most significant first, pushed in front of
    [acc]; [fuel] bounds the number of divisions by ten. *)
Fixpoint digits_from (fuel : nat) (n : Z) (acc : string) : string :=
  let acc' := String (digit_char (n mod 10)) acc in
  match fuel with
  | O => acc'
  | S fuel' => if n / 10 =? 0 then acc' else digits_from fuel' (n / 10) acc'
  end.

Definition digits (n : Z) : string :=
  digits_from (Z.to_nat (Z.log2 n)) n EmptyString.

(** [str(n)] for a Python int. *)
Definition str (n : Z) : string :=
  if n <? 0 then String "-" (digits (- n)) else digits n.

(** [len(s)]. *)
Definition len (s : string) : Z := Z.of_nat (String.length s).

Fixpoint zeros (k : nat) : string :=
  match k with
  | O => EmptyString
  | S k' => String "0" (zeros k')
  end.

(** The format specification [f"{i:0{width}d}"]: sign-aware zero padding up
    to a minimum width. *)
Definition format_0d (width i : Z) : string :=
  let body := digits (Z.abs i) in
  let sign := if i <? 0 then String "-" EmptyString else EmptyString in
  String.append sign
    (String.append (zeros (Z.to_nat (width - len sign - len body))) body).

(** [range(lo, hi)]. *)
Definition range (lo hi : Z) : list Z :=
  map (fun k => lo + Z.of_nat k) (seq 0 (Z.to_nat (hi - lo))).

(** [int(s)] on a string of decimal digits. *)
Definition digit_value (c : ascii) : Z := Z.of_nat (nat_of_ascii c) - 48.

Fixpoint int_from (acc : Z) (s : string) : Z :=
  match s with
  | EmptyString => acc
  | String c s' => int_from (10 * acc + digit_value c) s'
  end.

Definition int (s : string) : Z := int_from 0 s.

(** Lines 37-38 and 118-121: the [Employee ID] column. *)
Definition employee_ids (n_rows : Z) : list string :=
  let id_width := Z.max 3 (len (str n_rows)) in
  map (format_0d id_width) (range 1 (n_rows + 1)).

(** ** The float64 element type *)

Class Float64 : Type := {
  float64 : Type;
  f_add : float64 -> float64 -> float64;
  f_sub : float64 -> float64 -> float64;
  f_mul : float64 -> float64 -> float64;
  f_div : float64 -> float64 -> float64;
  f_rint : float64 -> float64;       (* round half to even, to an integer *)
  f_of_int : Z -> float64            (* int64 -> float64 conversion *)
}.

(** A decimal literal [m / 10^k] of the source text, as the parser reads
    it: [0.062] is [dec 62 3]. *)
Definition dec {F : Float64} (m : Z) (k : nat) : float64 :=
  f_div (f_of_int m) (f_of_int (10 ^ Z.of_nat k)).

(** [np.round(x, decimals)] for positive [decimals]: NumPy multiplies by
    [10**decimals], rounds to the nearest integer (ties to even) and
    divides again. *)
Definition np_round {F : Float64} (x : float64) (decimals : nat) : float64 :=
  f_div (f_rint (f_mul x (f_of_int (10 ^ Z.of_nat decimals))))
        (f_of_int (10 ^ Z.of_nat decimals)).

(** *** IEEE double precision *)

(** An int64 as the nearest double.  The magnitude goes through the
    primitive conversion of unsigned 63-bit integers. *)
Definition float_of_int (z : Z) : float :=
  match z with
  | Z0 => PrimFloat.zero
  | Zpos _ => PrimFloat.of_uint63 (Uint63.of_Z z)
  | Zneg p => PrimFloat.opp (PrimFloat.of_uint63 (Uint63.of_Z (Zpos p)))
  end.

Definition two52 : float := 0x1p52%float.

(** Round to the nearest integer, ties to even: below [2^52] in magnitude,
    adding and subtracting [2^52] rounds off the fraction bits; from [2^52]
    on every double is an integer.  A zero result keeps the sign of [x]. *)
Definition float_rint (x : float) : float :=
  if PrimFloat.ltb (PrimFloat.abs x) two52 then
    let r := if PrimFloat.ltb x PrimFloat.zero
             then PrimFloat.add (PrimFloat.sub x two52) two52
             else PrimFloat.sub (PrimFloat.add x two52) two52 in
    if PrimFloat.eqb r PrimFloat.zero then PrimFloat.mul x PrimFloat.zero else r
  else x.

Definition binary64 : Float64 := {|
  float64 := float;
  f_add := PrimFloat.add;
  f_sub := PrimFloat.sub;
  f_mul := PrimFloat.mul;
  f_div := PrimFloat.div;
  f_rint := float_rint;
  f_of_int := float_of_int
|}.

(** ** Arrays: elementwise operations *)

Fixpoint zip_with {A B C : Type} (f : A -> B -> C) (xs : list A) (ys : list B)
  : list C :=
  match xs, ys with
  | x :: xs', y :: ys' => f x y :: zip_with f xs' ys'
  | _, _ => []
  end.

Section Arrays.
Context {F : Float64}.

Definition arr_add : list float64 -> list float64 -> list float64 :=
  zip_with f_add.
Definition arr_sub : list float64 -> list float64 -> list float64 :=
  zip_with f_sub.
Definition arr_mul : list float64 -> list float64 -> list float64 :=
  zip_with f_mul.
(** an int64 array times a float64 array *)
Definition int_arr_mul : list Z -> list float64 -> list float64 :=
  zip_with (fun h r => f_mul (f_of_int h) r).
(** a scalar times an array, and an array times a scalar *)
Definition scalar_mul (c : float64) (xs : list float64) : list float64 :=
  map (fun x => f_mul c x) xs.
Definition mul_scalar (xs : list float64) (c : float64) : list float64 :=
  map (fun x => f_mul x c) xs.
Definition arr_round (xs : list float64) (decimals : nat) : list float64 :=
  map (fun x => np_round x decimals) xs.
End Arrays.

(** ** The payroll table *)

Record DataFrame {F : Float64} : Type := {
  Employee_Name : list string;
  Employee_ID : list string;
  Job_Title : list string;
  Pay_Period : list string;
  Regular_Hours : list Z;
  Overtime_Hours : list Z;
  Gross_Wages : list float64;
  Federal_Tax : list float64;
  State_Tax : list float64;
  Social_Security : list float64;
  Medicare : list float64;
  Health_Insurance : list float64;
  Retirement : list float64;
  Other_Deductions : list float64;
  Net_Pay : list float64
}.

(** One row of the table. *)
Record PayrollRecord {F : Float64} : Type := {
  name : string;
  id : string;
  job_title : string;
  pay_period : string;
  regular_hours : Z;
  overtime_hours : Z;
  gross_wages : float64;
  federal_tax : float64;
  state_tax : float64;
  social_security : float64;
  medicare : float64;
  health_insurance : float64;
  retirement : float64;
  other_deductions : float64;
  net_pay : float64
}.

Definition opt_bind {A B : Type} (o : option A) (k : A -> option B) : option B :=
  match o with
  | Some a => k a
  | None => None
  end.

Notation "'let?' x ':=' o 'in' k" := (opt_bind o (fun x => k))
  (at level 10, x name, o at level 100, k at level 200).

Section Frames.
Context {F : Float64}.

(** [df.iloc[i]]: the row at position [i], when there is one. *)
Definition iloc (df : DataFrame) (i : nat) : option PayrollRecord :=
  let? c1 := nth_error (Employee_Name df) i in
  let? c2 := nth_error (Employee_ID df) i in
  let? c3 := nth_error (Job_Title df) i in
  let? c4 := nth_error (Pay_Period df) i in
  let? c5 := nth_error (Regular_Hours df) i in
  let? c6 := nth_error (Overtime_Hours df) i in
  let? c7 := nth_error (Gross_Wages df) i in
  let? c8 := nth_error (Federal_Tax df) i in
  let? c9 := nth_error (State_Tax df) i in
  let? c10 := nth_error (Social_Security df) i in
  let? c11 := nth_error (Medicare df) i in
  let? c12 := nth_error (Health_Insurance df) i in
  let? c13 := nth_error (Retirement df) i in
  let? c14 := nth_error (Other_Deductions df) i in
  let? c15 := nth_error (Net_Pay df) i in
  Some {| name := c1; id := c2; job_title := c3; pay_period := c4;
          regular_hours := c5; overtime_hours := c6; gross_wages := c7;
          federal_tax := c8; state_tax := c9; social_security := c10;
          medicare := c11; health_insurance := c12; retirement := c13;
          other_deductions := c14; net_pay := c15 |}.

(** [df["Net Pay"] = col]. *)
Definition set_Net_Pay (df : DataFrame) (col : list float64) : DataFrame :=
  {| Employee_Name := Employee_Name df; Employee_ID := Employee_ID df;
     Job_Title := Job_Title df; Pay_Period := Pay_Period df;
     Regular_Hours := Regular_Hours df; Overtime_Hours := Overtime_Hours df;
     Gross_Wages := Gross_Wages df; Federal_Tax := Federal_Tax df;
     State_Tax := State_Tax df; Social_Security := Social_Security df;
     Medicare := Medicare df; Health_Insurance := Health_Insurance df;
     Retirement := Retirement df; Other_Deductions := Other_Deductions df;
     Net_Pay := col |}.

(** [df.head()]: the first five rows. *)
Definition head (df : DataFrame) : DataFrame :=
  {| Employee_Name := firstn 5 (Employee_Name df);
     Employee_ID := firstn 5 (Employee_ID df);
     Job_Title := firstn 5 (Job_Title df);
     Pay_Period := firstn 5 (Pay_Period df);
     Regular_Hours := firstn 5 (Regular_Hours df);
     Overtime_Hours := firstn 5 (Overtime_Hours df);
     Gross_Wages := firstn 5 (Gross_Wages df);
     Federal_Tax := firstn 5 (Federal_Tax df);
     State_Tax := firstn 5 (State_Tax df);
     Social_Security := firstn 5 (Social_Security df);
     Medicare := firstn 5 (Medicare df);
     Health_Insurance := firstn 5 (Health_Insurance df);
     Retirement := firstn 5 (Retirement df);
     Other_Deductions := firstn 5 (Other_Deductions df);
     Net_Pay := firstn 5 (Net_Pay df) |}.

(** Lines 189-197. *)
Definition compute_net_pay_cpu (df : DataFrame) : DataFrame :=
  set_Net_Pay df
    (arr_sub (Gross_Wages df)
       (arr_add (arr_add (arr_add (arr_add (arr_add (arr_add
          (Federal_Tax df) (State_Tax df))
          (Social_Security df)) (Medicare df))
          (Health_Insurance df)) (Retirement df))
          (Other_Deductions df))).
End Frames.

(** ** The random generators

    [numpy.random] and [cupy.random] each own a global generator state.
    The interface lists the calls the script makes; [seed s] is the state a
    generator has right after [seed(s)], whatever it was before. *)

Class RandomState {F : Float64} : Type := {
  rng : Type;
  seed : Z -> rng;
  choice : list string -> nat -> rng -> list string * rng;
  randint : Z -> Z -> nat -> rng -> list Z * rng;
  uniform : float64 -> float64 -> nat -> rng -> list float64 * rng
}.

(** The documented contracts: a call with size [n] returns [n] values;
    [randint(low, high)] draws from the half-open range [low, high);
    [uniform(low, high)] draws between [low] and [high]. *)
Definition size_law {F : Float64} (R : RandomState) : Prop :=
  forall n s,
    (forall a, List.length (fst (choice a n s)) = n) /\
    (forall lo hi, List.length (fst (randint lo hi n s)) = n) /\
    (forall lo hi, List.length (fst (uniform lo hi n s)) = n).

Definition randint_law {F : Float64} (R : RandomState) : Prop :=
  forall lo hi n s x,
    lo < hi -> In x (fst (randint lo hi n s)) -> lo <= x < hi.

(** The documented contract of [uniform] on doubles: the draws lie between
    the bounds.  The upper bound itself can be returned, through the
    rounding of [low + (high - low) * random_sample()]. *)
Definition uniform_law64 (R : @RandomState binary64) : Prop :=
  forall (lo hi : float) n s (x : float),
    PrimFloat.ltb lo hi = true ->
    In x (fst (@uniform binary64 R lo hi n s)) ->
    PrimFloat.leb lo x = true /\ PrimFloat.leb x hi = true.

(** A generator that replays a tape of raw 53-bit words (zero once the tape
    is used up); seeding rewinds the tape. *)
Fixpoint draw (n : nat) (tape : list Z) : list Z * list Z :=
  match n with
  | O => ([], tape)
  | S n' =>
      let '(x, t) := match tape with
                     | [] => (0, [])
                     | x :: t => (x, t)
                     end in
      let '(xs, t') := draw n' t in
      (x :: xs, t')
  end.

Definition scripted {F : Float64} (tape : list Z) : RandomState := {|
  rng := list Z;
  seed := fun _ => tape;
  choice := fun a n s =>
    let '(raw, s') := draw n s in
    (map (fun r => nth (Z.to_nat (r mod Z.of_nat (List.length a))) a EmptyString) raw,
     s');
  randint := fun lo hi n s =>
    let '(raw, s') := draw n s in
    (map (fun r => lo + r mod (hi - lo)) raw, s');
  uniform := fun lo hi n s =>
    let '(raw, s') := draw n s in
    (map (fun r => f_add lo (f_mul (f_sub hi lo)
                     (f_div (f_of_int (r mod 2 ^ 53)) (f_of_int (2 ^ 53))))) raw,
     s')
|}.

(** ** The host: wall clock and installed packages *)

Inductive Package : Set := cudf | cupy.

Record Host : Type := {
  wall_clock : nat -> float;     (* the reading of the k-th call of time.time() *)
  installed : Package -> bool
}.

Inductive Device : Set := cpu | gpu | both.

Definition device_eqb (a b : Device) : bool :=
  match a, b with
  | cpu, cpu | gpu, gpu | both, both => true
  | _, _ => false
  end.

(** [device in [...]]. *)
Definition device_in (d : Device) (l : list Device) : bool :=
  existsb (device_eqb d) l.

Inductive PyExn : Set :=
  ValueError | ImportError | UnboundLocalError | TypeError.

Inductive Result (A : Type) : Type :=
| Returned (a : A)
| Raised (e : PyExn).
Arguments Returned {A} a.
Arguments Raised {A} e.

(** What the script prints, one constructor per [print] call. *)
Inductive Output {F : Float64} : Type :=
| PrintCpuBanner                                    (* line 200 *)
| PrintCpuTime (n_rows : Z) (elapsed : float)       (* line 205 *)
| PrintSample (sample : DataFrame)                  (* lines 206, 229 *)
| PrintCudfMissing                                  (* line 213 *)
| PrintGpuBanner                                    (* line 216 *)
| PrintGpuTime (n_rows : Z) (elapsed : float)       (* line 228 *)
| PrintSummary                                      (* line 252 *)
| PrintSummaryCpu (cpu_time : float)                (* line 253 *)
| PrintSummaryGpu (gpu_time : float)                (* line 254 *)
| PrintSpeedup (speedup : float).                   (* line 256 *)

(** Line 255. *)
Definition speedup_of (cpu_time gpu_time : float) : float :=
  if PrimFloat.ltb PrimFloat.zero gpu_time
  then PrimFloat.div cpu_time gpu_time
  else PrimFloat.infinity.

(** The local variables of [main]: [None] is a name not yet assigned; an
    assigned [gpu_time] holds a float or Python's [None]. *)
Record Locals : Type := {
  cpu_time : option float;
  gpu_time : option (option float)
}.

Definition first_names : list string :=
  ["John"; "Jane"; "Alex"; "Emily"; "Michael"; "Sarah"; "David"; "Laura"]%string.
Definition last_names : list string :=
  ["Doe"; "Smith"; "Johnson"; "Williams"; "Brown"; "Jones"; "Davis"; "Miller"]%string.
Definition job_titles : list string :=
  ["Manager"; "Clerk"; "Engineer"; "Analyst"; "Technician";
   "Salesperson"; "Administrator"; "Supervisor"]%string.
Definition pay_periods : list string :=
  ["01/01-01/15"; "01/16-01/31"; "02/01-02/15";
   "02/16-02/28"; "03/01-03/15"; "03/16-03/31"]%string.

(** [f"{f} {l}"]. *)
Definition full_name (f l : string) : string :=
  String.append f (String " " l).

(** ** The program *)

Declare Scope py_scope.
Delimit Scope py_scope with py.

Section Program.
Context {F : Float64}.
Variables np cp : RandomState.      (* numpy.random and cupy.random *)
Variable host : Host.

(** The mutable state of a run. *)
Record World : Type := {
  np_global : @rng F np;
  cp_global : @rng F cp;
  time_calls : nat;
  stdout : list Output
}.

Definition M (A : Type) : Type := World -> Result A * World.

Definition ret {A : Type} (a : A) : M A := fun w => (Returned a, w).

Definition bind {A B : Type} (c : M A) (k : A -> M B) : M B :=
  fun w =>
    match c w with
    | (Returned a, w') => k a w'
    | (Raised e, w') => (Raised e, w')
    end.

Definition raise {A : Type} (e : PyExn) : M A := fun w => (Raised e, w).

Definition exn_eqb (a b : PyExn) : bool :=
  match a, b with
  | ValueError, ValueError | ImportError, ImportError
  | UnboundLocalError, UnboundLocalError | TypeError, TypeError => true
  | _, _ => false
  end.

(** [try: body / except e: handler / (the rest) k]. *)
Definition try_except {A B : Type} (body : M A) (e : PyExn) (handler : M B)
    (k : A -> M B) : M B :=
  fun w =>
    match body w with
    | (Returned a, w') => k a w'
    | (Raised e', w') => if exn_eqb e' e then handler w' else (Raised e', w')
    end.

Notation "x <- c ;; k" := (bind c (fun x => k))
  (at level 61, c at next level, right associativity) : py_scope.
Notation "c ;; k" := (bind c (fun _ => k))
  (at level 61, right associativity) : py_scope.
Local Open Scope py_scope.

Definition set_np (s : @rng F np) (w : World) : World :=
  {| np_global := s; cp_global := cp_global w;
     time_calls := time_calls w; stdout := stdout w |}.
Definition set_cp (s : @rng F cp) (w : World) : World :=
  {| np_global := np_global w; cp_global := s;
     time_calls := time_calls w; stdout := stdout w |}.

Definition print (o : Output) : M unit :=
  fun w => (Returned tt,
            {| np_global := np_global w; cp_global := cp_global w;
               time_calls := time_calls w; stdout := stdout w ++ [o] |}).

(** [time.time()]. *)
Definition time_time : M float :=
  fun w => (Returned (wall_clock host (time_calls w)),
            {| np_global := np_global w; cp_global := cp_global w;
               time_calls := S (time_calls w); stdout := stdout w |}).

(** [import p]. *)
Definition import (p : Package) : M unit :=
  if installed host p then ret tt else raise ImportError.

(** The calls into [numpy.random]; a negative size is a [ValueError]. *)
Definition np_random_seed (s : Z) : M unit :=
  fun w => (Returned tt, set_np (seed s) w).

Definition np_random_choice (a : list string) (size : Z) : M (list string) :=
  fun w =>
    if size <? 0 then (Raised ValueError, w)
    else let '(xs, s) := choice a (Z.to_nat size) (np_global w) in
         (Returned xs, set_np s w).

Definition np_random_randint (lo hi size : Z) : M (list Z) :=
  fun w =>
    if size <? 0 then (Raised ValueError, w)
    else let '(xs, s) := randint lo hi (Z.to_nat size) (np_global w) in
         (Returned xs, set_np s w).

Definition np_random_uniform (lo hi : float64) (size : Z) : M (list float64) :=
  fun w =>
    if size <? 0 then (Raised ValueError, w)
    else let '(xs, s) := uniform lo hi (Z.to_nat size) (np_global w) in
         (Returned xs, set_np s w).

(** The calls into [cupy.random]. *)
Definition cp_random_seed (s : Z) : M unit :=
  fun w => (Returned tt, set_cp (seed s) w).

Definition cp_random_randint (lo hi size : Z) : M (list Z) :=
  fun w =>
    if size <? 0 then (Raised ValueError, w)
    else let '(xs, s) := randint lo hi (Z.to_nat size) (cp_global w) in
         (Returned xs, set_cp s w).

Definition cp_random_uniform (lo hi : float64) (size : Z) : M (list float64) :=
  fun w =>
    if size <? 0 then (Raised ValueError, w)
    else let '(xs, s) := uniform lo hi (Z.to_nat size) (cp_global w) in
         (Returned xs, set_cp s w).

(** Lines 6-95. *)
Definition simulate_complex_payroll_data_cpu (n_rows : Z) : M DataFrame :=
  np_random_seed 42 ;;
  firsts <- np_random_choice first_names n_rows ;;
  lasts <- np_random_choice last_names n_rows ;;
  let employee_names := zip_with full_name firsts lasts in
  let id_width := Z.max 3 (len (str n_rows)) in
  let employee_ids := map (format_0d id_width) (range 1 (n_rows + 1)) in
  job_title_choices <- np_random_choice job_titles n_rows ;;
  pay_period_choices <- np_random_choice pay_periods n_rows ;;
  regular_hours <- np_random_randint 70 81 n_rows ;;
  overtime_hours <- np_random_randint 0 11 n_rows ;;
  base_rates <- np_random_uniform (f_of_int 15) (f_of_int 50) n_rows ;;
  let gross_wages :=
    arr_add (int_arr_mul regular_hours base_rates)
            (int_arr_mul overtime_hours (scalar_mul (dec 15 1) base_rates)) in
  federal_rates <- np_random_uniform (dec 10 2) (dec 15 2) n_rows ;;
  let federal_tax := arr_mul gross_wages federal_rates in
  state_rates <- np_random_uniform (dec 3 2) (dec 6 2) n_rows ;;
  let state_tax := arr_mul gross_wages state_rates in
  let social_security := mul_scalar gross_wages (dec 62 3) in
  let medicare := mul_scalar gross_wages (dec 145 4) in
  health_insurance <- np_random_uniform (f_of_int 50) (f_of_int 100) n_rows ;;
  retirement <- np_random_uniform (f_of_int 30) (f_of_int 70) n_rows ;;
  other_deductions <- np_random_uniform (f_of_int 10) (f_of_int 30) n_rows ;;
  let total_deductions :=
    arr_add (arr_add (arr_add (arr_add (arr_add (arr_add
      federal_tax state_tax) social_security) medicare)
      health_insurance) retirement) other_deductions in
  let net_pay := arr_sub gross_wages total_deductions in
  ret {| Employee_Name := employee_names;
         Employee_ID := employee_ids;
         Job_Title := job_title_choices;
         Pay_Period := pay_period_choices;
         Regular_Hours := regular_hours;
         Overtime_Hours := overtime_hours;
         Gross_Wages := arr_round gross_wages 2;
         Federal_Tax := arr_round federal_tax 2;
         State_Tax := arr_round state_tax 2;
         Social_Security := arr_round social_security 2;
         Medicare := arr_round medicare 2;
         Health_Insurance := arr_round health_insurance 2;
         Retirement := arr_round retirement 2;
         Other_Deductions := arr_round other_deductions 2;
         Net_Pay := arr_round net_pay 2 |}.

(** Lines 97-187.  The string columns come from [numpy.random], which
    this function does not seed; the numeric ones from [cupy.random]. *)
Definition simulate_complex_payroll_data_gpu (n_rows : Z) : M DataFrame :=
  import cudf ;;
  import cupy ;;
  cp_random_seed 42 ;;
  firsts <- np_random_choice first_names n_rows ;;
  lasts <- np_random_choice last_names n_rows ;;
  let employee_names := zip_with full_name firsts lasts in
  let id_width := Z.max 3 (len (str n_rows)) in
  let employee_ids_arr := range 1 (n_rows + 1) in
  let employee_ids := map (format_0d id_width) employee_ids_arr in
  job_title_choices <- np_random_choice job_titles n_rows ;;
  pay_period_choices <- np_random_choice pay_periods n_rows ;;
  regular_hours <- cp_random_randint 70 81 n_rows ;;
  overtime_hours <- cp_random_randint 0 11 n_rows ;;
  base_rates <- cp_random_uniform (f_of_int 15) (f_of_int 50) n_rows ;;
  let gross_wages :=
    arr_add (int_arr_mul regular_hours base_rates)
            (int_arr_mul overtime_hours (scalar_mul (dec 15 1) base_rates)) in
  federal_rates <- cp_random_uniform (dec 10 2) (dec 15 2) n_rows ;;
  let federal_tax := arr_mul gross_wages federal_rates in
  state_rates <- cp_random_uniform (dec 3 2) (dec 6 2) n_rows ;;
  let state_tax := arr_mul gross_wages state_rates in
  let social_security := mul_scalar gross_wages (dec 62 3) in
  let medicare := mul_scalar gross_wages (dec 145 4) in
  health_insurance <- cp_random_uniform (f_of_int 50) (f_of_int 100) n_rows ;;
  retirement <- cp_random_uniform (f_of_int 30) (f_of_int 70) n_rows ;;
  other_deductions <- cp_random_uniform (f_of_int 10) (f_of_int 30) n_rows ;;
  let total_deductions :=
    arr_add (arr_add (arr_add (arr_add (arr_add (arr_add
      federal_tax state_tax) social_security) medicare)
      health_insurance) retirement) other_deductions in
  let net_pay := arr_sub gross_wages total_deductions in
  let gross_wages := arr_round gross_wages 2 in
  let federal_tax := arr_round federal_tax 2 in
  let state_tax := arr_round state_tax 2 in
  let social_security := arr_round social_security 2 in
  let medicare := arr_round medicare 2 in
  let health_insurance := arr_round health_insurance 2 in
  let retirement := arr_round retirement 2 in
  let other_deductions := arr_round other_deductions 2 in
  let net_pay := arr_round net_pay 2 in
  ret {| Employee_Name := employee_names;
         Employee_ID := employee_ids;
         Job_Title := job_title_choices;
         Pay_Period := pay_period_choices;
         Regular_Hours := regular_hours;
         Overtime_Hours := overtime_hours;
         Gross_Wages := gross_wages;
         Federal_Tax := federal_tax;
         State_Tax := state_tax;
         Social_Security := social_security;
         Medicare := medicare;
         Health_Insurance := health_insurance;
         Retirement := retirement;
         Other_Deductions := other_deductions;
         Net_Pay := net_pay |}.

(** Lines 199-207. *)
Definition compute_cpu (n_rows : Z) : M float :=
  print PrintCpuBanner ;;
  df <- simulate_complex_payroll_data_cpu n_rows ;;
  start_time <- time_time ;;
  let df := compute_net_pay_cpu df in
  now <- time_time ;;
  let elapsed := PrimFloat.sub now start_time in
  print (PrintCpuTime n_rows elapsed) ;;
  print (PrintSample (head df)) ;;
  ret elapsed.

(** Lines 209-230. *)
Definition compute_gpu (n_rows : Z) : M (option float) :=
  try_except (import cudf) ImportError
    (print PrintCudfMissing ;; ret None)
    (fun _ =>
       print PrintGpuBanner ;;
       start_time <- time_time ;;
       df <- simulate_complex_payroll_data_gpu n_rows ;;
       let df :=
         set_Net_Pay df
           (arr_sub (Gross_Wages df)
              (arr_add (arr_add (arr_add (arr_add (arr_add (arr_add
                 (Federal_Tax df) (State_Tax df))
                 (Social_Security df)) (Medicare df))
                 (Health_Insurance df)) (Retirement df))
                 (Other_Deductions df))) in
       let result := head df in
       now <- time_time ;;
       let elapsed := PrimFloat.sub now start_time in
       print (PrintGpuTime n_rows elapsed) ;;
       print (PrintSample result) ;;
       ret (Some elapsed)).

(** Reading a local variable: an unassigned name raises. *)
Definition load {A : Type} (v : option A) : M A :=
  match v with
  | Some a => ret a
  | None => raise UnboundLocalError
  end.

(** Lines 246-256, returning the local variables at exit.  [and]
    evaluates its right operand only when the left one is true. *)
Definition main_locals (device : Device) (n_rows : Z) : M Locals :=
  let l := {| cpu_time := None; gpu_time := None |} in
  l <- (if device_in device [cpu; both]
        then t <- compute_cpu n_rows ;;
             ret {| cpu_time := Some t; gpu_time := gpu_time l |}
        else ret l) ;;
  l <- (if device_in device [gpu; both]
        then t <- compute_gpu n_rows ;;
             ret {| cpu_time := cpu_time l; gpu_time := Some t |}
        else ret l) ;;
  summary <- (if device_eqb device both
              then g <- load (gpu_time l) ;;
                   ret (match g with Some _ => true | None => false end)
              else ret false) ;;
  (if summary then
     print PrintSummary ;;
     c <- load (cpu_time l) ;;
     print (PrintSummaryCpu c) ;;
     g <- load (gpu_time l) ;;
     match g with
     | Some g =>
         print (PrintSummaryGpu g) ;;
         let speedup := speedup_of c g in
         print (PrintSpeedup speedup)
     | None => raise TypeError     (* None has no format .4f *)
     end
   else ret tt) ;;
  ret l.

Definition main (device : Device) (n_rows : Z) : M unit :=
  main_locals device n_rows ;; ret tt.
End Program.

(** ** The derivation as a function of the drawn columns

    The columns a generator run draws, and the table lines 55-94 (152-186
    on the accelerated path) build from them. *)

Record Draws {F : Float64} : Type := {
  d_regular_hours : list Z;
  d_overtime_hours : list Z;
  d_base_rates : list float64;
  d_federal_rates : list float64;
  d_state_rates : list float64;
  d_health_insurance : list float64;
  d_retirement : list float64;
  d_other_deductions : list float64
}.

Section Derivation.
Context {F : Float64}.

(** Unrounded gross wages of one row (lines 55, 137). *)
Definition gross_of (h o : Z) (r : float64) : float64 :=
  f_add (f_mul (f_of_int h) r) (f_mul (f_of_int o) (f_mul (dec 15 1) r)).

(** Unrounded net pay of one row (lines 71-75). *)
Definition net_of (g fr sr hi re od : float64) : float64 :=
  f_sub g
    (f_add (f_add (f_add (f_add (f_add (f_add
       (f_mul g fr) (f_mul g sr)) (f_mul g (dec 62 3))) (f_mul g (dec 145 4)))
       hi) re) od).

Definition payroll_frame (names ids titles periods : list string) (d : Draws)
  : DataFrame :=
  let gross_wages :=
    arr_add (int_arr_mul (d_regular_hours d) (d_base_rates d))
            (int_arr_mul (d_overtime_hours d)
               (scalar_mul (dec 15 1) (d_base_rates d))) in
  let federal_tax := arr_mul gross_wages (d_federal_rates d) in
  let state_tax := arr_mul gross_wages (d_state_rates d) in
  let social_security := mul_scalar gross_wages (dec 62 3) in
  let medicare := mul_scalar gross_wages (dec 145 4) in
  let total_deductions :=
    arr_add (arr_add (arr_add (arr_add (arr_add (arr_add
      federal_tax state_tax) social_security) medicare)
      (d_health_insurance d)) (d_retirement d)) (d_other_deductions d) in
  let net_pay := arr_sub gross_wages total_deductions in
  {| Employee_Name := names;
     Employee_ID := ids;
     Job_Title := titles;
     Pay_Period := periods;
     Regular_Hours := d_regular_hours d;
     Overtime_Hours := d_overtime_hours d;
     Gross_Wages := arr_round gross_wages 2;
     Federal_Tax := arr_round federal_tax 2;
     State_Tax := arr_round state_tax 2;
     Social_Security := arr_round social_security 2;
     Medicare := arr_round medicare 2;
     Health_Insurance := arr_round (d_health_insurance d) 2;
     Retirement := arr_round (d_retirement d) 2;
     Other_Deductions := arr_round (d_other_deductions d) 2;
     Net_Pay := arr_round net_pay 2 |}.

(** [d] is what a generator [R] returns for the calls of lines 50-52 and
    58-69, each from some generator state. *)
Definition drawn_from (R : RandomState) (n : nat) (d : Draws) : Prop :=
  (exists s, d_regular_hours d = fst (randint 70 81 n s)) /\
  (exists s, d_overtime_hours d = fst (randint 0 11 n s)) /\
  (exists s, d_base_rates d = fst (uniform (f_of_int 15) (f_of_int 50) n s)) /\
  (exists s, d_federal_rates d = fst (uniform (dec 10 2) (dec 15 2) n s)) /\
  (exists s, d_state_rates d = fst (uniform (dec 3 2) (dec 6 2) n s)) /\
  (exists s, d_health_insurance d
             = fst (uniform (f_of_int 50) (f_of_int 100) n s)) /\
  (exists s, d_retirement d = fst (uniform (f_of_int 30) (f_of_int 70) n s)) /\
  (exists s, d_other_deductions d
             = fst (uniform (f_of_int 10) (f_of_int 30) n s)).
End Derivation.

(** ** Concrete inputs

    A host, a generator and a world on which the program can be run. *)

(** A host whose clock advances by a quarter of a second per reading and
    on which the accelerated packages are missing. *)
Definition demo_host : Host := {|
  wall_clock := fun k => PrimFloat.mul 0.25%float (float_of_int (Z.of_nat k));
  installed := fun _ => false
|}.

Definition demo_world {F : Float64} (tape : list Z)
  : World (scripted tape) (scripted tape) := {|
  np_global := (@nil Z : @rng F (scripted tape));
  cp_global := (@nil Z : @rng F (scripted tape));
  time_calls := 0;
  stdout := []
|}.

(** A tape for a one-row table: the four categorical draws, 75 regular
    and no overtime hours, a base rate near 20.05, and mid-range draws for
    the remaining columns. *)
Definition demo_tape : list Z :=
  [0; 1; 2; 3; 5; 0; 1299760292993716;
   2 ^ 52; 2 ^ 52; 2 ^ 52; 2 ^ 52; 2 ^ 52].

Definition demo_np {F : Float64} : RandomState := scripted demo_tape.

(** A host with the accelerated packages installed. *)
Definition gpu_host : Host := {|
  wall_clock := fun k => PrimFloat.mul 0.25%float (float_of_int (Z.of_nat k));
  installed := fun _ => true
|}.

Definition empty_frame {F : Float64} : DataFrame := {|
  Employee_Name := []; Employee_ID := []; Job_Title := []; Pay_Period := [];
  Regular_Hours := []; Overtime_Hours := []; Gross_Wages := [];
  Federal_Tax := []; State_Tax := []; Social_Security := []; Medicare := [];
  Health_Insurance := []; Retirement := []; Other_Deductions := [];
  Net_Pay := []
|}.

Definition returned_or {A : Type} (default : A) (r : Result A) : A :=
  match r with
  | Returned a => a
  | Raised _ => default
  end.

Definition blank_row {F : Float64} : PayrollRecord := {|
  name := EmptyString; id := EmptyString; job_title := EmptyString;
  pay_period := EmptyString; regular_hours := 0; overtime_hours := 0;
  gross_wages := f_of_int 0; federal_tax := f_of_int 0;
  state_tax := f_of_int 0; social_security := f_of_int 0;
  medicare := f_of_int 0; health_insurance := f_of_int 0;
  retirement := f_of_int 0; other_deductions := f_of_int 0;
  net_pay := f_of_int 0
|}.

(** The CPU-path table of [n_rows] rows that the demo tape yields. *)
Definition demo_table {F : Float64} (n_rows : Z) : DataFrame :=
  returned_or empty_frame
    (fst (simulate_complex_payroll_data_cpu demo_np demo_np n_rows
            (demo_world demo_tape))).

(** Its first row. *)
Definition demo_row {F : Float64} (n_rows : Z) : PayrollRecord :=
  match iloc (demo_table n_rows) 0 with
  | Some row => row
  | None => blank_row
  end.

(** ** Predicates on computations *)

Arguments ret {F np cp A} a w.
Arguments bind {F np cp A B} c k w.
Arguments raise {F np cp A} e w.
Arguments try_except {F np cp A B} body e handler k w.
Arguments print {F np cp} o w.
Arguments load {F np cp A} v w.

(** [c] reads and writes no part of the world but NumPy's generator
    state: from worlds that agree on it, it returns the same result and
    leaves the same generator state. *)
Definition np_only {F : Float64} {np cp : RandomState} {A : Type}
    (c : M np cp A) : Prop :=
  forall w1 w2,
    np_global np cp w1 = np_global np cp w2 ->
    fst (c w1) = fst (c w2) /\
    np_global np cp (snd (c w1)) = np_global np cp (snd (c w2)).

(** Every exception [c] can raise is one of [allowed]. *)
Definition throws {F : Float64} {np cp : RandomState} {A : Type}
    (c : M np cp A) (allowed : PyExn -> Prop) : Prop :=
  forall w e w', c w = (Raised e, w') -> allowed e.

(** The exceptions a measurement can end in: a negative row count, or a
    missing package. *)
Definition from_library (e : PyExn) : Prop :=
  e = ValueError \/ e = ImportError.

(** The elapsed time a measurement reports when its two clock readings
    are the [k]-th and the next. *)
Definition elapsed_from (host : Host) (k : nat) : float :=
  PrimFloat.sub (wall_clock host (S k)) (wall_clock host k).

(** The demo generator and world on doubles. *)
Definition np64 : @RandomState binary64 := demo_np.
Definition world64 : World np64 np64 := demo_world demo_tape.

(** Every column of [df] has [m] entries. *)
Definition has_rows {F : Float64} (df : DataFrame) (m : nat) : Prop :=
  List.length (Employee_Name df) = m /\
  List.length (Employee_ID df) = m /\
  List.length (Job_Title df) = m /\
  List.length (Pay_Period df) = m /\
  List.length (Regular_Hours df) = m /\
  List.length (Overtime_Hours df) = m /\
  List.length (Gross_Wages df) = m /\
  List.length (Federal_Tax df) = m /\
  List.length (State_Tax df) = m /\
  List.length (Social_Security df) = m /\
  List.length (Medicare df) = m /\
  List.length (Health_Insurance df) = m /\
  List.length (Retirement df) = m /\
  List.length (Other_Deductions df) = m /\
  List.length (Net_Pay df) = m.

(** ** Further predicates and pure counterparts *)

(** The four lines of the summary (lines 252-256). *)
Definition is_summary_line {F : Float64} (o : Output) : bool :=
  match o with
  | PrintSummary | PrintSummaryCpu _ | PrintSummaryGpu _ | PrintSpeedup _ => true
  | _ => false
  end.

(** [c] only appends to standard output, and every line it appends
    satisfies [P]. *)
Definition emits {F : Float64} {np cp : RandomState} {A : Type}
    (c : M np cp A) (P : Output -> Prop) : Prop :=
  forall w,
    exists l,
      stdout np cp (snd (c w)) = stdout np cp w ++ l /\ Forall P l.

(** The categorical draws of lines 32-47 (114-130), from generator state
    [s]: the names, the job titles, the pay periods and the state left. *)
Definition draw_labels {F : Float64} (R : RandomState) (s : rng) (n : nat)
  : list string * list string * list string * rng :=
  let '(firsts, s) := choice first_names n s in
  let '(lasts, s) := choice last_names n s in
  let '(titles, s) := choice job_titles n s in
  let '(periods, s) := choice pay_periods n s in
  (zip_with full_name firsts lasts, titles, periods, s).

(** The numeric draws of lines 50-69 (133-150), from generator state [s]. *)
Definition draw_numeric {F : Float64} (R : RandomState) (s : rng) (n : nat)
  : Draws :=
  let '(rh, s) := randint 70 81 n s in
  let '(oh, s) := randint 0 11 n s in
  let '(br, s) := uniform (f_of_int 15) (f_of_int 50) n s in
  let '(fr, s) := uniform (dec 10 2) (dec 15 2) n s in
  let '(sr, s) := uniform (dec 3 2) (dec 6 2) n s in
  let '(hi, s) := uniform (f_of_int 50) (f_of_int 100) n s in
  let '(re, s) := uniform (f_of_int 30) (f_of_int 70) n s in
  let '(od, _) := uniform (f_of_int 10) (f_of_int 30) n s in
  {| d_regular_hours := rh; d_overtime_hours := oh; d_base_rates := br;
     d_federal_rates := fr; d_state_rates := sr; d_health_insurance := hi;
     d_retirement := re; d_other_deductions := od |}.

(** The table of the CPU path as a function of the row count: all draws
    come from NumPy's generator, seeded with 42. *)
Definition cpu_table {F : Float64} (np : RandomState) (n_rows : Z) : DataFrame :=
  let '(names, titles, periods, s) :=
    draw_labels np (seed 42) (Z.to_nat n_rows) in
  payroll_frame names (employee_ids n_rows) titles periods
    (draw_numeric np s (Z.to_nat n_rows)).

(** The table of the accelerated path as a function of the row count and
    of the state [s] NumPy's generator is in: the labels continue NumPy's
    stream, the numbers come from CuPy's generator, seeded with 42. *)
Definition gpu_table {F : Float64} (np cp : RandomState) (s : @rng F np)
    (n_rows : Z) : DataFrame :=
  let '(names, titles, periods, _) := draw_labels np s (Z.to_nat n_rows) in
  payroll_frame names (employee_ids n_rows) titles periods
    (draw_numeric cp (seed 42) (Z.to_nat n_rows)).

(** A host on which cuDF is installed and CuPy is not. *)
Definition cudf_only_host : Host := {|
  wall_clock := fun k => PrimFloat.mul 0.25%float (float_of_int (Z.of_nat k));
  installed := fun p => match p with cudf => true | cupy => false end
|}.

(** A second world for the demo generator, whose NumPy stream has already
    been consumed up to its last three words. *)
Definition world64_late : World np64 np64 := {|
  np_global := ([2 ^ 52; 7; 9] : @rng binary64 np64);
  cp_global := (@nil Z : @rng binary64 np64);
  time_calls := 4;
  stdout := [PrintCpuBanner]
|}.

(** The one-row table of the accelerated path that the demo tape yields
    from world [w], on the host with both packages. *)
Definition demo_gpu_table (w : World np64 np64) : DataFrame :=
  returned_or empty_frame
    (fst (simulate_complex_payroll_data_gpu np64 np64 gpu_host 1 w)).

(** A row after the recomputation of lines 193-196: its net pay is
    recomputed from its stored amounts. *)
Definition recompute_row {F : Float64} (row : PayrollRecord) : PayrollRecord :=
  {| name := name row; id := id row; job_title := job_title row;
     pay_period := pay_period row; regular_hours := regular_hours row;
     overtime_hours := overtime_hours row; gross_wages := gross_wages row;
     federal_tax := federal_tax row; state_tax := state_tax row;
     social_security := social_security row; medicare := medicare row;
     health_insurance := health_insurance row; retirement := retirement row;
     other_deductions := other_deductions row;
     net_pay :=
       f_sub (gross_wages row)
         (f_add (f_add (f_add (f_add (f_add (f_add
            (federal_tax row) (state_tax row)) (social_security row))
            (medicare row)) (health_insurance row)) (retirement row))
            (other_deductions row)) |}.

(** A string of decimal digits. *)
Fixpoint digit_string (s : string) : Prop :=
  match s with
  | EmptyString => True
  | String c s' => 0 <= digit_value c < 10 /\ digit_string s'
  end.

(** [choice(a, n)] returns elements of [a], when [a] is not empty. *)
Definition choice_law {F : Float64} (R : RandomState) : Prop :=
  forall a n s x, a <> [] -> In x (fst (choice a n s)) -> In x a.

(** A host with both packages whose wall clock, after readings of
    0, 0.25 and 0.5 seconds, is set back to zero for its fourth reading. *)
Definition set_back_host : Host := {|
  wall_clock := fun k =>
    match k with
    | 3%nat => PrimFloat.zero
    | _ => PrimFloat.mul 0.25%float (float_of_int (Z.of_nat k))
    end;
  installed := fun _ => true
|}.

(** ** Double precision: values, rounding and bounds

    The value of a finite double that is not negative is a rational.  The
    definitions below state what rounding to nearest, ties to even, does
    on the grid of binary64, and give a checker of bounds on doubles that
    evaluates the operations of the program on the end points. *)

(** Powers of two as rationals. *)
Definition bpow (e : Z) : Q := Qpower (2 # 1) e.

Local Open Scope Q_scope.

(** [v] lies at location [l] of the slice [m * 2^e, (m + 1) * 2^e). *)
Definition located (v : Q) (m e : Z) (l : location) : Prop :=
  match l with
  | loc_Exact => v == inject_Z m * bpow e
  | loc_Inexact c =>
      inject_Z m * bpow e < v /\ v < (inject_Z m + 1) * bpow e /\
      match c with
      | Lt => v < (inject_Z m + (1 # 2)) * bpow e
      | Eq => v == (inject_Z m + (1 # 2)) * bpow e
      | Gt => (inject_Z m + (1 # 2)) * bpow e < v
      end
  end.

(** [M] is an integer nearest to [v / 2^E], an even one at a tie. *)
Definition nearest_even (v : Q) (M E : Z) : Prop :=
  (2 * inject_Z M - 1) * bpow E <= 2 * v /\
  2 * v <= (2 * inject_Z M + 1) * bpow E /\
  (Z.odd M = true ->
   (2 * inject_Z M - 1) * bpow E < 2 * v /\
   2 * v < (2 * inject_Z M + 1) * bpow E).

(** [r] is [v] rounded to binary64, to nearest with ties to even: [K] is
    the binade of [v] and [E] the exponent of the grid there. *)
Definition rounded (v r : Q) : Prop :=
  exists M E K : Z,
    bpow (K - 1) <= v /\ v < bpow K /\ E = Z.max (K - 53) (-1074) /\
    r == inject_Z M * bpow E /\ nearest_even v M E.

(** [x] is a finite float that is not negative, of value [r]. *)
Definition SFpos_value (x : spec_float) (r : Q) : Prop :=
  match x with
  | S754_zero _ => r == 0
  | S754_finite false m e => r == inject_Z (Z.pos m) * bpow e
  | _ => False
  end.

(** Rounding of a value that may be zero. *)
Definition rounded0 (v r : Q) : Prop := (v == 0 /\ r == 0) \/ rounded v r.

Local Close Scope Q_scope.

(** [x] lies between [lo] and [hi] in the order of the doubles. *)
Definition within (lo hi x : float) : Prop :=
  PrimFloat.leb lo x = true /\ PrimFloat.leb x hi = true.

(** The bounds of a range that is not negative and stays below [2^400],
    where no operation of the script overflows. *)
Definition huge : float := 0x1p400%float.

Definition tiny : float := 0x1p-400%float.

Definition bounds_ok (lo hi : float) : bool :=
  PrimFloat.leb PrimFloat.zero lo && PrimFloat.leb hi huge.

Definition positive_bounds_ok (lo hi : float) : bool :=
  PrimFloat.leb tiny lo && PrimFloat.leb hi huge.

Local Open Scope Q_scope.

(** [x] is a finite double that is not negative, of value [r]. *)
Definition fvalue (x : float) (r : Q) : Prop := SFpos_value (Prim2SF x) r.

Definition nonneg_finite (x : spec_float) : Prop :=
  match x with
  | S754_zero _ | S754_finite false _ _ => True
  | _ => False
  end.

(** Not negative, possibly infinite. *)
Definition not_negative (x : spec_float) : Prop :=
  match x with
  | S754_zero _ | S754_finite false _ _ | S754_infinity false => True
  | _ => False
  end.

Local Close Scope Q_scope.

(** The sum-and-difference that [float_rint] computes for a double that is
    not negative. *)
Definition rint_raw (x : float) : float :=
  PrimFloat.sub (PrimFloat.add x two52) two52.

Definition rint_ok (lo hi : float) : bool :=
  bounds_ok lo hi && PrimFloat.ltb hi two52 &&
  bounds_ok (PrimFloat.add lo two52) (PrimFloat.add hi two52) &&
  PrimFloat.leb two52 (PrimFloat.add lo two52) &&
  PrimFloat.ltb PrimFloat.zero (rint_raw lo).

(** [np.round(x, 2)] on doubles. *)
Definition round2 (x : float) : float :=
  PrimFloat.div (float_rint (PrimFloat.mul x 100%float)) 100%float.

Definition round2_lo (lo : float) : float :=
  PrimFloat.div (rint_raw (PrimFloat.mul lo 100%float)) 100%float.

Definition round2_ok (lo hi : float) : bool :=
  bounds_ok lo hi &&
  rint_ok (PrimFloat.mul lo 100%float) (PrimFloat.mul hi 100%float) &&
  positive_bounds_ok (rint_raw (PrimFloat.mul lo 100%float))
    (rint_raw (PrimFloat.mul hi 100%float)).

(** The expressions of lines 55-75 and 85-93: sums, differences and
    products of doubles, and roundings to two decimals. *)
Inductive fexpr : Set :=
| FVar (i : nat)
| FConst (c : float)
| FAdd (e1 e2 : fexpr)
| FSub (e1 e2 : fexpr)
| FMul (e1 e2 : fexpr)
| FRound2 (e : fexpr).

Fixpoint feval (env : list float) (e : fexpr) : float :=
  match e with
  | FVar i => nth i env PrimFloat.zero
  | FConst c => c
  | FAdd e1 e2 => PrimFloat.add (feval env e1) (feval env e2)
  | FSub e1 e2 => PrimFloat.sub (feval env e1) (feval env e2)
  | FMul e1 e2 => PrimFloat.mul (feval env e1) (feval env e2)
  | FRound2 e1 => round2 (feval env e1)
  end.

(** Interval evaluation: the bounds of [e] when each variable lies within
    its pair of [box], or [None] when an operation could leave the range
    where it is monotone (a negative or huge operand, a difference that
    could be negative). *)
Fixpoint fbounds (box : list (float * float)) (e : fexpr)
  : option (float * float) :=
  match e with
  | FVar i => nth_error box i
  | FConst c => if PrimFloat.leb c c then Some (c, c) else None
  | FAdd e1 e2 =>
      match fbounds box e1, fbounds box e2 with
      | Some (a, b), Some (c, d) =>
          if bounds_ok a b && bounds_ok c d
          then Some (PrimFloat.add a c, PrimFloat.add b d) else None
      | _, _ => None
      end
  | FSub e1 e2 =>
      match fbounds box e1, fbounds box e2 with
      | Some (a, b), Some (c, d) =>
          if bounds_ok a b && bounds_ok c d && PrimFloat.leb d a
          then Some (PrimFloat.sub a d, PrimFloat.sub b c) else None
      | _, _ => None
      end
  | FMul e1 e2 =>
      match fbounds box e1, fbounds box e2 with
      | Some (a, b), Some (c, d) =>
          if bounds_ok a b && bounds_ok c d
          then Some (PrimFloat.mul a c, PrimFloat.mul b d) else None
      | _, _ => None
      end
  | FRound2 e1 =>
      match fbounds box e1 with
      | Some (a, b) =>
          if round2_ok a b then Some (round2_lo a, round2_lo b) else None
      | None => None
      end
  end.

(** Each variable lies within its pair of bounds. *)
Definition in_box (box : list (float * float)) (env : list float) : Prop :=
  Forall2 (fun p x => within (fst p) (snd p) x) box env.

(** ** Bounds piece by piece

    The first variable runs through the pieces from [a] over the cuts to
    [top]; on each piece the lower bound of [e] is at least [l]. *)
Definition piece_ok (rest : list (float * float)) (e : fexpr) (l a b : float)
  : bool :=
  PrimFloat.leb a b && bounds_ok a b &&
  match fbounds ((a, b) :: rest) e with
  | Some (lo, _) => PrimFloat.leb l lo
  | None => false
  end.

Fixpoint pieces_ok (rest : list (float * float)) (e : fexpr) (l a : float)
    (cuts : list float) (top : float) : bool :=
  match cuts with
  | [] => piece_ok rest e l a top
  | b :: cuts' => piece_ok rest e l a b && pieces_ok rest e l b cuts' top
  end.

(** The cuts [a + step, a + 2 * step, ...]. *)
Fixpoint cuts_from (a step : float) (n : nat) : list float :=
  match n with
  | O => []
  | S n' => PrimFloat.add a step :: cuts_from (PrimFloat.add a step) step n'
  end.

(** [x] if it lies between [lo] and [hi], else [lo]. *)
Definition clamp (lo hi x : float) : float :=
  if PrimFloat.leb lo x && PrimFloat.leb x hi then x else lo.

(** A generator on doubles that replays a tape like [scripted] and keeps
    what [uniform] returns between the bounds it is given. *)
Definition guarded (tape : list Z) : @RandomState binary64 := {|
  rng := list Z;
  seed := fun _ => tape;
  choice := @choice binary64 (scripted tape);
  randint := @randint binary64 (scripted tape);
  uniform := fun lo hi n s =>
    let '(xs, s') := @uniform binary64 (scripted tape) lo hi n s in
    (map (clamp lo hi) xs, s')
|}.

Definition guarded_np : @RandomState binary64 := guarded demo_tape.

Definition guarded_world : World guarded_np guarded_np := {|
  np_global := (@nil Z : @rng binary64 guarded_np);
  cp_global := (@nil Z : @rng binary64 guarded_np);
  time_calls := 0;
  stdout := []
|}.

(** The one-row tables that the guarded generator yields from the demo
    tape, on the CPU path and on the accelerated path, and their rows. *)
Definition guarded_table : @DataFrame binary64 :=
  returned_or empty_frame
    (fst (simulate_complex_payroll_data_cpu guarded_np guarded_np 1
            guarded_world)).

Definition guarded_row : @PayrollRecord binary64 :=
  match iloc guarded_table 0 with
  | Some row => row
  | None => blank_row
  end.

(** Unrounded gross wages as an expression of the regular hours, the
    overtime hours and the base rate (lines 55, 137). *)
Definition gross_expr : fexpr :=
  FAdd (FMul (FVar 0) (FVar 2))
       (FMul (FVar 1) (FMul (FConst (@dec binary64 15 1)) (FVar 2))).

(** The ranges of the hours and of the base rate. *)
Definition gross_box : list (float * float) :=
  [(70%float, 80%float); (0%float, 10%float);
   (@f_of_int binary64 15, @f_of_int binary64 50)].

(** Stored net pay as an expression of the unrounded gross wages, the two
    tax rates and the three fixed-range deductions (lines 58-75, 93). *)
Definition net_expr : fexpr :=
  FRound2 (FSub (FVar 0)
    (FAdd (FAdd (FAdd (FAdd (FAdd (FAdd
       (FMul (FVar 0) (FVar 1)) (FMul (FVar 0) (FVar 2)))
       (FMul (FVar 0) (FConst (@dec binary64 62 3))))
       (FMul (FVar 0) (FConst (@dec binary64 145 4))))
       (FVar 3)) (FVar 4)) (FVar 5))).

(** The ranges of the rates and of the fixed-range deductions. *)
Definition rates_box : list (float * float) :=
  [(@dec binary64 10 2, @dec binary64 15 2);
   (@dec binary64 3 2, @dec binary64 6 2);
   (@f_of_int binary64 50, @f_of_int binary64 100);
   (@f_of_int binary64 30, @f_of_int binary64 70);
   (@f_of_int binary64 10, @f_of_int binary64 30)].

(** A stored amount that is a rounded product of the gross wages. *)
Definition share_expr (rate : fexpr) : fexpr :=
  FRound2 (FMul gross_expr rate).

(** ** The speedup a run reports *)

(** The value the last line of a run's output reports as the speedup, if
    that line is the speedup line. *)
Definition reported_speedup {F : Float64} (out : list Output) : option float :=
  match last out PrintSummary with
  | PrintSpeedup s => Some s
  | _ => None
  end.

(** * Properties *)

(** ** Decimal rendering *)

Lemma string_length_append (s t : string) :
  String.length (String.append s t) = (String.length s + String.length t)%nat.
Proof.
  induction s as [|c s IH]; simpl; [reflexivity | now rewrite IH].
Qed.

Lemma digits_from_acc (fuel : nat) :
  forall n acc,
    digits_from fuel n acc
    = String.append (digits_from fuel n EmptyString) acc.
Proof.
  induction fuel as [|fuel IH]; intros n acc; simpl.
  - reflexivity.
  - destruct (n / 10 =? 0); [reflexivity|].
    rewrite IH. rewrite (IH _ (String _ EmptyString)).
    generalize (digits_from fuel (n / 10) EmptyString) as s.
    induction s as [|c s IHs]; simpl; [reflexivity | now rewrite IHs].
Qed.

Lemma int_from_append (s t : string) :
  forall a, int_from a (String.append s t) = int_from (int_from a s) t.
Proof.
  induction s as [|c s IH]; intros a; simpl; [reflexivity | apply IH].
Qed.

Lemma digit_value_char (d : Z) : 0 <= d < 10 -> digit_value (digit_char d) = d.
Proof.
  intros Hd. unfold digit_value, digit_char.
  rewrite nat_ascii_embedding by lia. lia.
Qed.

(** The rendering of [n] has [d] digits, where [d] is the least positive
    exponent with [n < 10^d], and reading it back continues a number [a]
    to [a * 10^d + n]. *)
Lemma digits_from_spec (fuel : nat) :
  forall n,
    0 <= n < 2 ^ Z.of_nat (S fuel) ->
    exists d : nat,
      (1 <= d)%nat /\
      String.length (digits_from fuel n EmptyString) = d /\
      n < 10 ^ Z.of_nat d /\
      (d = 1%nat \/ 10 ^ Z.of_nat (d - 1) <= n) /\
      forall a, int_from a (digits_from fuel n EmptyString)
                = a * 10 ^ Z.of_nat d + n.
Proof.
  assert (one_digit : forall n, 0 <= n < 10 ->
    exists d : nat,
      (1 <= d)%nat /\
      String.length (String (digit_char (n mod 10)) EmptyString) = d /\
      n < 10 ^ Z.of_nat d /\
      (d = 1%nat \/ 10 ^ Z.of_nat (d - 1) <= n) /\
      forall a, int_from a (String (digit_char (n mod 10)) EmptyString)
                = a * 10 ^ Z.of_nat d + n).
  { intros n Hn. exists 1%nat.
    change (10 ^ Z.of_nat 1) with 10. repeat split; auto.
    - lia.
    - intros a. cbn [int_from]. rewrite Z.mod_small by lia.
      rewrite digit_value_char by lia. lia. }
  induction fuel as [|fuel IH]; intros n Hn.
  - simpl digits_from. apply one_digit. simpl in Hn. lia.
  - simpl digits_from. destruct (n / 10 =? 0) eqn:Hq.
    + apply one_digit. apply Z.eqb_eq in Hq.
      pose proof (Z.div_mod n 10 ltac:(lia)).
      pose proof (Z.mod_pos_bound n 10 ltac:(lia)). lia.
    + apply Z.eqb_neq in Hq. rewrite digits_from_acc.
      assert (Hpow : 2 ^ Z.of_nat (S (S fuel)) = 2 * 2 ^ Z.of_nat (S fuel)).
      { rewrite (Nat2Z.inj_succ (S fuel)). rewrite Z.pow_succ_r by lia. reflexivity. }
      assert (Hdiv : 0 <= n / 10 < 2 ^ Z.of_nat (S fuel)).
      { split; [apply Z.div_pos; lia|].
        apply Z.div_lt_upper_bound; lia. }
      destruct (IH (n / 10) Hdiv) as (d & Hd1 & Hlen & Hlt & Hge & Hint).
      pose proof (Z.div_mod n 10 ltac:(lia)) as Hdm.
      pose proof (Z.mod_pos_bound n 10 ltac:(lia)) as Hmod.
      assert (Hq1 : 1 <= n / 10) by lia.
      assert (Hsucc : 10 ^ Z.of_nat (S d) = 10 * 10 ^ Z.of_nat d).
      { rewrite Nat2Z.inj_succ. rewrite Z.pow_succ_r by lia. reflexivity. }
      exists (S d). repeat split.
      * lia.
      * rewrite string_length_append, Hlen. simpl. lia.
      * rewrite Hsucc. lia.
      * right. replace (S d - 1)%nat with d by lia.
        destruct Hge as [-> | Hge].
        -- simpl. lia.
        -- replace d with (S (d - 1)) at 1 by lia.
           rewrite Nat2Z.inj_succ, Z.pow_succ_r by lia. lia.
      * intros a. rewrite int_from_append, Hint. cbn [int_from].
        rewrite digit_value_char by lia. rewrite Hsucc. lia.
Qed.

Lemma digits_spec (n : Z) :
  0 <= n ->
  exists d : nat,
    (1 <= d)%nat /\
    String.length (digits n) = d /\
    n < 10 ^ Z.of_nat d /\
    (d = 1%nat \/ 10 ^ Z.of_nat (d - 1) <= n) /\
    int (digits n) = n.
Proof.
  intros Hn. unfold digits, int.
  destruct (digits_from_spec (Z.to_nat (Z.log2 n)) n) as (d & H1 & H2 & H3 & H4 & H5).
  - split; [assumption|].
    rewrite Nat2Z.inj_succ, Z2Nat.id by apply Z.log2_nonneg.
    destruct (Z.eq_dec n 0) as [-> | Hnz]; [reflexivity|].
    apply Z.log2_spec. lia.
  - exists d. repeat split; auto.
Qed.

(** A smaller number has no more digits. *)
Lemma digits_length_mono (i n : Z) :
  0 <= i <= n -> (String.length (digits i) <= String.length (digits n))%nat.
Proof.
  intros Hin.
  destruct (digits_spec i ltac:(lia)) as (di & Hi1 & Hil & Hilt & Hige & _).
  destruct (digits_spec n ltac:(lia)) as (dn & Hn1 & Hnl & Hnlt & Hnge & _).
  rewrite Hil, Hnl.
  destruct Hige as [-> | Hige]; [assumption|].
  destruct (Nat.le_gt_cases di dn) as [Hle | Hgt]; [assumption | exfalso].
  assert (10 ^ Z.of_nat dn <= 10 ^ Z.of_nat (di - 1))
    by (apply Z.pow_le_mono_r; lia).
  lia.
Qed.

Lemma int_from_zeros (k : nat) (s : string) :
  int_from 0 (String.append (zeros k) s) = int_from 0 s.
Proof.
  induction k as [|k IH]; simpl; [reflexivity | exact IH].
Qed.

Lemma zeros_length (k : nat) : String.length (zeros k) = k.
Proof.
  induction k as [|k IH]; simpl; [reflexivity | now rewrite IH].
Qed.

Lemma str_nonneg (n : Z) : 0 <= n -> str n = digits n.
Proof.
  intros Hn. unfold str. destruct (n <? 0) eqn:E; [|reflexivity].
  apply Z.ltb_lt in E. lia.
Qed.

(** Formatting a positive [i] whose rendering fits the width. *)
Lemma format_0d_positive (width i : Z) :
  0 < i -> len (str i) <= width ->
  format_0d width i
  = String.append (zeros (Z.to_nat (width - len (str i)))) (str i)
  /\ len (format_0d width i) = width
  /\ int (format_0d width i) = i.
Proof.
  intros Hi Hfit. rewrite str_nonneg in * by lia.
  unfold format_0d.
  replace (i <? 0) with false by (symmetry; apply Z.ltb_ge; lia).
  rewrite Z.abs_eq by lia. simpl String.append.
  replace (width - len EmptyString - len (digits i)) with (width - len (digits i))
    by (unfold len; simpl; lia).
  split; [reflexivity|]. split.
  - unfold len in *. rewrite string_length_append, zeros_length. lia.
  - unfold int. rewrite int_from_zeros.
    destruct (digits_spec i ltac:(lia)) as (d & _ & _ & _ & _ & Hint). exact Hint.
Qed.

Lemma range_nth (lo hi : Z) (k : nat) :
  (k < Z.to_nat (hi - lo))%nat ->
  nth_error (range lo hi) k = Some (lo + Z.of_nat k).
Proof.
  intros Hk. unfold range.
  rewrite nth_error_map, nth_error_seq.
  destruct (Nat.ltb_spec k (Z.to_nat (hi - lo))); [reflexivity | lia].
Qed.

Lemma range_In (lo hi x : Z) : In x (range lo hi) -> lo <= x < hi.
Proof.
  unfold range. rewrite in_map_iff. intros (k & <- & Hk).
  apply in_seq in Hk. lia.
Qed.

Lemma range_NoDup (lo hi : Z) : NoDup (range lo hi).
Proof.
  unfold range. apply Injective_map_NoDup; [|apply seq_NoDup].
  intros a b Hab. lia.
Qed.

Lemma range_length (lo hi : Z) : List.length (range lo hi) = Z.to_nat (hi - lo).
Proof. unfold range. now rewrite length_map, length_seq. Qed.

(** The identifiers of a table of [n] rows: every number from 1 to [n]
    fits the width, so each identifier has exactly that many characters. *)
Lemma employee_ids_spec (n : Z) :
  1 <= n ->
  NoDup (employee_ids n) /\
  List.length (employee_ids n) = Z.to_nat n /\
  forall k, 1 <= k <= n ->
    exists s,
      nth_error (employee_ids n) (Z.to_nat (k - 1)) = Some s /\
      int s = k /\
      len s = Z.max 3 (len (str n)) /\
      s = String.append
            (zeros (Z.to_nat (Z.max 3 (len (str n)) - len (str k)))) (str k).
Proof.
  intros Hn. unfold employee_ids. cbv zeta.
  set (width := Z.max 3 (len (str n))).
  assert (Hfit : forall k, 1 <= k <= n -> len (str k) <= width).
  { intros k Hk. rewrite (str_nonneg k) by lia.
    assert (len (digits k) <= len (str n)); [|lia].
    rewrite (str_nonneg n) by lia. unfold len.
    apply Nat2Z.inj_le, digits_length_mono. lia. }
  split; [|split].
  - apply (NoDup_map_inv int). rewrite map_map.
    rewrite (map_ext_in _ (fun x => x)), map_id; [apply range_NoDup|].
    intros x Hx. apply range_In in Hx.
    apply format_0d_positive; [lia | apply Hfit; lia].
  - rewrite length_map, range_length. f_equal. lia.
  - intros k Hk. exists (format_0d width k).
    destruct (format_0d_positive width k ltac:(lia) (Hfit k Hk)) as (E & L & I).
    repeat split; auto.
    rewrite nth_error_map, range_nth by lia.
    cbn [option_map]. do 2 f_equal. lia.
Qed.

(** ** Runs of the program *)

Section Runs.
Context {F : Float64}.
Variables np cp : RandomState.
Variable host : Host.

Lemma bind_returned {A B : Type} (c : M np cp A) (k : A -> M np cp B) w b w' :
  bind c k w = (Returned b, w') ->
  exists a w1, c w = (Returned a, w1) /\ k a w1 = (Returned b, w').
Proof.
  unfold bind. destruct (c w) as [[a | e] w1]; intros H.
  - exists a, w1. split; [reflexivity | exact H].
  - discriminate H.
Qed.

Lemma run_returned_intro {A : Type} (c : M np cp A) w a :
  fst (c w) = Returned a -> c w = (Returned a, snd (c w)).
Proof.
  destruct (c w) as [r w1]. simpl. intros ->. reflexivity.
Qed.

Lemma np_random_choice_returned a n w xs w1 :
  np_random_choice np cp a n w = (Returned xs, w1) ->
  0 <= n /\ exists s, xs = fst (@choice F np a (Z.to_nat n) s).
Proof.
  unfold np_random_choice. destruct (n <? 0) eqn:E; [discriminate|].
  apply Z.ltb_ge in E.
  destruct (choice a (Z.to_nat n) (np_global np cp w)) as [ys s] eqn:Ec.
  intros H. injection H as <- _. split; [assumption|].
  exists (np_global np cp w). now rewrite Ec.
Qed.

Lemma np_random_randint_returned lo hi n w xs w1 :
  np_random_randint np cp lo hi n w = (Returned xs, w1) ->
  0 <= n /\ exists s, xs = fst (@randint F np lo hi (Z.to_nat n) s).
Proof.
  unfold np_random_randint. destruct (n <? 0) eqn:E; [discriminate|].
  apply Z.ltb_ge in E.
  destruct (randint lo hi (Z.to_nat n) (np_global np cp w)) as [ys s] eqn:Ec.
  intros H. injection H as <- _. split; [assumption|].
  exists (np_global np cp w). now rewrite Ec.
Qed.

Lemma np_random_uniform_returned lo hi n w xs w1 :
  np_random_uniform np cp lo hi n w = (Returned xs, w1) ->
  0 <= n /\ exists s, xs = fst (@uniform F np lo hi (Z.to_nat n) s).
Proof.
  unfold np_random_uniform. destruct (n <? 0) eqn:E; [discriminate|].
  apply Z.ltb_ge in E.
  destruct (uniform lo hi (Z.to_nat n) (np_global np cp w)) as [ys s] eqn:Ec.
  intros H. injection H as <- _. split; [assumption|].
  exists (np_global np cp w). now rewrite Ec.
Qed.

Lemma cp_random_randint_returned lo hi n w xs w1 :
  cp_random_randint np cp lo hi n w = (Returned xs, w1) ->
  0 <= n /\ exists s, xs = fst (@randint F cp lo hi (Z.to_nat n) s).
Proof.
  unfold cp_random_randint. destruct (n <? 0) eqn:E; [discriminate|].
  apply Z.ltb_ge in E.
  destruct (randint lo hi (Z.to_nat n) (cp_global np cp w)) as [ys s] eqn:Ec.
  intros H. injection H as <- _. split; [assumption|].
  exists (cp_global np cp w). now rewrite Ec.
Qed.

Lemma cp_random_uniform_returned lo hi n w xs w1 :
  cp_random_uniform np cp lo hi n w = (Returned xs, w1) ->
  0 <= n /\ exists s, xs = fst (@uniform F cp lo hi (Z.to_nat n) s).
Proof.
  unfold cp_random_uniform. destruct (n <? 0) eqn:E; [discriminate|].
  apply Z.ltb_ge in E.
  destruct (uniform lo hi (Z.to_nat n) (cp_global np cp w)) as [ys s] eqn:Ec.
  intros H. injection H as <- _. split; [assumption|].
  exists (cp_global np cp w). now rewrite Ec.
Qed.

(** Peel the binds of a run that returned, inverting each library call. *)
Ltac peel H :=
  repeat
    (let a := fresh "x" in
     let w := fresh "w" in
     let Hc := fresh "Hc" in
     apply bind_returned in H; destruct H as (a & w & Hc & H);
     first
       [ apply np_random_choice_returned in Hc
       | apply np_random_randint_returned in Hc
       | apply np_random_uniform_returned in Hc
       | apply cp_random_randint_returned in Hc
       | apply cp_random_uniform_returned in Hc
       | idtac ]).

(** A CPU-path table is the frame derived from columns drawn from
    [numpy.random]. *)
Lemma simulate_cpu_returned n w df w' :
  simulate_complex_payroll_data_cpu np cp n w = (Returned df, w') ->
  0 <= n /\
  exists names titles periods d,
    drawn_from np (Z.to_nat n) d /\
    df = payroll_frame names (employee_ids n) titles periods d.
Proof.
  unfold simulate_complex_payroll_data_cpu. intros H. peel H.
  injection H as <- _.
  repeat match goal with
         | Hx : 0 <= _ /\ (exists s, _ = _) |- _ => destruct Hx as (? & ? & ->)
         end.
  split; [assumption|].
  eexists _, _, _,
    {| d_regular_hours := _; d_overtime_hours := _; d_base_rates := _;
       d_federal_rates := _; d_state_rates := _; d_health_insurance := _;
       d_retirement := _; d_other_deductions := _ |}.
  split; [|reflexivity].
  unfold drawn_from; simpl; repeat split; eexists; reflexivity.
Qed.

(** An accelerated-path table is the same frame, over columns drawn from
    [cupy.random]. *)
Lemma simulate_gpu_returned n w df w' :
  simulate_complex_payroll_data_gpu np cp host n w = (Returned df, w') ->
  0 <= n /\
  exists names titles periods d,
    drawn_from cp (Z.to_nat n) d /\
    df = payroll_frame names (employee_ids n) titles periods d.
Proof.
  unfold simulate_complex_payroll_data_gpu. intros H. peel H.
  injection H as <- _.
  repeat match goal with
         | Hx : 0 <= _ /\ (exists s, _ = _) |- _ => destruct Hx as (? & ? & ->)
         end.
  split; [assumption|].
  eexists _, _, _,
    {| d_regular_hours := _; d_overtime_hours := _; d_base_rates := _;
       d_federal_rates := _; d_state_rates := _; d_health_insurance := _;
       d_retirement := _; d_other_deductions := _ |}.
  split; [|reflexivity].
  unfold drawn_from; simpl; repeat split; eexists; reflexivity.
Qed.
End Runs.

(** ** Rows of a table *)

Section Rows.
Context {F : Float64}.

Lemma nth_error_map_Some {A B : Type} (f : A -> B) l i y :
  nth_error (map f l) i = Some y ->
  exists x, nth_error l i = Some x /\ y = f x.
Proof.
  rewrite nth_error_map. destruct (nth_error l i) as [x|]; simpl; intros H.
  - injection H as <-. now exists x.
  - discriminate.
Qed.

Lemma nth_error_zip_with_Some {A B C : Type} (f : A -> B -> C) xs :
  forall ys i c,
    nth_error (zip_with f xs ys) i = Some c ->
    exists x y, nth_error xs i = Some x /\ nth_error ys i = Some y /\ c = f x y.
Proof.
  induction xs as [|x xs IH]; intros [|y ys] [|i] c H; simpl in H;
    try discriminate.
  - injection H as <-. now exists x, y.
  - apply IH in H. exact H.
Qed.

Lemma nth_error_zip_with {A B C : Type} (f : A -> B -> C) xs :
  forall ys i x y,
    nth_error xs i = Some x -> nth_error ys i = Some y ->
    nth_error (zip_with f xs ys) i = Some (f x y).
Proof.
  induction xs as [|x0 xs IH]; intros [|y0 ys] [|i] x y Hx Hy; simpl in *;
    try discriminate.
  - now injection Hx as ->; injection Hy as ->.
  - now apply IH.
Qed.

(** The fields of a row are the entries of the columns at its position. *)
Lemma iloc_fields (df : DataFrame) i row :
  iloc df i = Some row ->
  nth_error (Employee_Name df) i = Some (name row) /\
  nth_error (Employee_ID df) i = Some (id row) /\
  nth_error (Job_Title df) i = Some (job_title row) /\
  nth_error (Pay_Period df) i = Some (pay_period row) /\
  nth_error (Regular_Hours df) i = Some (regular_hours row) /\
  nth_error (Overtime_Hours df) i = Some (overtime_hours row) /\
  nth_error (Gross_Wages df) i = Some (gross_wages row) /\
  nth_error (Federal_Tax df) i = Some (federal_tax row) /\
  nth_error (State_Tax df) i = Some (state_tax row) /\
  nth_error (Social_Security df) i = Some (social_security row) /\
  nth_error (Medicare df) i = Some (medicare row) /\
  nth_error (Health_Insurance df) i = Some (health_insurance row) /\
  nth_error (Retirement df) i = Some (retirement row) /\
  nth_error (Other_Deductions df) i = Some (other_deductions row) /\
  nth_error (Net_Pay df) i = Some (net_pay row).
Proof.
  unfold iloc, opt_bind. intros H.
  repeat match type of H with
         | match ?o with _ => _ end = _ => destruct o; [|discriminate H]
         end.
  injection H as <-. simpl. repeat split; reflexivity.
Qed.

Ltac nth_inv :=
  repeat match goal with
         | H : nth_error (map _ _) _ = Some _ |- _ =>
             apply nth_error_map_Some in H; destruct H as (? & H & ?)
         | H : nth_error (zip_with _ _ _) _ = Some _ |- _ =>
             apply nth_error_zip_with_Some in H;
             destruct H as (? & ? & ? & H & ?)
         | H1 : nth_error ?l ?i = Some ?a, H2 : nth_error ?l ?i = Some ?b |- _ =>
             rewrite H1 in H2; injection H2 as H2; try subst b; try subst a
         | H : Some _ = Some _ |- _ => clear H
         | H : ?a = ?a |- _ => clear H
         end.

(** A row of a derived frame, in terms of the draws at its position. *)
Lemma payroll_frame_row names ids titles periods d i row :
  iloc (payroll_frame names ids titles periods d) i = Some row ->
  exists r fr sr hi re od,
    nth_error (d_regular_hours d) i = Some (regular_hours row) /\
    nth_error (d_overtime_hours d) i = Some (overtime_hours row) /\
    nth_error (d_base_rates d) i = Some r /\
    nth_error (d_federal_rates d) i = Some fr /\
    nth_error (d_state_rates d) i = Some sr /\
    nth_error (d_health_insurance d) i = Some hi /\
    nth_error (d_retirement d) i = Some re /\
    nth_error (d_other_deductions d) i = Some od /\
    let g := gross_of (regular_hours row) (overtime_hours row) r in
    gross_wages row = np_round g 2 /\
    federal_tax row = np_round (f_mul g fr) 2 /\
    state_tax row = np_round (f_mul g sr) 2 /\
    social_security row = np_round (f_mul g (dec 62 3)) 2 /\
    medicare row = np_round (f_mul g (dec 145 4)) 2 /\
    health_insurance row = np_round hi 2 /\
    retirement row = np_round re 2 /\
    other_deductions row = np_round od 2 /\
    net_pay row = np_round (net_of g fr sr hi re od) 2.
Proof.
  intros H. apply iloc_fields in H.
  destruct H as (_ & _ & _ & _ & Hrh & Hoh & Hg & Hfed & Hst & Hss & Hmed
                 & Hhi & Hre & Hod & Hnet).
  unfold payroll_frame in *. cbn [Regular_Hours Overtime_Hours Gross_Wages
    Federal_Tax State_Tax Social_Security Medicare Health_Insurance
    Retirement Other_Deductions Net_Pay] in *.
  unfold arr_round, arr_add, arr_sub, arr_mul, int_arr_mul, scalar_mul,
    mul_scalar in *.
  nth_inv.
  match goal with
  | H1 : nth_error (d_base_rates d) i = Some ?r,
    H2 : nth_error (d_federal_rates d) i = Some ?fr,
    H3 : nth_error (d_state_rates d) i = Some ?sr,
    H4 : nth_error (d_health_insurance d) i = Some ?hi,
    H5 : nth_error (d_retirement d) i = Some ?re,
    H6 : nth_error (d_other_deductions d) i = Some ?od |- _ =>
      exists r, fr, sr, hi, re, od
  end.
  subst. repeat split; try assumption; reflexivity.
Qed.
End Rows.

(** ** The scripted generator honours the contracts *)

Lemma draw_length (n : nat) : forall tape, List.length (fst (draw n tape)) = n.
Proof.
  induction n as [|n IH]; intros tape; simpl; [reflexivity|].
  destruct tape as [|x t].
  - specialize (IH []). destruct (draw n []) as [xs t']. simpl in *. now rewrite IH.
  - specialize (IH t). destruct (draw n t) as [xs t']. simpl in *. now rewrite IH.
Qed.

Lemma scripted_size_law {F : Float64} (tape : list Z) : size_law (scripted tape).
Proof.
  intros n s. pose proof (draw_length n s) as Hlen.
  repeat split; intros; simpl; destruct (draw n s) as [raw s']; simpl in *;
    now rewrite length_map.
Qed.

Lemma scripted_randint_law {F : Float64} (tape : list Z) :
  randint_law (scripted tape).
Proof.
  intros lo hi n s x Hlt. simpl. destruct (draw n s) as [raw s']. simpl.
  rewrite in_map_iff. intros (r & <- & _).
  pose proof (Z.mod_pos_bound r (hi - lo) ltac:(lia)). lia.
Qed.

(** ** Employee identifiers *)

(** C6.  For every row count [n >= 1], on either path, the [Employee ID]
    column has [n] pairwise distinct entries; the entry of row [k]
    (counting from 1) reads back as the number [k], and is the decimal
    rendering of [k] padded with zeros on the left to exactly
    [max(3, len(str(n)))] characters. *)
Theorem employee_ids_unique_padded_numbered
    {F : Float64} (np cp : RandomState) (host : Host) (n : Z)
    (w : World np cp) (df : DataFrame) (w' : World np cp) :
  1 <= n ->
  simulate_complex_payroll_data_cpu np cp n w = (Returned df, w') \/
  simulate_complex_payroll_data_gpu np cp host n w = (Returned df, w') ->
  NoDup (Employee_ID df) /\
  List.length (Employee_ID df) = Z.to_nat n /\
  forall k, 1 <= k <= n ->
    exists s,
      nth_error (Employee_ID df) (Z.to_nat (k - 1)) = Some s /\
      int s = k /\
      len s = Z.max 3 (len (str n)) /\
      s = String.append
            (zeros (Z.to_nat (Z.max 3 (len (str n)) - len (str k)))) (str k).
Proof.
  intros Hn Hrun.
  assert (Hids : Employee_ID df = employee_ids n).
  { destruct Hrun as [Hrun | Hrun].
    - apply simulate_cpu_returned in Hrun.
      destruct Hrun as (_ & names & titles & periods & d & _ & ->). reflexivity.
    - apply simulate_gpu_returned in Hrun.
      destruct Hrun as (_ & names & titles & periods & d & _ & ->). reflexivity. }
  rewrite Hids. apply employee_ids_spec. exact Hn.
Qed.

Lemma employee_ids_unique_padded_numbered_witness :
  NoDup (Employee_ID (demo_table (F := binary64) 12)) /\
  List.length (Employee_ID (demo_table (F := binary64) 12)) = Z.to_nat 12 /\
  forall k, 1 <= k <= 12 ->
    exists s,
      nth_error (Employee_ID (demo_table (F := binary64) 12)) (Z.to_nat (k - 1))
      = Some s /\
      int s = k /\
      len s = Z.max 3 (len (str 12)) /\
      s = String.append
            (zeros (Z.to_nat (Z.max 3 (len (str 12)) - len (str k)))) (str k).
Proof.
  apply (employee_ids_unique_padded_numbered (F := binary64)
           demo_np demo_np demo_host 12 (demo_world demo_tape)
           (demo_table 12)
           (snd (simulate_complex_payroll_data_cpu demo_np demo_np 12
                   (demo_world demo_tape)))).
  - lia.
  - left. apply run_returned_intro. vm_compute. reflexivity.
Defined.

(** ** Hours *)

(** C7.  On either path, provided the generators keep [randint] within its
    half-open range, every row has between 70 and 80 regular hours and
    between 0 and 10 overtime hours, both integers. *)
Theorem hours_within_bounds
    {F : Float64} (np cp : RandomState) (host : Host) (n : Z)
    (w : World np cp) (df : DataFrame) (w' : World np cp) :
  randint_law np -> randint_law cp ->
  simulate_complex_payroll_data_cpu np cp n w = (Returned df, w') \/
  simulate_complex_payroll_data_gpu np cp host n w = (Returned df, w') ->
  forall i row,
    iloc df i = Some row ->
    70 <= regular_hours row <= 80 /\ 0 <= overtime_hours row <= 10.
Proof.
  intros Hnp Hcp Hrun i row Hrow.
  assert (Hd : exists R names ids titles periods d,
             randint_law R /\ drawn_from R (Z.to_nat n) d /\
             df = payroll_frame names ids titles periods d).
  { destruct Hrun as [Hrun | Hrun].
    - apply simulate_cpu_returned in Hrun.
      destruct Hrun as (_ & names & titles & periods & d & Hd & ->).
      exists np. eauto 10.
    - apply simulate_gpu_returned in Hrun.
      destruct Hrun as (_ & names & titles & periods & d & Hd & ->).
      exists cp. eauto 10. }
  destruct Hd as (R & names & ids & titles & periods & d & HR & Hd & ->).
  apply payroll_frame_row in Hrow.
  destruct Hrow as (r & fr & sr & hi & re & od & Hrh & Hoh & _).
  destruct Hd as ((s1 & E1) & (s2 & E2) & _).
  rewrite E1 in Hrh. rewrite E2 in Hoh.
  apply nth_error_In in Hrh. apply nth_error_In in Hoh.
  apply HR in Hrh; [|lia]. apply HR in Hoh; [|lia]. lia.
Qed.

Lemma hours_within_bounds_witness :
  70 <= regular_hours (demo_row (F := binary64) 1) <= 80 /\
  0 <= overtime_hours (demo_row (F := binary64) 1) <= 10.
Proof.
  apply (hours_within_bounds (F := binary64)
           demo_np demo_np demo_host 1 (demo_world demo_tape)
           (demo_table 1)
           (snd (simulate_complex_payroll_data_cpu demo_np demo_np 1
                   (demo_world demo_tape)))
           (scripted_randint_law demo_tape) (scripted_randint_law demo_tape))
    with (i := 0%nat).
  - left. apply run_returned_intro. vm_compute. reflexivity.
  - vm_compute. reflexivity.
Defined.

(** ** Net pay after the recomputation *)

(** C5.  Recomputing net pay is idempotent: the recomputation reads only
    the gross wages and the seven deduction columns and writes only
    [Net Pay], so a second pass over the unchanged deductions rebuilds the
    same table. *)
Theorem compute_net_pay_idempotent {F : Float64} (df : DataFrame) :
  compute_net_pay_cpu (compute_net_pay_cpu df) = compute_net_pay_cpu df.
Proof.
  destruct df. reflexivity.
Qed.

(** ** Determinism of the CPU path *)

Section Determinism.
Context {F : Float64}.
Variables np cp : RandomState.

Lemma np_only_ret {A : Type} (a : A) : np_only (@ret F np cp A a).
Proof. intros w1 w2 H. simpl. auto. Qed.

Lemma np_only_bind {A B : Type} (c : M np cp A) (k : A -> M np cp B) :
  np_only c -> (forall a, np_only (k a)) -> np_only (bind c k).
Proof.
  intros Hc Hk w1 w2 H. unfold bind.
  destruct (Hc w1 w2 H) as [Hr Hs].
  destruct (c w1) as [r1 v1], (c w2) as [r2 v2]. simpl in Hr, Hs. subst r2.
  destruct r1 as [a | e].
  - apply Hk. exact Hs.
  - simpl. auto.
Qed.

Lemma np_only_choice a n : np_only (np_random_choice np cp a n).
Proof.
  intros w1 w2 H. unfold np_random_choice.
  destruct (n <? 0); [simpl; auto|].
  rewrite H. destruct (choice a (Z.to_nat n) (np_global np cp w2)). simpl. auto.
Qed.

Lemma np_only_randint lo hi n : np_only (np_random_randint np cp lo hi n).
Proof.
  intros w1 w2 H. unfold np_random_randint.
  destruct (n <? 0); [simpl; auto|].
  rewrite H. destruct (randint lo hi (Z.to_nat n) (np_global np cp w2)).
  simpl. auto.
Qed.

Lemma np_only_uniform lo hi n : np_only (np_random_uniform np cp lo hi n).
Proof.
  intros w1 w2 H. unfold np_random_uniform.
  destruct (n <? 0); [simpl; auto|].
  rewrite H. destruct (uniform lo hi (Z.to_nat n) (np_global np cp w2)).
  simpl. auto.
Qed.

(** After seeding, the run depends on nothing of the world it starts in. *)
Lemma simulate_cpu_result_independent (n_rows : Z) (w1 w2 : World np cp) :
  fst (simulate_complex_payroll_data_cpu np cp n_rows w1)
  = fst (simulate_complex_payroll_data_cpu np cp n_rows w2).
Proof.
  unfold simulate_complex_payroll_data_cpu.
  match goal with
  | |- fst (bind _ ?k w1) = _ =>
      change (fst (k tt (set_np np cp (seed 42) w1))
              = fst (k tt (set_np np cp (seed 42) w2)));
      assert (Hk : np_only (k tt));
      [|exact (proj1 (Hk (set_np np cp (seed 42) w1)
                         (set_np np cp (seed 42) w2) eq_refl))]
  end.
  repeat first
    [ apply np_only_ret
    | apply np_only_bind;
      [ first [apply np_only_choice | apply np_only_randint
              | apply np_only_uniform]
      | intros ? ]
    | progress cbv zeta ].
Qed.

(** C9.  The CPU-path generator is deterministic: it seeds NumPy's
    generator with 42 before the first draw, so for every row count two
    runs, from whatever worlds they start, end alike: the same table in
    every field, or the same exception. *)
Theorem cpu_generation_deterministic (n_rows : Z) (w1 w2 : World np cp) :
  fst (simulate_complex_payroll_data_cpu np cp n_rows w1)
  = fst (simulate_complex_payroll_data_cpu np cp n_rows w2).
Proof.
  apply simulate_cpu_result_independent.
Qed.
End Determinism.

(** ** Complete runs *)

Section Totality.
Context {F : Float64}.
Variables np cp : RandomState.
Variable host : Host.

Lemma bind_run {A B : Type} (c : M np cp A) (k : A -> M np cp B) w a w1 :
  c w = (Returned a, w1) -> bind c k w = k a w1.
Proof. intros H. unfold bind. now rewrite H. Qed.

Lemma bind_raised {A B : Type} (c : M np cp A) (k : A -> M np cp B) w e w1 :
  c w = (Raised e, w1) -> bind c k w = (Raised e, w1).
Proof. intros H. unfold bind. now rewrite H. Qed.

Lemma np_random_choice_run a n w :
  0 <= n ->
  exists xs s, np_random_choice np cp a n w = (Returned xs, set_np np cp s w).
Proof.
  intros Hn. unfold np_random_choice.
  replace (n <? 0) with false by (symmetry; apply Z.ltb_ge; lia).
  destruct (choice a (Z.to_nat n) (np_global np cp w)) as [xs s]. eauto.
Qed.

Lemma np_random_randint_run lo hi n w :
  0 <= n ->
  exists xs s,
    np_random_randint np cp lo hi n w = (Returned xs, set_np np cp s w).
Proof.
  intros Hn. unfold np_random_randint.
  replace (n <? 0) with false by (symmetry; apply Z.ltb_ge; lia).
  destruct (randint lo hi (Z.to_nat n) (np_global np cp w)) as [xs s]. eauto.
Qed.

Lemma np_random_uniform_run lo hi n w :
  0 <= n ->
  exists xs s,
    np_random_uniform np cp lo hi n w = (Returned xs, set_np np cp s w).
Proof.
  intros Hn. unfold np_random_uniform.
  replace (n <? 0) with false by (symmetry; apply Z.ltb_ge; lia).
  destruct (uniform lo hi (Z.to_nat n) (np_global np cp w)) as [xs s]. eauto.
Qed.

Lemma cp_random_randint_run lo hi n w :
  0 <= n ->
  exists xs s,
    cp_random_randint np cp lo hi n w = (Returned xs, set_cp np cp s w).
Proof.
  intros Hn. unfold cp_random_randint.
  replace (n <? 0) with false by (symmetry; apply Z.ltb_ge; lia).
  destruct (randint lo hi (Z.to_nat n) (cp_global np cp w)) as [xs s]. eauto.
Qed.

Lemma cp_random_uniform_run lo hi n w :
  0 <= n ->
  exists xs s,
    cp_random_uniform np cp lo hi n w = (Returned xs, set_cp np cp s w).
Proof.
  intros Hn. unfold cp_random_uniform.
  replace (n <? 0) with false by (symmetry; apply Z.ltb_ge; lia).
  destruct (uniform lo hi (Z.to_nat n) (cp_global np cp w)) as [xs s]. eauto.
Qed.

(** Step through a run: each library call returns and moves only its own
    generator state. *)
Ltac step Hn :=
  match goal with
  | |- context [bind (np_random_choice np cp ?a ?n) ?k ?w] =>
      let xs := fresh "xs" in let s := fresh "s" in let E := fresh "E" in
      destruct (np_random_choice_run a n w Hn) as (xs & s & E);
      rewrite (bind_run _ k w xs _ E); clear E
  | |- context [bind (np_random_randint np cp ?lo ?hi ?n) ?k ?w] =>
      let xs := fresh "xs" in let s := fresh "s" in let E := fresh "E" in
      destruct (np_random_randint_run lo hi n w Hn) as (xs & s & E);
      rewrite (bind_run _ k w xs _ E); clear E
  | |- context [bind (np_random_uniform np cp ?lo ?hi ?n) ?k ?w] =>
      let xs := fresh "xs" in let s := fresh "s" in let E := fresh "E" in
      destruct (np_random_uniform_run lo hi n w Hn) as (xs & s & E);
      rewrite (bind_run _ k w xs _ E); clear E
  | |- context [bind (cp_random_randint np cp ?lo ?hi ?n) ?k ?w] =>
      let xs := fresh "xs" in let s := fresh "s" in let E := fresh "E" in
      destruct (cp_random_randint_run lo hi n w Hn) as (xs & s & E);
      rewrite (bind_run _ k w xs _ E); clear E
  | |- context [bind (cp_random_uniform np cp ?lo ?hi ?n) ?k ?w] =>
      let xs := fresh "xs" in let s := fresh "s" in let E := fresh "E" in
      destruct (cp_random_uniform_run lo hi n w Hn) as (xs & s & E);
      rewrite (bind_run _ k w xs _ E); clear E
  end; cbv zeta.

(** For a non-negative row count the CPU-path generator returns a table
    and touches nothing but NumPy's generator state. *)
Lemma simulate_cpu_run n w :
  0 <= n ->
  exists df s,
    simulate_complex_payroll_data_cpu np cp n w
    = (Returned df,
       {| np_global := s; cp_global := cp_global np cp w;
          time_calls := time_calls np cp w; stdout := stdout np cp w |}).
Proof.
  intros Hn. unfold simulate_complex_payroll_data_cpu.
  rewrite (bind_run (np_random_seed np cp 42) _ w tt _ eq_refl).
  repeat step Hn.
  unfold ret. eexists _, _. reflexivity.
Qed.

(** With both packages installed, so does the accelerated-path generator,
    which moves both generator states. *)
Lemma simulate_gpu_run n w :
  installed host cudf = true -> installed host cupy = true -> 0 <= n ->
  exists df s s',
    simulate_complex_payroll_data_gpu np cp host n w
    = (Returned df,
       {| np_global := s; cp_global := s';
          time_calls := time_calls np cp w; stdout := stdout np cp w |}).
Proof.
  intros Hcudf Hcupy Hn. unfold simulate_complex_payroll_data_gpu.
  unfold import. rewrite Hcudf, Hcupy.
  rewrite (bind_run (ret tt) _ w tt w eq_refl).
  rewrite (bind_run (ret tt) _ w tt w eq_refl).
  rewrite (bind_run (cp_random_seed np cp 42) _ w tt _ eq_refl).
  repeat step Hn.
  unfold ret. eexists _, _, _. reflexivity.
Qed.
End Totality.

(** ** Runs of [compute_cpu], [compute_gpu] and [main] *)

Section MainRuns.
Context {F : Float64}.
Variables np cp : RandomState.
Variable host : Host.

(** The CPU measurement: banner, generation, two clock readings around
    the recomputation, the timing line and the five-row sample. *)
Lemma compute_cpu_run n w :
  0 <= n ->
  exists df s,
    fst (simulate_complex_payroll_data_cpu np cp n w) = Returned df /\
    compute_cpu np cp host n w
    = (Returned (PrimFloat.sub (wall_clock host (S (time_calls np cp w)))
                               (wall_clock host (time_calls np cp w))),
       {| np_global := s; cp_global := cp_global np cp w;
          time_calls := S (S (time_calls np cp w));
          stdout := stdout np cp w ++
            [PrintCpuBanner;
             PrintCpuTime n
               (PrimFloat.sub (wall_clock host (S (time_calls np cp w)))
                              (wall_clock host (time_calls np cp w)));
             PrintSample (head (compute_net_pay_cpu df))] |}).
Proof.
  intros Hn. unfold compute_cpu.
  rewrite (bind_run np cp (print PrintCpuBanner) _ w tt _ eq_refl).
  match goal with
  | |- context [bind (simulate_complex_payroll_data_cpu np cp n) ?k ?w0] =>
      destruct (simulate_cpu_run np cp n w0 Hn) as (df & s & E);
      rewrite (bind_run np cp _ k w0 df _ E);
      pose proof (simulate_cpu_result_independent np cp n w w0) as Hind;
      rewrite E in Hind
  end.
  exists df, s. split; [exact Hind|].
  unfold bind, time_time, print, ret. cbn [time_calls stdout np_global cp_global].
  rewrite <- !app_assoc. reflexivity.
Qed.

(** Without cuDF the accelerated measurement prints its message and
    returns [None]; nothing is raised. *)
Lemma compute_gpu_missing n w :
  installed host cudf = false ->
  compute_gpu np cp host n w
  = (Returned None,
     {| np_global := np_global np cp w; cp_global := cp_global np cp w;
        time_calls := time_calls np cp w;
        stdout := stdout np cp w ++ [PrintCudfMissing] |}).
Proof.
  intros Hmissing. unfold compute_gpu, try_except, import.
  rewrite Hmissing. reflexivity.
Qed.

(** With both packages installed it reads the clock around generation and
    recomputation. *)
Lemma compute_gpu_run n w :
  installed host cudf = true -> installed host cupy = true -> 0 <= n ->
  exists df s s',
    compute_gpu np cp host n w
    = (Returned (Some (PrimFloat.sub (wall_clock host (S (time_calls np cp w)))
                                     (wall_clock host (time_calls np cp w)))),
       {| np_global := s; cp_global := s';
          time_calls := S (S (time_calls np cp w));
          stdout := stdout np cp w ++
            [PrintGpuBanner;
             PrintGpuTime n
               (PrimFloat.sub (wall_clock host (S (time_calls np cp w)))
                              (wall_clock host (time_calls np cp w)));
             PrintSample (head (compute_net_pay_cpu df))] |}).
Proof.
  intros Hcudf Hcupy Hn. unfold compute_gpu, try_except.
  unfold import at 1. rewrite Hcudf. unfold ret at 1.
  rewrite (bind_run np cp (print PrintGpuBanner) _ w tt _ eq_refl).
  rewrite (bind_run np cp (time_time np cp host) _ _ _ _ eq_refl).
  match goal with
  | |- context [bind (simulate_complex_payroll_data_gpu np cp host n) ?k ?w0] =>
      destruct (simulate_gpu_run np cp host n w0 Hcudf Hcupy Hn)
        as (df & s & s' & E);
      rewrite (bind_run np cp _ k w0 df _ E)
  end.
  exists df, s, s'.
  unfold bind, time_time, print, ret. cbn [time_calls stdout np_global cp_global].
  rewrite <- !app_assoc. reflexivity.
Qed.
End MainRuns.

(** ** Exceptions *)

Section Exceptions.
Context {F : Float64}.
Variables np cp : RandomState.
Variable host : Host.

Lemma throws_ret {A : Type} (a : A) P : throws (@ret F np cp A a) P.
Proof. intros w e w' H. discriminate H. Qed.

Lemma throws_bind {A B : Type} (c : M np cp A) (k : A -> M np cp B) P :
  throws c P -> (forall a, throws (k a) P) -> throws (bind c k) P.
Proof.
  intros Hc Hk w e w' H. unfold bind in H.
  destruct (c w) as [[a | e0] w1] eqn:E.
  - eapply Hk. exact H.
  - injection H as -> _. eapply Hc. exact E.
Qed.

Lemma throws_print o P : throws (@print F np cp o) P.
Proof. intros w e w' H. discriminate H. Qed.

Lemma throws_time P : throws (time_time np cp host) P.
Proof. intros w e w' H. discriminate H. Qed.

Lemma throws_np_seed s P : throws (np_random_seed np cp s) P.
Proof. intros w e w' H. discriminate H. Qed.

Lemma throws_cp_seed s P : throws (cp_random_seed np cp s) P.
Proof. intros w e w' H. discriminate H. Qed.

Lemma throws_import p : throws (import np cp host p) from_library.
Proof.
  intros w e w' H. unfold import in H.
  destruct (installed host p); [discriminate H|].
  injection H as <- _. right. reflexivity.
Qed.

Lemma throws_np_choice a n : throws (np_random_choice np cp a n) from_library.
Proof.
  intros w e w' H. unfold np_random_choice in H. destruct (n <? 0).
  - injection H as <- _. left. reflexivity.
  - destruct (choice a (Z.to_nat n) (np_global np cp w)). discriminate H.
Qed.

Lemma throws_np_randint lo hi n :
  throws (np_random_randint np cp lo hi n) from_library.
Proof.
  intros w e w' H. unfold np_random_randint in H. destruct (n <? 0).
  - injection H as <- _. left. reflexivity.
  - destruct (randint lo hi (Z.to_nat n) (np_global np cp w)). discriminate H.
Qed.

Lemma throws_np_uniform lo hi n :
  throws (np_random_uniform np cp lo hi n) from_library.
Proof.
  intros w e w' H. unfold np_random_uniform in H. destruct (n <? 0).
  - injection H as <- _. left. reflexivity.
  - destruct (uniform lo hi (Z.to_nat n) (np_global np cp w)). discriminate H.
Qed.

Lemma throws_cp_randint lo hi n :
  throws (cp_random_randint np cp lo hi n) from_library.
Proof.
  intros w e w' H. unfold cp_random_randint in H. destruct (n <? 0).
  - injection H as <- _. left. reflexivity.
  - destruct (randint lo hi (Z.to_nat n) (cp_global np cp w)). discriminate H.
Qed.

Lemma throws_cp_uniform lo hi n :
  throws (cp_random_uniform np cp lo hi n) from_library.
Proof.
  intros w e w' H. unfold cp_random_uniform in H. destruct (n <? 0).
  - injection H as <- _. left. reflexivity.
  - destruct (uniform lo hi (Z.to_nat n) (cp_global np cp w)). discriminate H.
Qed.

Lemma throws_try_except {A B : Type} (body : M np cp A) e0 (handler : M np cp B)
    (k : A -> M np cp B) P :
  throws body P -> throws handler P -> (forall a, throws (k a) P) ->
  throws (try_except body e0 handler k) P.
Proof.
  intros Hb Hh Hk w e w' H. unfold try_except in H.
  destruct (body w) as [[a | e1] w1] eqn:E.
  - eapply Hk. exact H.
  - destruct (exn_eqb e1 e0).
    + eapply Hh. exact H.
    + injection H as <- _. eapply Hb. exact E.
Qed.

Ltac throws_steps :=
  repeat first
    [ apply throws_ret | apply throws_print | apply throws_time
    | apply throws_np_seed | apply throws_cp_seed | apply throws_import
    | apply throws_np_choice | apply throws_np_randint
    | apply throws_np_uniform | apply throws_cp_randint
    | apply throws_cp_uniform
    | apply throws_bind; [|intros ?]
    | progress cbv zeta ].

Lemma throws_simulate_cpu n :
  throws (simulate_complex_payroll_data_cpu np cp n) from_library.
Proof. unfold simulate_complex_payroll_data_cpu. throws_steps. Qed.

Lemma throws_simulate_gpu n :
  throws (simulate_complex_payroll_data_gpu np cp host n) from_library.
Proof. unfold simulate_complex_payroll_data_gpu. throws_steps. Qed.

Lemma throws_compute_cpu n : throws (compute_cpu np cp host n) from_library.
Proof.
  unfold compute_cpu.
  apply throws_bind; [apply throws_print | intros ?].
  apply throws_bind; [apply throws_simulate_cpu | intros ?].
  throws_steps.
Qed.

Lemma throws_compute_gpu n : throws (compute_gpu np cp host n) from_library.
Proof.
  unfold compute_gpu.
  apply throws_try_except; [apply throws_import | throws_steps | intros ?].
  apply throws_bind; [apply throws_print | intros ?].
  apply throws_bind; [apply throws_time | intros ?].
  apply throws_bind; [apply throws_simulate_gpu | intros ?].
  throws_steps.
Qed.

(** Whatever the device, [main] reads no local variable before its
    assignment: the only exceptions are those of the measurements. *)
Lemma throws_main_locals device n :
  throws (main_locals np cp host device n) from_library.
Proof.
  intros w e w' H. unfold main_locals in H.
  destruct device; cbn [device_in device_eqb existsb orb] in H; unfold bind in H.
  - (* cpu *)
    destruct (compute_cpu np cp host n w) as [[t | e1] w1] eqn:E1.
    + discriminate H.
    + injection H as <- _. eapply throws_compute_cpu. exact E1.
  - (* gpu *)
    unfold ret at 1 in H.
    destruct (compute_gpu np cp host n w) as [[g | e1] w1] eqn:E1.
    + discriminate H.
    + injection H as <- _. eapply throws_compute_gpu. exact E1.
  - (* both *)
    destruct (compute_cpu np cp host n w) as [[t | e1] w1] eqn:E1.
    + unfold ret at 1 in H.
      destruct (compute_gpu np cp host n w1) as [[[g|] | e2] w2] eqn:E2.
      * discriminate H.
      * discriminate H.
      * injection H as <- _. eapply throws_compute_gpu. exact E2.
    + injection H as <- _. eapply throws_compute_cpu. exact E1.
Qed.
End Exceptions.

(** ** The comparison in [main] *)

Lemma eqb_zero_not_positive (t : float) :
  PrimFloat.eqb t PrimFloat.zero = true ->
  PrimFloat.ltb PrimFloat.zero t = false.
Proof.
  rewrite eqb_spec, ltb_spec.
  replace (Prim2SF PrimFloat.zero) with (S754_zero false) by reflexivity.
  destruct (Prim2SF t) as [s | s | | s m e]; simpl;
    try reflexivity; try discriminate.
  all: destruct s; simpl; try discriminate; reflexivity.
Qed.

Lemma leb_zero_cases (t : float) :
  PrimFloat.leb PrimFloat.zero t = true ->
  PrimFloat.ltb PrimFloat.zero t = true \/
  PrimFloat.eqb t PrimFloat.zero = true.
Proof.
  rewrite eqb_spec, ltb_spec, leb_spec.
  replace (Prim2SF PrimFloat.zero) with (S754_zero false) by reflexivity.
  destruct (Prim2SF t) as [s | s | | s m e]; simpl; auto;
    destruct s; simpl; auto.
Qed.

(** For a non-negative accelerated time the speedup is the quotient of the
    two times, and infinity when the accelerated time is zero. *)
Lemma speedup_of_nonnegative (cpu_t gpu_t : float) :
  PrimFloat.leb PrimFloat.zero gpu_t = true ->
  speedup_of cpu_t gpu_t
  = if PrimFloat.eqb gpu_t PrimFloat.zero then PrimFloat.infinity
    else PrimFloat.div cpu_t gpu_t.
Proof.
  intros Hle. unfold speedup_of.
  destruct (PrimFloat.eqb gpu_t PrimFloat.zero) eqn:Ez.
  - now rewrite (eqb_zero_not_positive gpu_t Ez).
  - destruct (leb_zero_cases gpu_t Hle) as [Hlt | Heq].
    + now rewrite Hlt.
    + congruence.
Qed.

Section MainClaims.
Context {F : Float64}.
Variables np cp : RandomState.
Variable host : Host.

Lemma main_locals_gpu_missing n w :
  installed host cudf = false -> 0 <= n ->
  exists df s,
    fst (simulate_complex_payroll_data_cpu np cp n w) = Returned df /\
    main_locals np cp host both n w
    = (Returned {| cpu_time := Some (elapsed_from host (time_calls np cp w));
                   gpu_time := Some None |},
       {| np_global := s; cp_global := cp_global np cp w;
          time_calls := S (S (time_calls np cp w));
          stdout := stdout np cp w ++
            [PrintCpuBanner;
             PrintCpuTime n (elapsed_from host (time_calls np cp w));
             PrintSample (head (compute_net_pay_cpu df));
             PrintCudfMissing] |}).
Proof.
  intros Hmissing Hn. unfold elapsed_from.
  destruct (compute_cpu_run np cp host n w Hn) as (df & s & Hdf & E).
  exists df, s. split; [exact Hdf|].
  unfold main_locals. cbn [device_in device_eqb existsb orb].
  unfold bind. rewrite E. unfold ret at 1. cbv beta iota.
  rewrite compute_gpu_missing by exact Hmissing.
  unfold ret, load. cbn [gpu_time cpu_time stdout np_global cp_global time_calls].
  rewrite <- app_assoc. reflexivity.
Qed.

Lemma main_locals_both_ran n w :
  installed host cudf = true -> installed host cupy = true -> 0 <= n ->
  exists df df' s s',
    main_locals np cp host both n w
    = (Returned
         {| cpu_time := Some (elapsed_from host (time_calls np cp w));
            gpu_time :=
              Some (Some (elapsed_from host (S (S (time_calls np cp w))))) |},
       {| np_global := s; cp_global := s';
          time_calls := S (S (S (S (time_calls np cp w))));
          stdout := stdout np cp w ++
            [PrintCpuBanner;
             PrintCpuTime n (elapsed_from host (time_calls np cp w));
             PrintSample (head (compute_net_pay_cpu df));
             PrintGpuBanner;
             PrintGpuTime n (elapsed_from host (S (S (time_calls np cp w))));
             PrintSample (head (compute_net_pay_cpu df'))] ++
            [PrintSummary;
             PrintSummaryCpu (elapsed_from host (time_calls np cp w));
             PrintSummaryGpu (elapsed_from host (S (S (time_calls np cp w))));
             PrintSpeedup
               (speedup_of (elapsed_from host (time_calls np cp w))
                  (elapsed_from host (S (S (time_calls np cp w)))))] |}).
Proof.
  intros Hcudf Hcupy Hn. unfold elapsed_from.
  destruct (compute_cpu_run np cp host n w Hn) as (df & s0 & _ & E).
  unfold main_locals. cbn [device_in device_eqb existsb orb].
  unfold bind. rewrite E. unfold ret at 1. cbv beta iota.
  match goal with
  | |- context [compute_gpu np cp host n ?w1] =>
      destruct (compute_gpu_run np cp host n w1 Hcudf Hcupy Hn)
        as (df' & s & s' & E'); rewrite E'
  end.
  exists df, df', s, s'.
  unfold load, print, ret. cbv beta iota.
  cbn [gpu_time cpu_time stdout np_global cp_global time_calls].
  rewrite <- !app_assoc. reflexivity.
Qed.
End MainClaims.

Lemma main_of_locals {F : Float64} (np cp : RandomState) (host : Host)
    device n (w : World np cp) l w' :
  main_locals np cp host device n w = (Returned l, w') ->
  main np cp host device n w = (Returned tt, w').
Proof.
  intros H. unfold main, bind. rewrite H. reflexivity.
Qed.

Lemma main_raised {F : Float64} (np cp : RandomState) (host : Host)
    device n (w : World np cp) e w' :
  main np cp host device n w = (Raised e, w') ->
  main_locals np cp host device n w = (Raised e, w').
Proof.
  unfold main, bind.
  destruct (main_locals np cp host device n w) as [[l | e0] w1]; intros H.
  - discriminate H.
  - injection H as -> ->. reflexivity.
Qed.

(** ** The accelerated backend is unavailable *)

(** C3.  With device "both", cuDF not installed and a row count that is
    not negative: [main] ends normally; the CPU path has printed its
    banner, its timing and its sample; the accelerated path has printed
    its message, and [compute_gpu] returns [None] without raising; nothing
    else is printed, so no summary and no speedup. *)
Theorem gpu_unavailable_cpu_still_reports
    {F : Float64} (np cp : RandomState) (host : Host) (n : Z)
    (w : World np cp) :
  installed host cudf = false -> 0 <= n ->
  exists df w',
    fst (simulate_complex_payroll_data_cpu np cp n w) = Returned df /\
    main np cp host both n w = (Returned tt, w') /\
    stdout np cp w'
    = stdout np cp w ++
        [PrintCpuBanner;
         PrintCpuTime n (elapsed_from host (time_calls np cp w));
         PrintSample (head (compute_net_pay_cpu df));
         PrintCudfMissing] /\
    forall w0,
      fst (compute_gpu np cp host n w0) = Returned None /\
      stdout np cp (snd (compute_gpu np cp host n w0))
      = stdout np cp w0 ++ [PrintCudfMissing].
Proof.
  intros Hmissing Hn.
  destruct (main_locals_gpu_missing np cp host n w Hmissing Hn)
    as (df & s & Hdf & E).
  eexists df, _. split; [exact Hdf|]. split; [|split].
  - eapply main_of_locals. exact E.
  - reflexivity.
  - intros w0. rewrite (compute_gpu_missing np cp host n w0 Hmissing).
    split; reflexivity.
Qed.

Lemma gpu_unavailable_cpu_still_reports_witness :
  exists df w',
    fst (simulate_complex_payroll_data_cpu np64 np64 1
           world64) = Returned df /\
    main np64 np64 demo_host both 1 world64
    = (Returned tt, w') /\
    stdout np64 np64 w'
    = stdout np64 np64 world64 ++
        [PrintCpuBanner;
         PrintCpuTime 1
           (elapsed_from demo_host
              (time_calls np64 np64 world64));
         PrintSample (head (compute_net_pay_cpu df));
         PrintCudfMissing] /\
    forall w0,
      fst (compute_gpu np64 np64 demo_host 1 w0) = Returned None /\
      stdout np64 np64 (snd (compute_gpu np64 np64 demo_host 1 w0))
      = stdout np64 np64 w0 ++ [PrintCudfMissing].
Proof.
  apply (gpu_unavailable_cpu_still_reports (F := binary64)
           np64 np64 demo_host 1 world64).
  - reflexivity.
  - lia.
Defined.

(** C4, as the code has it.  With device "both", cuDF not installed and a
    row count that is not negative, [gpu_time] has been assigned [None]
    when the summary is reached; the summary is guarded by
    [gpu_time is not None], so it is skipped and [main] ends normally.
    Moreover no run of [main], on any device, ends in an unresolved
    reference: the only exceptions are a [ValueError] for a negative row
    count and an [ImportError] for a missing package. *)
Theorem summary_guarded_when_gpu_unavailable
    {F : Float64} (np cp : RandomState) (host : Host) (n : Z)
    (w : World np cp) :
  installed host cudf = false -> 0 <= n ->
  (exists t w',
     main_locals np cp host both n w
     = (Returned {| cpu_time := Some t; gpu_time := Some None |}, w') /\
     main np cp host both n w = (Returned tt, w') /\
     ~ In PrintSummary
         (skipn (List.length (stdout np cp w)) (stdout np cp w'))) /\
  (forall device n0 w0 e w1,
     main np cp host device n0 w0 = (Raised e, w1) ->
     e = ValueError \/ e = ImportError).
Proof.
  intros Hmissing Hn. split.
  - destruct (main_locals_gpu_missing np cp host n w Hmissing Hn)
      as (df & s & _ & E).
    eexists _, _. split; [exact E|]. split; [eapply main_of_locals; exact E|].
    cbn [stdout]. rewrite skipn_app, skipn_all, Nat.sub_diag.
    cbn [skipn app In]. intros [H | [H | [H | [H | []]]]]; discriminate H.
  - intros device n0 w0 e w1 H. apply main_raised in H.
    exact (throws_main_locals np cp host device n0 w0 e w1 H).
Qed.

Lemma summary_guarded_when_gpu_unavailable_witness :
  (exists t w',
     main_locals np64 np64 demo_host both 1
       world64
     = (Returned {| cpu_time := Some t; gpu_time := Some None |}, w') /\
     main np64 np64 demo_host both 1 world64
     = (Returned tt, w') /\
     ~ In PrintSummary
         (skipn (List.length (stdout np64 np64 world64))
            (stdout np64 np64 w'))) /\
  (forall device n0 w0 e w1,
     main np64 np64 demo_host device n0 w0
     = (Raised e, w1) ->
     e = ValueError \/ e = ImportError).
Proof.
  apply (summary_guarded_when_gpu_unavailable (F := binary64)
           np64 np64 demo_host 1 world64).
  - reflexivity.
  - lia.
Defined.

(** C4 as stated fails: on the demo host, where cuDF is missing, the run
    with device "both" ends normally and not in an unresolved reference. *)
Lemma summary_reference_is_resolved :
  installed demo_host cudf = false /\
  fst (main np64 np64 demo_host both 1
         world64) = Returned tt /\
  fst (main np64 np64 demo_host both 1
         world64) <> Raised UnboundLocalError.
Proof.
  assert (E : fst (main np64 np64 demo_host both 1
                     world64) = Returned tt)
    by (vm_compute; reflexivity).
  split; [reflexivity|]. split; [exact E|].
  rewrite E. discriminate.
Qed.

(** ** The speedup *)

(** A time below zero is not above zero. *)
Lemma negative_not_positive (t : float) :
  PrimFloat.ltb t PrimFloat.zero = true ->
  PrimFloat.ltb PrimFloat.zero t = false.
Proof.
  rewrite !ltb_spec.
  replace (Prim2SF PrimFloat.zero) with (S754_zero false) by reflexivity.
  destruct (Prim2SF t) as [s | s | | s m e]; simpl;
    try reflexivity; try discriminate.
  all: destruct s; simpl; try discriminate; reflexivity.
Qed.

(** C8, as the code has it.  When both backends ran (device "both", both
    packages installed, a row count that is not negative), the summary
    ends with the speedup line; the two elapsed times are the ones the
    measurements printed.  The value printed is the CPU elapsed time
    divided by the accelerated elapsed time when the accelerated elapsed
    time is above zero, and infinity in every other case: when it is zero,
    but also when it is below zero or not a number. *)
Theorem speedup_is_cpu_time_over_gpu_time
    {F : Float64} (np cp : RandomState) (host : Host) (n : Z)
    (w : World np cp) :
  installed host cudf = true -> installed host cupy = true -> 0 <= n ->
  exists df df' w' speedup,
    main np cp host both n w = (Returned tt, w') /\
    stdout np cp w'
    = stdout np cp w ++
        [PrintCpuBanner;
         PrintCpuTime n (elapsed_from host (time_calls np cp w));
         PrintSample (head (compute_net_pay_cpu df));
         PrintGpuBanner;
         PrintGpuTime n (elapsed_from host (S (S (time_calls np cp w))));
         PrintSample (head (compute_net_pay_cpu df'))] ++
        [PrintSummary;
         PrintSummaryCpu (elapsed_from host (time_calls np cp w));
         PrintSummaryGpu (elapsed_from host (S (S (time_calls np cp w))));
         PrintSpeedup speedup] /\
    (PrimFloat.ltb PrimFloat.zero
       (elapsed_from host (S (S (time_calls np cp w)))) = true ->
     speedup = PrimFloat.div
                 (elapsed_from host (time_calls np cp w))
                 (elapsed_from host (S (S (time_calls np cp w))))) /\
    (PrimFloat.ltb PrimFloat.zero
       (elapsed_from host (S (S (time_calls np cp w)))) = false ->
     speedup = PrimFloat.infinity) /\
    (PrimFloat.eqb (elapsed_from host (S (S (time_calls np cp w))))
       PrimFloat.zero = true ->
     speedup = PrimFloat.infinity) /\
    (PrimFloat.ltb (elapsed_from host (S (S (time_calls np cp w))))
       PrimFloat.zero = true ->
     speedup = PrimFloat.infinity).
Proof.
  intros Hcudf Hcupy Hn.
  destruct (main_locals_both_ran np cp host n w Hcudf Hcupy Hn)
    as (df & df' & s & s' & E).
  eexists df, df', _, _. split; [eapply main_of_locals; exact E|].
  cbn [stdout]. split; [reflexivity|]. unfold speedup_of.
  repeat split.
  - intros ->. reflexivity.
  - intros ->. reflexivity.
  - intros H. rewrite (eqb_zero_not_positive _ H). reflexivity.
  - intros H. rewrite (negative_not_positive _ H). reflexivity.
Qed.

Lemma speedup_is_cpu_time_over_gpu_time_witness :
  exists df df' w' speedup,
    main np64 np64 gpu_host both 1 world64 = (Returned tt, w') /\
    stdout np64 np64 w'
    = stdout np64 np64 world64 ++
        [PrintCpuBanner;
         PrintCpuTime 1 (elapsed_from gpu_host (time_calls np64 np64 world64));
         PrintSample (head (compute_net_pay_cpu df));
         PrintGpuBanner;
         PrintGpuTime 1
           (elapsed_from gpu_host (S (S (time_calls np64 np64 world64))));
         PrintSample (head (compute_net_pay_cpu df'))] ++
        [PrintSummary;
         PrintSummaryCpu
           (elapsed_from gpu_host (time_calls np64 np64 world64));
         PrintSummaryGpu
           (elapsed_from gpu_host (S (S (time_calls np64 np64 world64))));
         PrintSpeedup speedup] /\
    (PrimFloat.ltb PrimFloat.zero
       (elapsed_from gpu_host (S (S (time_calls np64 np64 world64)))) = true ->
     speedup = PrimFloat.div
                 (elapsed_from gpu_host (time_calls np64 np64 world64))
                 (elapsed_from gpu_host
                    (S (S (time_calls np64 np64 world64))))) /\
    (PrimFloat.ltb PrimFloat.zero
       (elapsed_from gpu_host (S (S (time_calls np64 np64 world64)))) = false ->
     speedup = PrimFloat.infinity) /\
    (PrimFloat.eqb
       (elapsed_from gpu_host (S (S (time_calls np64 np64 world64))))
       PrimFloat.zero = true ->
     speedup = PrimFloat.infinity) /\
    (PrimFloat.ltb
       (elapsed_from gpu_host (S (S (time_calls np64 np64 world64))))
       PrimFloat.zero = true ->
     speedup = PrimFloat.infinity).
Proof.
  apply (speedup_is_cpu_time_over_gpu_time (F := binary64)
           np64 np64 gpu_host 1 world64).
  - reflexivity.
  - reflexivity.
  - lia.
Defined.

(** C8 as stated fails when the wall clock is set back during the
    accelerated measurement.  On the host whose fourth reading is set
    back, both backends run and the accelerated elapsed time is -0.5
    seconds, which is not zero; the CPU elapsed time is 0.25 seconds, so
    the quotient is -0.5, but the speedup reported is infinity. *)
Lemma speedup_not_the_quotient_after_clock_set_back :
  fst (main np64 np64 set_back_host both 1 world64) = Returned tt /\
  elapsed_from set_back_host 0 = 0.25%float /\
  elapsed_from set_back_host 2 = (-0.5)%float /\
  PrimFloat.eqb (elapsed_from set_back_host 2) PrimFloat.zero = false /\
  PrimFloat.div (elapsed_from set_back_host 0) (elapsed_from set_back_host 2)
  = (-0.5)%float /\
  reported_speedup
    (stdout np64 np64 (snd (main np64 np64 set_back_host both 1 world64)))
  = Some PrimFloat.infinity /\
  PrimFloat.eqb PrimFloat.infinity (-0.5)%float = false.
Proof.
  repeat split; vm_compute; reflexivity.
Qed.

(** ** Taxes are taken from the unrounded gross wages *)

(** C2, as the code has it.  On either path, every row has a base rate from
    which its unrounded gross wages [g] are computed (regular hours times
    the rate plus overtime hours times 1.5 times the rate); the stored
    [Gross Wages] is [round(g, 2)], the stored [Social Security] is
    [round(g * 0.062, 2)] and the stored [Medicare] is
    [round(g * 0.0145, 2)]: both are derived from [g] itself, not from the
    stored, rounded [Gross Wages]. *)
Theorem taxes_from_unrounded_gross
    {F : Float64} (np cp : RandomState) (host : Host) (n : Z)
    (w : World np cp) (df : DataFrame) (w' : World np cp) :
  simulate_complex_payroll_data_cpu np cp n w = (Returned df, w') \/
  simulate_complex_payroll_data_gpu np cp host n w = (Returned df, w') ->
  forall i row,
    iloc df i = Some row ->
    exists rate,
      gross_wages row
      = np_round (gross_of (regular_hours row) (overtime_hours row) rate) 2 /\
      social_security row
      = np_round (f_mul (gross_of (regular_hours row) (overtime_hours row) rate)
                    (dec 62 3)) 2 /\
      medicare row
      = np_round (f_mul (gross_of (regular_hours row) (overtime_hours row) rate)
                    (dec 145 4)) 2.
Proof.
  intros Hrun i row Hrow.
  assert (Hd : exists names ids titles periods d,
             df = payroll_frame names ids titles periods d).
  { destruct Hrun as [Hrun | Hrun].
    - apply simulate_cpu_returned in Hrun.
      destruct Hrun as (_ & names & titles & periods & d & _ & ->). eauto 10.
    - apply simulate_gpu_returned in Hrun.
      destruct Hrun as (_ & names & titles & periods & d & _ & ->). eauto 10. }
  destruct Hd as (names & ids & titles & periods & d & ->).
  apply payroll_frame_row in Hrow.
  destruct Hrow as (r & fr & sr & hi & re & od & _ & _ & _ & _ & _ & _ & _ & _
                    & Hg & _ & _ & Hss & Hmed & _).
  exists r. auto.
Qed.

Lemma taxes_from_unrounded_gross_witness :
  exists rate,
    gross_wages (demo_row (F := binary64) 1)
    = np_round (gross_of (regular_hours (demo_row (F := binary64) 1))
                  (overtime_hours (demo_row (F := binary64) 1)) rate) 2 /\
    social_security (demo_row (F := binary64) 1)
    = np_round (f_mul (gross_of (regular_hours (demo_row (F := binary64) 1))
                         (overtime_hours (demo_row (F := binary64) 1)) rate)
                  (dec 62 3)) 2 /\
    medicare (demo_row (F := binary64) 1)
    = np_round (f_mul (gross_of (regular_hours (demo_row (F := binary64) 1))
                         (overtime_hours (demo_row (F := binary64) 1)) rate)
                  (dec 145 4)) 2.
Proof.
  apply (taxes_from_unrounded_gross (F := binary64)
           np64 np64 demo_host 1 world64 (demo_table 1)
           (snd (simulate_complex_payroll_data_cpu np64 np64 1 world64)))
    with (i := 0%nat).
  - left. apply run_returned_intro. vm_compute. reflexivity.
  - vm_compute. reflexivity.
Defined.

(** C2 as stated fails in double precision.  The one-row CPU-path table of
    the demo tape (75 regular hours, no overtime, a base rate near 20.05)
    stores gross wages 1503.79 and social security 93.24, while
    [round(1503.79 * 0.062, 2)] is 93.23; likewise it stores medicare 21.81,
    while [round(1503.79 * 0.0145, 2)] is 21.80. *)
Lemma taxes_not_from_stored_gross :
  fst (simulate_complex_payroll_data_cpu np64 np64 1 world64)
  = Returned (demo_table 1) /\
  iloc (demo_table (F := binary64) 1) 0 = Some (demo_row 1) /\
  gross_wages (demo_row (F := binary64) 1) = 1503.79%float /\
  social_security (demo_row (F := binary64) 1) = 93.24%float /\
  np_round (F := binary64)
    (PrimFloat.mul (gross_wages (demo_row (F := binary64) 1)) 0.062%float) 2
  = 93.23%float /\
  medicare (demo_row (F := binary64) 1) = 21.81%float /\
  np_round (F := binary64)
    (PrimFloat.mul (gross_wages (demo_row (F := binary64) 1)) 0.0145%float) 2
  = 21.80%float /\
  social_security (demo_row (F := binary64) 1)
  <> np_round (F := binary64)
       (f_mul (gross_wages (demo_row (F := binary64) 1)) (dec 62 3)) 2 /\
  medicare (demo_row (F := binary64) 1)
  <> np_round (F := binary64)
       (f_mul (gross_wages (demo_row (F := binary64) 1)) (dec 145 4)) 2.
Proof.
  repeat split; try (vm_compute; reflexivity).
  - intros H.
    apply (f_equal (fun x => PrimFloat.eqb x 93.24%float)) in H.
    vm_compute in H. discriminate H.
  - intros H.
    apply (f_equal (fun x => PrimFloat.eqb x 21.81%float)) in H.
    vm_compute in H. discriminate H.
Qed.

(** ** The number of rows *)

Lemma zip_with_length {A B C : Type} (f : A -> B -> C) (xs : list A) :
  forall ys m,
    List.length xs = m -> List.length ys = m ->
    List.length (zip_with f xs ys) = m.
Proof.
  induction xs as [|x xs IH]; intros [|y ys] m Hx Hy; simpl in *;
    try congruence.
  destruct m as [|m]; [discriminate|]. f_equal. apply IH; congruence.
Qed.

Ltac column_lengths :=
  repeat first
    [ assumption
    | rewrite length_map
    | apply zip_with_length
    | progress unfold arr_round, arr_add, arr_sub, arr_mul, int_arr_mul,
        scalar_mul, mul_scalar ].

Lemma payroll_frame_rows {F : Float64} names ids titles periods (d : Draws) m :
  List.length names = m -> List.length ids = m ->
  List.length titles = m -> List.length periods = m ->
  List.length (d_regular_hours d) = m ->
  List.length (d_overtime_hours d) = m ->
  List.length (d_base_rates d) = m ->
  List.length (d_federal_rates d) = m ->
  List.length (d_state_rates d) = m ->
  List.length (d_health_insurance d) = m ->
  List.length (d_retirement d) = m ->
  List.length (d_other_deductions d) = m ->
  has_rows (payroll_frame names ids titles periods d) m.
Proof.
  intros. unfold has_rows, payroll_frame.
  cbn [Employee_Name Employee_ID Job_Title Pay_Period Regular_Hours
       Overtime_Hours Gross_Wages Federal_Tax State_Tax Social_Security
       Medicare Health_Insurance Retirement Other_Deductions Net_Pay].
  repeat split; column_lengths.
Qed.

Lemma iloc_defined {F : Float64} (df : DataFrame) (m i : nat) :
  has_rows df m -> (i < m)%nat -> exists row, iloc df i = Some row.
Proof.
  intros (H1 & H2 & H3 & H4 & H5 & H6 & H7 & H8 & H9 & H10 & H11 & H12 & H13
          & H14 & H15) Hi.
  unfold iloc, opt_bind.
  repeat match goal with
         | |- context [nth_error ?l i] =>
             let E := fresh "E" in
             destruct (nth_error l i) eqn:E;
             [|apply nth_error_None in E; lia]
         end.
  eexists. reflexivity.
Qed.

Lemma iloc_in_range {F : Float64} (df : DataFrame) (m i : nat) row :
  has_rows df m -> iloc df i = Some row -> (i < m)%nat.
Proof.
  intros (H1 & _) Hrow. apply iloc_fields in Hrow. destruct Hrow as (Hname & _).
  rewrite <- H1. apply nth_error_Some. rewrite Hname. discriminate.
Qed.

Section RowCount.
Context {F : Float64}.
Variables np cp : RandomState.
Variable host : Host.

Ltac peel_sizes H :=
  repeat
    (let a := fresh "x" in
     let w := fresh "w" in
     let Hc := fresh "Hc" in
     apply bind_returned in H; destruct H as (a & w & Hc & H);
     first
       [ apply np_random_choice_returned in Hc
       | apply np_random_randint_returned in Hc
       | apply np_random_uniform_returned in Hc
       | apply cp_random_randint_returned in Hc
       | apply cp_random_uniform_returned in Hc
       | idtac ]);
  repeat match goal with
         | Hx : 0 <= _ /\ (exists s, _ = _) |- _ => destruct Hx as (? & ? & ->)
         end.

Lemma simulate_cpu_rows n w df w' :
  size_law np ->
  simulate_complex_payroll_data_cpu np cp n w = (Returned df, w') ->
  has_rows df (Z.to_nat n).
Proof.
  intros Hsize H. unfold simulate_complex_payroll_data_cpu in H.
  peel_sizes H. injection H as <- _.
  apply payroll_frame_rows with (names := zip_with full_name _ _)
    (d := {| d_regular_hours := _; d_overtime_hours := _; d_base_rates := _;
             d_federal_rates := _; d_state_rates := _;
             d_health_insurance := _; d_retirement := _;
             d_other_deductions := _ |});
    cbn [d_regular_hours d_overtime_hours d_base_rates d_federal_rates
         d_state_rates d_health_insurance d_retirement d_other_deductions];
    try apply zip_with_length; try apply Hsize.
  rewrite length_map, range_length. f_equal. lia.
Qed.

Lemma simulate_gpu_rows n w df w' :
  size_law np -> size_law cp ->
  simulate_complex_payroll_data_gpu np cp host n w = (Returned df, w') ->
  has_rows df (Z.to_nat n).
Proof.
  intros Hnp Hcp H. unfold simulate_complex_payroll_data_gpu in H.
  peel_sizes H. injection H as <- _.
  apply payroll_frame_rows with (names := zip_with full_name _ _)
    (d := {| d_regular_hours := _; d_overtime_hours := _; d_base_rates := _;
             d_federal_rates := _; d_state_rates := _;
             d_health_insurance := _; d_retirement := _;
             d_other_deductions := _ |});
    cbn [d_regular_hours d_overtime_hours d_base_rates d_federal_rates
         d_state_rates d_health_insurance d_retirement d_other_deductions];
    try apply zip_with_length; try apply Hnp; try apply Hcp.
  rewrite length_map, range_length. f_equal. lia.
Qed.
End RowCount.

(** X1.  When the generators return as many values as asked for, a
    generated table, on either path, has exactly [n] rows: every column has
    [n] entries, so there is a row at each position below [n] and at no
    other. *)
Theorem generated_table_has_n_rows
    {F : Float64} (np cp : RandomState) (host : Host) (n : Z)
    (w : World np cp) (df : DataFrame) (w' : World np cp) :
  size_law np -> size_law cp ->
  simulate_complex_payroll_data_cpu np cp n w = (Returned df, w') \/
  simulate_complex_payroll_data_gpu np cp host n w = (Returned df, w') ->
  has_rows df (Z.to_nat n) /\
  forall i, (i < Z.to_nat n)%nat <-> exists row, iloc df i = Some row.
Proof.
  intros Hnp Hcp Hrun.
  assert (Hrows : has_rows df (Z.to_nat n)).
  { destruct Hrun as [Hrun | Hrun].
    - exact (simulate_cpu_rows np cp n w df w' Hnp Hrun).
    - exact (simulate_gpu_rows np cp host n w df w' Hnp Hcp Hrun). }
  split; [exact Hrows|]. intros i. split.
  - apply iloc_defined. exact Hrows.
  - intros (row & Hrow). eapply iloc_in_range; eassumption.
Qed.

Lemma generated_table_has_n_rows_witness :
  has_rows (demo_table (F := binary64) 12) (Z.to_nat 12) /\
  forall i,
    (i < Z.to_nat 12)%nat
    <-> exists row, iloc (demo_table (F := binary64) 12) i = Some row.
Proof.
  apply (generated_table_has_n_rows (F := binary64)
           np64 np64 demo_host 12 world64 (demo_table 12)
           (snd (simulate_complex_payroll_data_cpu np64 np64 12 world64))
           (scripted_size_law demo_tape) (scripted_size_law demo_tape)).
  left. apply run_returned_intro. vm_compute. reflexivity.
Defined.

(** ** The recomputation, row by row *)

(** The recomputation works row by row: it keeps the row and replaces its
    net pay. *)
Lemma compute_net_pay_row {F : Float64} (df : DataFrame) i row :
  iloc df i = Some row ->
  iloc (compute_net_pay_cpu df) i = Some (recompute_row row).
Proof.
  intros H.
  destruct (iloc_fields df i row H)
    as (H1 & H2 & H3 & H4 & H5 & H6 & H7 & H8 & H9 & H10 & H11 & H12 & H13
        & H14 & _).
  unfold iloc, compute_net_pay_cpu, set_Net_Pay.
  cbn [Employee_Name Employee_ID Job_Title Pay_Period Regular_Hours
       Overtime_Hours Gross_Wages Federal_Tax State_Tax Social_Security
       Medicare Health_Insurance Retirement Other_Deductions Net_Pay].
  rewrite H1, H2, H3, H4, H5, H6, H7, H8, H9, H10, H11, H12, H13, H14.
  unfold arr_sub, arr_add.
  erewrite nth_error_zip_with;
    [reflexivity | exact H7
     | repeat first [eassumption | apply nth_error_zip_with]].
Qed.

(** The recomputation keeps the number of rows. *)
Lemma compute_net_pay_rows {F : Float64} (df : DataFrame) (m : nat) :
  has_rows df m -> has_rows (compute_net_pay_cpu df) m.
Proof.
  intros (H1 & H2 & H3 & H4 & H5 & H6 & H7 & H8 & H9 & H10 & H11 & H12 & H13
          & H14 & H15).
  unfold has_rows, compute_net_pay_cpu, set_Net_Pay.
  cbn [Employee_Name Employee_ID Job_Title Pay_Period Regular_Hours
       Overtime_Hours Gross_Wages Federal_Tax State_Tax Social_Security
       Medicare Health_Insurance Retirement Other_Deductions Net_Pay].
  repeat split; try assumption.
  unfold arr_sub, arr_add. repeat (apply zip_with_length; try assumption).
Qed.

(** C1.  The net-pay recomputation works row by row on a generated table,
    of either path: the table keeps exactly its [n] rows, and the row at
    each position keeps its fourteen other fields and gets as [Net Pay]
    its [Gross Wages] minus the sum of its seven deduction fields, added
    in the order of the source.  The equality is exact in the arithmetic
    of the element type, hence holds to two decimals. *)
Theorem net_pay_is_gross_minus_deductions
    {F : Float64} (np cp : RandomState) (host : Host) (n : Z)
    (w : World np cp) (df : DataFrame) (w' : World np cp) :
  size_law np -> size_law cp ->
  simulate_complex_payroll_data_cpu np cp n w = (Returned df, w') \/
  simulate_complex_payroll_data_gpu np cp host n w = (Returned df, w') ->
  has_rows (compute_net_pay_cpu df) (Z.to_nat n) /\
  (forall i,
     (i < Z.to_nat n)%nat
     <-> exists row', iloc (compute_net_pay_cpu df) i = Some row') /\
  forall i row,
    iloc df i = Some row ->
    iloc (compute_net_pay_cpu df) i
    = Some {| name := name row; id := id row; job_title := job_title row;
              pay_period := pay_period row;
              regular_hours := regular_hours row;
              overtime_hours := overtime_hours row;
              gross_wages := gross_wages row;
              federal_tax := federal_tax row;
              state_tax := state_tax row;
              social_security := social_security row;
              medicare := medicare row;
              health_insurance := health_insurance row;
              retirement := retirement row;
              other_deductions := other_deductions row;
              net_pay :=
                f_sub (gross_wages row)
                  (f_add (f_add (f_add (f_add (f_add (f_add
                     (federal_tax row) (state_tax row))
                     (social_security row)) (medicare row))
                     (health_insurance row)) (retirement row))
                     (other_deductions row)) |}.
Proof.
  intros Hnp Hcp Hrun.
  assert (Hrows : has_rows df (Z.to_nat n)).
  { destruct Hrun as [Hrun | Hrun].
    - exact (simulate_cpu_rows np cp n w df w' Hnp Hrun).
    - exact (simulate_gpu_rows np cp host n w df w' Hnp Hcp Hrun). }
  apply compute_net_pay_rows in Hrows.
  split; [exact Hrows|]. split.
  - intros i. split.
    + apply iloc_defined. exact Hrows.
    + intros (row' & Hrow'). eapply iloc_in_range; eassumption.
  - intros i row Hrow. exact (compute_net_pay_row df i row Hrow).
Qed.

Lemma net_pay_is_gross_minus_deductions_witness :
  has_rows (compute_net_pay_cpu (demo_table (F := binary64) 1)) (Z.to_nat 1) /\
  (forall i,
     (i < Z.to_nat 1)%nat
     <-> exists row',
           iloc (compute_net_pay_cpu (demo_table (F := binary64) 1)) i
           = Some row') /\
  forall i row,
    iloc (demo_table (F := binary64) 1) i = Some row ->
    iloc (compute_net_pay_cpu (demo_table (F := binary64) 1)) i
    = Some {| name := name row; id := id row; job_title := job_title row;
              pay_period := pay_period row;
              regular_hours := regular_hours row;
              overtime_hours := overtime_hours row;
              gross_wages := gross_wages row;
              federal_tax := federal_tax row;
              state_tax := state_tax row;
              social_security := social_security row;
              medicare := medicare row;
              health_insurance := health_insurance row;
              retirement := retirement row;
              other_deductions := other_deductions row;
              net_pay :=
                PrimFloat.sub (gross_wages row)
                  (PrimFloat.add (PrimFloat.add (PrimFloat.add (PrimFloat.add
                     (PrimFloat.add (PrimFloat.add
                     (federal_tax row) (state_tax row))
                     (social_security row)) (medicare row))
                     (health_insurance row)) (retirement row))
                     (other_deductions row)) |}.
Proof.
  apply (net_pay_is_gross_minus_deductions (F := binary64)
           np64 np64 demo_host 1 world64 (demo_table 1)
           (snd (simulate_complex_payroll_data_cpu np64 np64 1 world64))
           (scripted_size_law demo_tape) (scripted_size_law demo_tape)).
  left. apply run_returned_intro. vm_compute. reflexivity.
Defined.

(** * Further properties *)

(** ** The generators as functions *)

Section Functional.
Context {F : Float64}.
Variables np cp : RandomState.
Variable host : Host.

Lemma np_random_choice_eq a n w xs w1 :
  np_random_choice np cp a n w = (Returned xs, w1) ->
  0 <= n /\
  xs = fst (choice a (Z.to_nat n) (np_global np cp w)) /\
  w1 = set_np np cp (snd (choice a (Z.to_nat n) (np_global np cp w))) w.
Proof.
  unfold np_random_choice. destruct (n <? 0) eqn:E; [discriminate|].
  apply Z.ltb_ge in E.
  destruct (choice a (Z.to_nat n) (np_global np cp w)) as [ys s].
  intros H. injection H as <- <-. auto.
Qed.

Lemma np_random_randint_eq lo hi n w xs w1 :
  np_random_randint np cp lo hi n w = (Returned xs, w1) ->
  0 <= n /\
  xs = fst (randint lo hi (Z.to_nat n) (np_global np cp w)) /\
  w1 = set_np np cp (snd (randint lo hi (Z.to_nat n) (np_global np cp w))) w.
Proof.
  unfold np_random_randint. destruct (n <? 0) eqn:E; [discriminate|].
  apply Z.ltb_ge in E.
  destruct (randint lo hi (Z.to_nat n) (np_global np cp w)) as [ys s].
  intros H. injection H as <- <-. auto.
Qed.

Lemma np_random_uniform_eq lo hi n w xs w1 :
  np_random_uniform np cp lo hi n w = (Returned xs, w1) ->
  0 <= n /\
  xs = fst (uniform lo hi (Z.to_nat n) (np_global np cp w)) /\
  w1 = set_np np cp (snd (uniform lo hi (Z.to_nat n) (np_global np cp w))) w.
Proof.
  unfold np_random_uniform. destruct (n <? 0) eqn:E; [discriminate|].
  apply Z.ltb_ge in E.
  destruct (uniform lo hi (Z.to_nat n) (np_global np cp w)) as [ys s].
  intros H. injection H as <- <-. auto.
Qed.

Lemma cp_random_randint_eq lo hi n w xs w1 :
  cp_random_randint np cp lo hi n w = (Returned xs, w1) ->
  0 <= n /\
  xs = fst (randint lo hi (Z.to_nat n) (cp_global np cp w)) /\
  w1 = set_cp np cp (snd (randint lo hi (Z.to_nat n) (cp_global np cp w))) w.
Proof.
  unfold cp_random_randint. destruct (n <? 0) eqn:E; [discriminate|].
  apply Z.ltb_ge in E.
  destruct (randint lo hi (Z.to_nat n) (cp_global np cp w)) as [ys s].
  intros H. injection H as <- <-. auto.
Qed.

Lemma cp_random_uniform_eq lo hi n w xs w1 :
  cp_random_uniform np cp lo hi n w = (Returned xs, w1) ->
  0 <= n /\
  xs = fst (uniform lo hi (Z.to_nat n) (cp_global np cp w)) /\
  w1 = set_cp np cp (snd (uniform lo hi (Z.to_nat n) (cp_global np cp w))) w.
Proof.
  unfold cp_random_uniform. destruct (n <? 0) eqn:E; [discriminate|].
  apply Z.ltb_ge in E.
  destruct (uniform lo hi (Z.to_nat n) (cp_global np cp w)) as [ys s].
  intros H. injection H as <- <-. auto.
Qed.

Lemma import_returned p w u w1 :
  import np cp host p w = (Returned u, w1) ->
  installed host p = true /\ w1 = w.
Proof.
  unfold import. destruct (installed host p); [|discriminate].
  intros H. injection H as _ <-. auto.
Qed.

Lemma np_random_seed_eq s w u w1 :
  np_random_seed np cp s w = (Returned u, w1) -> w1 = set_np np cp (seed s) w.
Proof. intros H. injection H as _ <-. reflexivity. Qed.

Lemma cp_random_seed_eq s w u w1 :
  cp_random_seed np cp s w = (Returned u, w1) -> w1 = set_cp np cp (seed s) w.
Proof. intros H. injection H as _ <-. reflexivity. Qed.

(** Peel the binds of a run that returned, keeping each call's result and
    the world it leaves as equations. *)
Ltac peel_eq H :=
  repeat
    (let a := fresh "x" in
     let w := fresh "w" in
     let Hc := fresh "Hc" in
     apply bind_returned in H; destruct H as (a & w & Hc & H);
     first
       [ apply np_random_choice_eq in Hc; destruct Hc as (? & ? & ?)
       | apply np_random_randint_eq in Hc; destruct Hc as (? & ? & ?)
       | apply np_random_uniform_eq in Hc; destruct Hc as (? & ? & ?)
       | apply cp_random_randint_eq in Hc; destruct Hc as (? & ? & ?)
       | apply cp_random_uniform_eq in Hc; destruct Hc as (? & ? & ?)
       | apply import_returned in Hc; destruct Hc as (? & ?)
       | apply np_random_seed_eq in Hc
       | apply cp_random_seed_eq in Hc ];
     subst).

Ltac expose_draws :=
  cbn [np_global cp_global set_np set_cp];
  repeat
    (match goal with
     | |- context [@choice ?F ?R ?a ?n ?s] =>
         destruct (@choice F R a n s)
     | |- context [@randint ?F ?R ?lo ?hi ?n ?s] =>
         destruct (@randint F R lo hi n s)
     | |- context [@uniform ?F ?R ?lo ?hi ?n ?s] =>
         destruct (@uniform F R lo hi n s)
     end; cbn [fst snd]).

Lemma simulate_cpu_is_cpu_table n w df w' :
  simulate_complex_payroll_data_cpu np cp n w = (Returned df, w') ->
  0 <= n /\ df = cpu_table np n.
Proof.
  unfold simulate_complex_payroll_data_cpu. intros H. peel_eq H.
  injection H as <- _. split; [assumption|].
  unfold cpu_table, draw_labels, draw_numeric, payroll_frame. expose_draws.
  reflexivity.
Qed.

Lemma simulate_gpu_is_gpu_table n w df w' :
  simulate_complex_payroll_data_gpu np cp host n w = (Returned df, w') ->
  installed host cudf = true /\ installed host cupy = true /\ 0 <= n /\
  df = gpu_table np cp (np_global np cp w) n.
Proof.
  unfold simulate_complex_payroll_data_gpu. intros H. peel_eq H.
  injection H as <- _. repeat split; try assumption.
  unfold gpu_table, draw_labels, draw_numeric, payroll_frame. expose_draws.
  reflexivity.
Qed.
End Functional.

(** ** What a run prints *)

Section Outputs.
Context {F : Float64}.
Variables np cp : RandomState.
Variable host : Host.

Lemma emits_silent {A : Type} (c : M np cp A) P :
  (forall w, stdout np cp (snd (c w)) = stdout np cp w) -> emits c P.
Proof.
  intros H w. exists []. rewrite H, app_nil_r. auto.
Qed.

Lemma emits_ret {A : Type} (a : A) P : emits (@ret F np cp A a) P.
Proof. apply emits_silent. reflexivity. Qed.

Lemma emits_print o (P : Output -> Prop) : P o -> emits (@print F np cp o) P.
Proof. intros Ho w. exists [o]. split; [reflexivity | auto]. Qed.

Lemma emits_bind {A B : Type} (c : M np cp A) (k : A -> M np cp B) P :
  emits c P -> (forall a, emits (k a) P) -> emits (bind c k) P.
Proof.
  intros Hc Hk w. unfold bind.
  destruct (Hc w) as (l1 & E1 & F1).
  destruct (c w) as [[a | e] w1]; simpl in E1.
  - destruct (Hk a w1) as (l2 & E2 & F2).
    exists (l1 ++ l2). rewrite E2, E1, app_assoc. split; [reflexivity|].
    apply Forall_app. auto.
  - exists l1. auto.
Qed.

Lemma emits_try_except {A B : Type} (body : M np cp A) e0
    (handler : M np cp B) (k : A -> M np cp B) P :
  emits body P -> emits handler P -> (forall a, emits (k a) P) ->
  emits (try_except body e0 handler k) P.
Proof.
  intros Hb Hh Hk w. unfold try_except.
  destruct (Hb w) as (l1 & E1 & F1).
  destruct (body w) as [[a | e] w1]; simpl in E1.
  - destruct (Hk a w1) as (l2 & E2 & F2).
    exists (l1 ++ l2). rewrite E2, E1, app_assoc. split; [reflexivity|].
    apply Forall_app. auto.
  - destruct (exn_eqb e e0).
    + destruct (Hh w1) as (l2 & E2 & F2).
      exists (l1 ++ l2). rewrite E2, E1, app_assoc. split; [reflexivity|].
      apply Forall_app. auto.
    + exists l1. auto.
Qed.

Lemma emits_time P : emits (time_time np cp host) P.
Proof. apply emits_silent. reflexivity. Qed.

Lemma emits_import p P : emits (import np cp host p) P.
Proof.
  apply emits_silent. intros w. unfold import.
  destruct (installed host p); reflexivity.
Qed.

Lemma emits_np_seed s P : emits (np_random_seed np cp s) P.
Proof. apply emits_silent. reflexivity. Qed.

Lemma emits_cp_seed s P : emits (cp_random_seed np cp s) P.
Proof. apply emits_silent. reflexivity. Qed.

Lemma emits_np_choice a n P : emits (np_random_choice np cp a n) P.
Proof.
  apply emits_silent. intros w. unfold np_random_choice.
  destruct (n <? 0); [reflexivity|].
  destruct (choice a (Z.to_nat n) (np_global np cp w)). reflexivity.
Qed.

Lemma emits_np_randint lo hi n P : emits (np_random_randint np cp lo hi n) P.
Proof.
  apply emits_silent. intros w. unfold np_random_randint.
  destruct (n <? 0); [reflexivity|].
  destruct (randint lo hi (Z.to_nat n) (np_global np cp w)). reflexivity.
Qed.

Lemma emits_np_uniform lo hi n P : emits (np_random_uniform np cp lo hi n) P.
Proof.
  apply emits_silent. intros w. unfold np_random_uniform.
  destruct (n <? 0); [reflexivity|].
  destruct (uniform lo hi (Z.to_nat n) (np_global np cp w)). reflexivity.
Qed.

Lemma emits_cp_randint lo hi n P : emits (cp_random_randint np cp lo hi n) P.
Proof.
  apply emits_silent. intros w. unfold cp_random_randint.
  destruct (n <? 0); [reflexivity|].
  destruct (randint lo hi (Z.to_nat n) (cp_global np cp w)). reflexivity.
Qed.

Lemma emits_cp_uniform lo hi n P : emits (cp_random_uniform np cp lo hi n) P.
Proof.
  apply emits_silent. intros w. unfold cp_random_uniform.
  destruct (n <? 0); [reflexivity|].
  destruct (uniform lo hi (Z.to_nat n) (cp_global np cp w)). reflexivity.
Qed.

Ltac emits_steps :=
  repeat first
    [ apply emits_ret | apply emits_time | apply emits_import
    | apply emits_np_seed | apply emits_cp_seed
    | apply emits_np_choice | apply emits_np_randint
    | apply emits_np_uniform | apply emits_cp_randint
    | apply emits_cp_uniform
    | apply emits_print; reflexivity
    | apply emits_bind; [|intros ?]
    | progress cbv zeta ].

(** The generators print nothing. *)
Lemma emits_simulate_cpu n P :
  emits (simulate_complex_payroll_data_cpu np cp n) P.
Proof. unfold simulate_complex_payroll_data_cpu. emits_steps. Qed.

Lemma emits_simulate_gpu n P :
  emits (simulate_complex_payroll_data_gpu np cp host n) P.
Proof. unfold simulate_complex_payroll_data_gpu. emits_steps. Qed.

(** The measurements print no line of the summary. *)
Lemma emits_compute_cpu n :
  emits (compute_cpu np cp host n) (fun o => is_summary_line o = false).
Proof.
  unfold compute_cpu.
  apply emits_bind; [apply emits_print; reflexivity | intros ?].
  apply emits_bind; [apply emits_simulate_cpu | intros ?].
  emits_steps.
Qed.

Lemma emits_compute_gpu n :
  emits (compute_gpu np cp host n) (fun o => is_summary_line o = false).
Proof.
  unfold compute_gpu.
  apply emits_try_except; [apply emits_import | emits_steps | intros ?].
  apply emits_bind; [apply emits_print; reflexivity | intros ?].
  apply emits_bind; [apply emits_time | intros ?].
  apply emits_bind; [apply emits_simulate_gpu | intros ?].
  emits_steps.
Qed.

(** A time comes back from the accelerated measurement only when both
    packages are installed and the row count is not negative. *)
Lemma compute_gpu_some n w g w' :
  compute_gpu np cp host n w = (Returned (Some g), w') ->
  installed host cudf = true /\ installed host cupy = true /\ 0 <= n.
Proof.
  unfold compute_gpu, try_except, import.
  destruct (installed host cudf) eqn:Hcudf.
  - unfold ret at 1. intros H.
    apply bind_returned in H. destruct H as (u & w1 & _ & H).
    apply bind_returned in H. destruct H as (t0 & w2 & _ & H).
    apply bind_returned in H. destruct H as (df & w3 & Hsim & _).
    apply (simulate_gpu_is_gpu_table np cp host) in Hsim.
    destruct Hsim as (_ & Hcupy & Hn & _). auto.
  - unfold raise. cbn [exn_eqb]. intros H. discriminate H.
Qed.
End Outputs.

(** ** The summary needs both measurements *)

Lemma main_world {F : Float64} (np cp : RandomState) (host : Host)
    device n (w : World np cp) :
  snd (main np cp host device n w) = snd (main_locals np cp host device n w).
Proof.
  unfold main, bind.
  destruct (main_locals np cp host device n w) as [[l | e] w1]; reflexivity.
Qed.

Lemma no_summary_line {F : Float64} (l : list Output) o :
  Forall (fun o => is_summary_line o = false) l ->
  In o l -> is_summary_line o = true -> False.
Proof.
  intros Hall Hin Hs. rewrite Forall_forall in Hall.
  specialize (Hall o Hin). congruence.
Qed.

(** X2.  Whatever the device, the host and the row count, [main] only
    appends to standard output, and a line of the summary is among what it
    appends only if the device is "both", both accelerated packages are
    installed and the row count is not negative. *)
Theorem summary_only_after_both_measurements
    {F : Float64} (np cp : RandomState) (host : Host) (device : Device)
    (n : Z) (w : World np cp) :
  exists l,
    stdout np cp (snd (main np cp host device n w)) = stdout np cp w ++ l /\
    forall o,
      In o l -> is_summary_line o = true ->
      device = both /\ installed host cudf = true /\
      installed host cupy = true /\ 0 <= n.
Proof.
  rewrite main_world. unfold main_locals.
  destruct device; cbn [device_in device_eqb existsb orb]; unfold bind.
  - (* cpu *)
    destruct (emits_compute_cpu np cp host n w) as (l1 & E1 & F1).
    destruct (compute_cpu np cp host n w) as [[t | e] w1]; simpl in E1;
      exists l1; (split; [exact E1|]);
      intros o Hin Hs; destruct (no_summary_line l1 o F1 Hin Hs).
  - (* gpu *)
    unfold ret at 1.
    destruct (emits_compute_gpu np cp host n w) as (l1 & E1 & F1).
    destruct (compute_gpu np cp host n w) as [[g | e] w1]; simpl in E1;
      exists l1; (split; [exact E1|]);
      intros o Hin Hs; destruct (no_summary_line l1 o F1 Hin Hs).
  - (* both *)
    destruct (emits_compute_cpu np cp host n w) as (l1 & E1 & F1).
    destruct (compute_cpu np cp host n w) as [[t | e] w1]; simpl in E1.
    + unfold ret at 1.
      destruct (emits_compute_gpu np cp host n w1) as (l2 & E2 & F2).
      destruct (compute_gpu np cp host n w1) as [[[g |] | e] w2] eqn:Eg;
        simpl in E2.
      * exists (l1 ++ l2 ++
                [PrintSummary; PrintSummaryCpu t; PrintSummaryGpu g;
                 PrintSpeedup (speedup_of t g)]).
        split.
        -- unfold load, print, ret. cbv beta iota.
           cbn [gpu_time cpu_time snd stdout np_global cp_global time_calls].
           rewrite E2, E1, <- !app_assoc. reflexivity.
        -- intros o _ _.
           destruct (compute_gpu_some np cp host n w1 g w2 Eg) as (? & ? & ?).
           auto.
      * exists (l1 ++ l2). split.
        -- unfold load, print, ret. cbv beta iota.
           cbn [gpu_time cpu_time snd stdout np_global cp_global time_calls].
           rewrite E2, E1, app_assoc. reflexivity.
        -- intros o Hin Hs. apply in_app_or in Hin. destruct Hin as [Hin | Hin].
           ++ destruct (no_summary_line l1 o F1 Hin Hs).
           ++ destruct (no_summary_line l2 o F2 Hin Hs).
      * exists (l1 ++ l2). split.
        -- unfold load, print, ret. cbv beta iota.
           cbn [gpu_time cpu_time snd stdout np_global cp_global time_calls].
           rewrite E2, E1, app_assoc. reflexivity.
        -- intros o Hin Hs. apply in_app_or in Hin. destruct Hin as [Hin | Hin].
           ++ destruct (no_summary_line l1 o F1 Hin Hs).
           ++ destruct (no_summary_line l2 o F2 Hin Hs).
    + exists l1. split; [exact E1|].
      intros o Hin Hs. destruct (no_summary_line l1 o F1 Hin Hs).
Qed.

(** ** Missing packages and negative row counts *)

Section EdgeRuns.
Context {F : Float64}.
Variables np cp : RandomState.
Variable host : Host.

Lemma simulate_gpu_without_cupy n w :
  installed host cudf = true -> installed host cupy = false ->
  simulate_complex_payroll_data_gpu np cp host n w = (Raised ImportError, w).
Proof.
  intros Hcudf Hcupy. unfold simulate_complex_payroll_data_gpu, import.
  rewrite Hcudf, Hcupy.
  rewrite (bind_run np cp (ret tt) _ w tt w eq_refl).
  apply bind_raised. reflexivity.
Qed.

Lemma compute_gpu_without_cupy n w :
  installed host cudf = true -> installed host cupy = false ->
  compute_gpu np cp host n w
  = (Raised ImportError,
     {| np_global := np_global np cp w; cp_global := cp_global np cp w;
        time_calls := S (time_calls np cp w);
        stdout := stdout np cp w ++ [PrintGpuBanner] |}).
Proof.
  intros Hcudf Hcupy. unfold compute_gpu, try_except.
  unfold import at 1. rewrite Hcudf. unfold ret at 1.
  rewrite (bind_run np cp (print PrintGpuBanner) _ w tt _ eq_refl).
  rewrite (bind_run np cp (time_time np cp host) _ _ _ _ eq_refl).
  apply bind_raised.
  rewrite (simulate_gpu_without_cupy _ _ Hcudf Hcupy). reflexivity.
Qed.

Lemma simulate_cpu_negative n w :
  n < 0 ->
  simulate_complex_payroll_data_cpu np cp n w
  = (Raised ValueError, set_np np cp (seed 42) w).
Proof.
  intros Hn. unfold simulate_complex_payroll_data_cpu.
  rewrite (bind_run np cp (np_random_seed np cp 42) _ w tt _ eq_refl).
  apply bind_raised. unfold np_random_choice.
  replace (n <? 0) with true by (symmetry; apply Z.ltb_lt; exact Hn).
  reflexivity.
Qed.

Lemma compute_cpu_negative n w :
  n < 0 ->
  compute_cpu np cp host n w
  = (Raised ValueError,
     {| np_global := seed 42; cp_global := cp_global np cp w;
        time_calls := time_calls np cp w;
        stdout := stdout np cp w ++ [PrintCpuBanner] |}).
Proof.
  intros Hn. unfold compute_cpu.
  rewrite (bind_run np cp (print PrintCpuBanner) _ w tt _ eq_refl).
  apply bind_raised. rewrite (simulate_cpu_negative _ _ Hn). reflexivity.
Qed.

Lemma simulate_gpu_negative n w :
  installed host cudf = true -> installed host cupy = true -> n < 0 ->
  simulate_complex_payroll_data_gpu np cp host n w
  = (Raised ValueError, set_cp np cp (seed 42) w).
Proof.
  intros Hcudf Hcupy Hn. unfold simulate_complex_payroll_data_gpu, import.
  rewrite Hcudf, Hcupy.
  rewrite (bind_run np cp (ret tt) _ w tt w eq_refl).
  rewrite (bind_run np cp (ret tt) _ w tt w eq_refl).
  rewrite (bind_run np cp (cp_random_seed np cp 42) _ w tt _ eq_refl).
  apply bind_raised. unfold np_random_choice.
  replace (n <? 0) with true by (symmetry; apply Z.ltb_lt; exact Hn).
  reflexivity.
Qed.

Lemma compute_gpu_negative n w :
  installed host cudf = true -> installed host cupy = true -> n < 0 ->
  compute_gpu np cp host n w
  = (Raised ValueError,
     {| np_global := np_global np cp w; cp_global := seed 42;
        time_calls := S (time_calls np cp w);
        stdout := stdout np cp w ++ [PrintGpuBanner] |}).
Proof.
  intros Hcudf Hcupy Hn. unfold compute_gpu, try_except.
  unfold import at 1. rewrite Hcudf. unfold ret at 1.
  rewrite (bind_run np cp (print PrintGpuBanner) _ w tt _ eq_refl).
  rewrite (bind_run np cp (time_time np cp host) _ _ _ _ eq_refl).
  apply bind_raised.
  rewrite (simulate_gpu_negative _ _ Hcudf Hcupy Hn). reflexivity.
Qed.
End EdgeRuns.

(** X3.  The [ImportError] guard of [compute_gpu] covers cuDF only.  On a
    host with cuDF but without CuPy the accelerated measurement prints its
    banner, reads the clock once and then lets the [ImportError] of
    [import cupy] escape; with device "both" and a row count that is not
    negative, [main] ends in that [ImportError] after the three lines of
    the CPU measurement and the accelerated banner, without a summary. *)
Theorem missing_cupy_escapes_the_guard
    {F : Float64} (np cp : RandomState) (host : Host) (n : Z)
    (w : World np cp) :
  installed host cudf = true -> installed host cupy = false -> 0 <= n ->
  fst (compute_gpu np cp host n w) = Raised ImportError /\
  stdout np cp (snd (compute_gpu np cp host n w))
  = stdout np cp w ++ [PrintGpuBanner] /\
  exists df,
    fst (simulate_complex_payroll_data_cpu np cp n w) = Returned df /\
    fst (main np cp host both n w) = Raised ImportError /\
    stdout np cp (snd (main np cp host both n w))
    = stdout np cp w ++
        [PrintCpuBanner;
         PrintCpuTime n (elapsed_from host (time_calls np cp w));
         PrintSample (head (compute_net_pay_cpu df));
         PrintGpuBanner].
Proof.
  intros Hcudf Hcupy Hn.
  rewrite (compute_gpu_without_cupy np cp host n w Hcudf Hcupy).
  split; [reflexivity|]. split; [reflexivity|].
  destruct (compute_cpu_run np cp host n w Hn) as (df & s & Hdf & E).
  exists df. split; [exact Hdf|].
  assert (Hmain : main np cp host both n w
          = (Raised ImportError,
             {| np_global := s; cp_global := cp_global np cp w;
                time_calls := S (S (S (time_calls np cp w)));
                stdout := (stdout np cp w ++
                  [PrintCpuBanner;
                   PrintCpuTime n (elapsed_from host (time_calls np cp w));
                   PrintSample (head (compute_net_pay_cpu df))]) ++
                  [PrintGpuBanner] |})).
  { unfold main, main_locals. cbn [device_in device_eqb existsb orb].
    unfold bind. rewrite E. unfold ret at 1. cbv beta iota.
    rewrite (compute_gpu_without_cupy np cp host n _ Hcudf Hcupy).
    reflexivity. }
  rewrite Hmain. split; [reflexivity|].
  cbn [snd stdout]. rewrite <- app_assoc. reflexivity.
Qed.

Lemma missing_cupy_escapes_the_guard_witness :
  fst (compute_gpu np64 np64 cudf_only_host 1 world64) = Raised ImportError /\
  stdout np64 np64 (snd (compute_gpu np64 np64 cudf_only_host 1 world64))
  = stdout np64 np64 world64 ++ [PrintGpuBanner] /\
  exists df,
    fst (simulate_complex_payroll_data_cpu np64 np64 1 world64) = Returned df /\
    fst (main np64 np64 cudf_only_host both 1 world64) = Raised ImportError /\
    stdout np64 np64 (snd (main np64 np64 cudf_only_host both 1 world64))
    = stdout np64 np64 world64 ++
        [PrintCpuBanner;
         PrintCpuTime 1
           (elapsed_from cudf_only_host (time_calls np64 np64 world64));
         PrintSample (head (compute_net_pay_cpu df));
         PrintGpuBanner].
Proof.
  apply (missing_cupy_escapes_the_guard (F := binary64)
           np64 np64 cudf_only_host 1 world64).
  - reflexivity.
  - reflexivity.
  - lia.
Defined.

(** X4.  A negative row count is rejected by the first random draw, not
    before.  The CPU generator seeds NumPy's generator and then raises
    [ValueError]; [compute_cpu] has printed its banner by then, prints
    nothing more and reads no clock; [main] with device "cpu" or "both"
    ends in that [ValueError].  With device "gpu" on a host that has both
    packages, [main] ends in the same [ValueError] after the accelerated
    banner and one clock reading, with CuPy's generator seeded.  With
    device "gpu" on a host without cuDF the row count is never looked at:
    [main] prints the cuDF message and ends normally. *)
Theorem negative_row_count_raises_at_first_draw
    {F : Float64} (np cp : RandomState) (host : Host) (n : Z)
    (w : World np cp) :
  n < 0 ->
  simulate_complex_payroll_data_cpu np cp n w
  = (Raised ValueError, set_np np cp (seed 42) w) /\
  (forall device,
     device <> gpu ->
     fst (main np cp host device n w) = Raised ValueError /\
     stdout np cp (snd (main np cp host device n w))
     = stdout np cp w ++ [PrintCpuBanner] /\
     time_calls np cp (snd (main np cp host device n w))
     = time_calls np cp w) /\
  (installed host cudf = true -> installed host cupy = true ->
   fst (main np cp host gpu n w) = Raised ValueError /\
   stdout np cp (snd (main np cp host gpu n w))
   = stdout np cp w ++ [PrintGpuBanner] /\
   time_calls np cp (snd (main np cp host gpu n w))
   = S (time_calls np cp w) /\
   cp_global np cp (snd (main np cp host gpu n w)) = seed 42) /\
  (installed host cudf = false ->
   fst (main np cp host gpu n w) = Returned tt /\
   stdout np cp (snd (main np cp host gpu n w))
   = stdout np cp w ++ [PrintCudfMissing]).
Proof.
  intros Hn. split; [apply simulate_cpu_negative; exact Hn|]. split; [|split].
  - intros device Hdev.
    assert (Hmain : main np cp host device n w
            = (Raised ValueError,
               {| np_global := seed 42; cp_global := cp_global np cp w;
                  time_calls := time_calls np cp w;
                  stdout := stdout np cp w ++ [PrintCpuBanner] |})).
    { unfold main, main_locals.
      destruct device; [| congruence |];
        cbn [device_in device_eqb existsb orb]; unfold bind;
        rewrite (compute_cpu_negative np cp host n w Hn); reflexivity. }
    rewrite Hmain. repeat split.
  - intros Hcudf Hcupy. unfold main, main_locals.
    cbn [device_in device_eqb existsb orb]. unfold bind, ret. cbv beta iota.
    rewrite (compute_gpu_negative np cp host n w Hcudf Hcupy Hn).
    repeat split.
  - intros Hmissing. unfold main, main_locals.
    cbn [device_in device_eqb existsb orb]. unfold bind, ret. cbv beta iota.
    rewrite (compute_gpu_missing np cp host n w Hmissing).
    split; reflexivity.
Qed.

Lemma negative_row_count_raises_at_first_draw_witness :
  simulate_complex_payroll_data_cpu np64 np64 (-1) world64
  = (Raised ValueError, set_np np64 np64 (seed 42) world64) /\
  (forall device,
     device <> gpu ->
     fst (main np64 np64 gpu_host device (-1) world64) = Raised ValueError /\
     stdout np64 np64 (snd (main np64 np64 gpu_host device (-1) world64))
     = stdout np64 np64 world64 ++ [PrintCpuBanner] /\
     time_calls np64 np64 (snd (main np64 np64 gpu_host device (-1) world64))
     = time_calls np64 np64 world64) /\
  (installed gpu_host cudf = true -> installed gpu_host cupy = true ->
   fst (main np64 np64 gpu_host gpu (-1) world64) = Raised ValueError /\
   stdout np64 np64 (snd (main np64 np64 gpu_host gpu (-1) world64))
   = stdout np64 np64 world64 ++ [PrintGpuBanner] /\
   time_calls np64 np64 (snd (main np64 np64 gpu_host gpu (-1) world64))
   = S (time_calls np64 np64 world64) /\
   cp_global np64 np64 (snd (main np64 np64 gpu_host gpu (-1) world64))
   = seed 42) /\
  (installed gpu_host cudf = false ->
   fst (main np64 np64 gpu_host gpu (-1) world64) = Returned tt /\
   stdout np64 np64 (snd (main np64 np64 gpu_host gpu (-1) world64))
   = stdout np64 np64 world64 ++ [PrintCudfMissing]).
Proof.
  apply (negative_row_count_raises_at_first_draw (F := binary64)
           np64 np64 gpu_host (-1) world64).
  lia.
Defined.

(** ** Reproducibility of the accelerated path *)

(** X5.  The accelerated generator seeds CuPy's generator but not NumPy's.
    Two of its runs for the same row count, from whatever worlds, return
    tables with the same [Employee ID] column and the same eleven numeric
    columns; the three label columns follow NumPy's generator, so the two
    tables are equal in every field when NumPy's generator is in the same
    state at the start of both runs. *)
Theorem gpu_numbers_reproducible
    {F : Float64} (np cp : RandomState) (host : Host) (n : Z)
    (w1 w2 : World np cp) (df1 df2 : DataFrame) (w1' w2' : World np cp) :
  simulate_complex_payroll_data_gpu np cp host n w1 = (Returned df1, w1') ->
  simulate_complex_payroll_data_gpu np cp host n w2 = (Returned df2, w2') ->
  (Employee_ID df1 = Employee_ID df2 /\
   Regular_Hours df1 = Regular_Hours df2 /\
   Overtime_Hours df1 = Overtime_Hours df2 /\
   Gross_Wages df1 = Gross_Wages df2 /\
   Federal_Tax df1 = Federal_Tax df2 /\
   State_Tax df1 = State_Tax df2 /\
   Social_Security df1 = Social_Security df2 /\
   Medicare df1 = Medicare df2 /\
   Health_Insurance df1 = Health_Insurance df2 /\
   Retirement df1 = Retirement df2 /\
   Other_Deductions df1 = Other_Deductions df2 /\
   Net_Pay df1 = Net_Pay df2) /\
  (np_global np cp w1 = np_global np cp w2 -> df1 = df2).
Proof.
  intros H1 H2.
  apply (simulate_gpu_is_gpu_table np cp host) in H1, H2.
  destruct H1 as (_ & _ & _ & ->). destruct H2 as (_ & _ & _ & ->).
  split.
  - unfold gpu_table.
    destruct (draw_labels np (np_global np cp w1) (Z.to_nat n))
      as [[[names1 titles1] periods1] s1].
    destruct (draw_labels np (np_global np cp w2) (Z.to_nat n))
      as [[[names2 titles2] periods2] s2].
    repeat split.
  - intros ->. reflexivity.
Qed.

Lemma gpu_numbers_reproducible_witness :
  (Employee_ID (demo_gpu_table world64)
   = Employee_ID (demo_gpu_table world64_late) /\
   Regular_Hours (demo_gpu_table world64)
   = Regular_Hours (demo_gpu_table world64_late) /\
   Overtime_Hours (demo_gpu_table world64)
   = Overtime_Hours (demo_gpu_table world64_late) /\
   Gross_Wages (demo_gpu_table world64)
   = Gross_Wages (demo_gpu_table world64_late) /\
   Federal_Tax (demo_gpu_table world64)
   = Federal_Tax (demo_gpu_table world64_late) /\
   State_Tax (demo_gpu_table world64)
   = State_Tax (demo_gpu_table world64_late) /\
   Social_Security (demo_gpu_table world64)
   = Social_Security (demo_gpu_table world64_late) /\
   Medicare (demo_gpu_table world64)
   = Medicare (demo_gpu_table world64_late) /\
   Health_Insurance (demo_gpu_table world64)
   = Health_Insurance (demo_gpu_table world64_late) /\
   Retirement (demo_gpu_table world64)
   = Retirement (demo_gpu_table world64_late) /\
   Other_Deductions (demo_gpu_table world64)
   = Other_Deductions (demo_gpu_table world64_late) /\
   Net_Pay (demo_gpu_table world64)
   = Net_Pay (demo_gpu_table world64_late)) /\
  (np_global np64 np64 world64 = np_global np64 np64 world64_late ->
   demo_gpu_table world64 = demo_gpu_table world64_late).
Proof.
  apply (gpu_numbers_reproducible (F := binary64) np64 np64 gpu_host 1
           world64 world64_late
           (demo_gpu_table world64) (demo_gpu_table world64_late)
           (snd (simulate_complex_payroll_data_gpu np64 np64 gpu_host 1 world64))
           (snd (simulate_complex_payroll_data_gpu np64 np64 gpu_host 1
                   world64_late))).
  - apply run_returned_intro. vm_compute. reflexivity.
  - apply run_returned_intro. vm_compute. reflexivity.
Defined.

(** The label columns do follow NumPy's state: the two demo worlds give
    different names. *)
Remark gpu_labels_follow_numpy :
  Employee_Name (demo_gpu_table world64) = ["John Doe"%string] /\
  Employee_Name (demo_gpu_table world64_late) = ["John Miller"%string].
Proof. split; vm_compute; reflexivity. Qed.

(** ** The speedup off the positive times *)

(** A time that is not at least zero is not above zero either. *)
Lemma not_leb_zero_not_positive (t : float) :
  PrimFloat.leb PrimFloat.zero t = false ->
  PrimFloat.ltb PrimFloat.zero t = false.
Proof.
  rewrite ltb_spec, leb_spec.
  replace (Prim2SF PrimFloat.zero) with (S754_zero false) by reflexivity.
  destruct (Prim2SF t) as [s | s | | s m e]; simpl;
    try reflexivity; try discriminate.
  all: destruct s; simpl; try discriminate; reflexivity.
Qed.

(** X8.  [time.time()] reads the wall clock, so an elapsed time can come
    out negative.  When both backends ran and the accelerated elapsed time
    is not at least zero (negative, or not a number), [main] still ends
    normally and prints the summary, and the speedup it reports is
    infinity, whatever the CPU elapsed time: the quotient is taken for a
    positive accelerated time only. *)
Theorem speedup_infinite_unless_gpu_time_positive
    {F : Float64} (np cp : RandomState) (host : Host) (n : Z)
    (w : World np cp) :
  installed host cudf = true -> installed host cupy = true -> 0 <= n ->
  PrimFloat.leb PrimFloat.zero
    (elapsed_from host (S (S (time_calls np cp w)))) = false ->
  fst (main np cp host both n w) = Returned tt /\
  exists l,
    stdout np cp (snd (main np cp host both n w))
    = stdout np cp w ++ l ++
        [PrintSummary;
         PrintSummaryCpu (elapsed_from host (time_calls np cp w));
         PrintSummaryGpu (elapsed_from host (S (S (time_calls np cp w))));
         PrintSpeedup PrimFloat.infinity].
Proof.
  intros Hcudf Hcupy Hn Hneg.
  destruct (main_locals_both_ran np cp host n w Hcudf Hcupy Hn)
    as (df & df' & s & s' & E).
  rewrite (main_of_locals np cp host both n w _ _ E).
  split; [reflexivity|]. cbn [snd stdout].
  unfold speedup_of. rewrite (not_leb_zero_not_positive _ Hneg).
  eexists. reflexivity.
Qed.

Lemma speedup_infinite_unless_gpu_time_positive_witness :
  fst (main np64 np64 set_back_host both 1 world64) = Returned tt /\
  exists l,
    stdout np64 np64 (snd (main np64 np64 set_back_host both 1 world64))
    = stdout np64 np64 world64 ++ l ++
        [PrintSummary;
         PrintSummaryCpu
           (elapsed_from set_back_host (time_calls np64 np64 world64));
         PrintSummaryGpu
           (elapsed_from set_back_host (S (S (time_calls np64 np64 world64))));
         PrintSpeedup PrimFloat.infinity].
Proof.
  apply (speedup_infinite_unless_gpu_time_positive (F := binary64)
           np64 np64 set_back_host 1 world64).
  - reflexivity.
  - reflexivity.
  - lia.
  - vm_compute. reflexivity.
Defined.

(** ** Identifiers in string order *)

Lemma digit_string_append (s t : string) :
  digit_string (String.append s t) <-> digit_string s /\ digit_string t.
Proof.
  induction s as [|c s IH]; simpl; [tauto | rewrite IH; tauto].
Qed.

Lemma digits_from_digit_string (fuel : nat) :
  forall n, 0 <= n -> digit_string (digits_from fuel n EmptyString).
Proof.
  induction fuel as [|fuel IH]; intros n Hn; cbn [digits_from].
  - simpl. rewrite digit_value_char by (apply Z.mod_pos_bound; lia).
    split; [apply Z.mod_pos_bound; lia | exact I].
  - assert (Hd : digit_string (String (digit_char (n mod 10)) EmptyString)).
    { simpl. rewrite digit_value_char by (apply Z.mod_pos_bound; lia).
      split; [apply Z.mod_pos_bound; lia | exact I]. }
    destruct (n / 10 =? 0); [exact Hd|].
    rewrite digits_from_acc. apply digit_string_append. split; [|exact Hd].
    apply IH. apply Z.div_pos; lia.
Qed.

Lemma zeros_digit_string (k : nat) : digit_string (zeros k).
Proof.
  induction k as [|k IH]; cbn [zeros digit_string]; [exact I|].
  split; [|exact IH].
  replace (digit_value "0"%char) with 0 by reflexivity. lia.
Qed.

Lemma int_from_shift (s : string) :
  forall a, int_from a s = a * 10 ^ Z.of_nat (String.length s) + int_from 0 s.
Proof.
  induction s as [|c s IH]; intros a; cbn [int_from String.length].
  - change (10 ^ Z.of_nat 0) with 1. lia.
  - rewrite IH. rewrite (IH (10 * 0 + digit_value c)).
    rewrite Nat2Z.inj_succ, Z.pow_succ_r by lia. lia.
Qed.

Lemma digit_string_bound (s : string) :
  digit_string s -> 0 <= int_from 0 s < 10 ^ Z.of_nat (String.length s).
Proof.
  induction s as [|c s IH]; cbn [digit_string int_from String.length].
  - intros _. change (10 ^ Z.of_nat 0) with 1. lia.
  - intros [Hc Hs]. specialize (IH Hs). rewrite int_from_shift.
    rewrite Nat2Z.inj_succ, Z.pow_succ_r by lia. nia.
Qed.

Lemma ascii_compare_digit_value (c d : ascii) :
  Ascii.compare c d = Z.compare (digit_value c) (digit_value d).
Proof.
  unfold Ascii.compare, digit_value, nat_of_ascii.
  rewrite !N_nat_Z, <- N2Z.inj_compare.
  rewrite <- (Z.add_compare_mono_l (-48)).
  f_equal; lia.
Qed.

(** On digit strings of one length, string order is numeric order. *)
Lemma compare_digit_strings (s : string) :
  forall t,
    digit_string s -> digit_string t -> String.length s = String.length t ->
    String.compare s t = Z.compare (int_from 0 s) (int_from 0 t).
Proof.
  induction s as [|c s IH]; intros [|d t] Hs Ht Hlen; try discriminate Hlen.
  - reflexivity.
  - cbn [digit_string] in Hs, Ht. destruct Hs as [Hc Hs], Ht as [Hd Ht].
    cbn [String.length] in Hlen. injection Hlen as Hlen.
    cbn [String.compare int_from].
    rewrite (int_from_shift s), (int_from_shift t), <- Hlen.
    pose proof (digit_string_bound s Hs) as Bs.
    pose proof (digit_string_bound t Ht) as Bt. rewrite <- Hlen in Bt.
    rewrite ascii_compare_digit_value, (IH t Hs Ht Hlen).
    set (p := 10 ^ Z.of_nat (String.length s)) in *.
    destruct (Z.compare_spec (digit_value c) (digit_value d)) as [E | E | E].
    + rewrite E. symmetry.
      destruct (Z.compare_spec (int_from 0 s) (int_from 0 t)) as [E' | E' | E'].
      * apply Z.compare_eq_iff. lia.
      * apply Z.compare_lt_iff. lia.
      * apply Z.compare_gt_iff. lia.
    + symmetry. apply Z.compare_lt_iff. nia.
    + symmetry. apply Z.compare_gt_iff. nia.
Qed.

Lemma format_0d_digit_string (width i : Z) :
  0 < i -> digit_string (format_0d width i).
Proof.
  intros Hi. unfold format_0d.
  replace (i <? 0) with false by (symmetry; apply Z.ltb_ge; lia).
  rewrite Z.abs_eq by lia. cbn [String.append].
  apply digit_string_append. split; [apply zeros_digit_string|].
  apply digits_from_digit_string. lia.
Qed.

(** Identifiers come in increasing string order. *)
Lemma employee_ids_increasing (n : Z) (a b : nat) (s t : string) :
  (a < b)%nat ->
  nth_error (employee_ids n) a = Some s ->
  nth_error (employee_ids n) b = Some t ->
  String.ltb s t = true.
Proof.
  intros Hab Hs Ht.
  assert (Hb : (b < List.length (employee_ids n))%nat)
    by (apply nth_error_Some; congruence).
  assert (Hn : 1 <= n).
  { unfold employee_ids in Hb. rewrite length_map, range_length in Hb. lia. }
  destruct (employee_ids_spec n Hn) as (_ & Hlen & Hk).
  rewrite Hlen in Hb.
  destruct (Hk (Z.of_nat a + 1) ltac:(lia)) as (s' & Es & Is & Wa & Fs).
  destruct (Hk (Z.of_nat b + 1) ltac:(lia)) as (t' & Et & It & Wb & Ft).
  replace (Z.to_nat (Z.of_nat a + 1 - 1)) with a in Es by lia.
  replace (Z.to_nat (Z.of_nat b + 1 - 1)) with b in Et by lia.
  rewrite Hs in Es. rewrite Ht in Et.
  injection Es as <-. injection Et as <-.
  assert (Ds : digit_string s).
  { unfold employee_ids in Hs. apply nth_error_map_Some in Hs.
    destruct Hs as (x & Hx & ->). apply nth_error_In, range_In in Hx.
    apply format_0d_digit_string. lia. }
  assert (Dt : digit_string t).
  { unfold employee_ids in Ht. apply nth_error_map_Some in Ht.
    destruct Ht as (x & Hx & ->). apply nth_error_In, range_In in Hx.
    apply format_0d_digit_string. lia. }
  unfold String.ltb. rewrite (compare_digit_strings s t Ds Dt).
  - unfold int in Is, It. rewrite Is, It.
    replace (Z.of_nat a + 1 ?= Z.of_nat b + 1) with Lt; [reflexivity|].
    symmetry. apply Z.compare_lt_iff. lia.
  - unfold len in Wa, Wb. lia.
Qed.

(** X9.  The [Employee ID] column of a generated table, on either path, is
    in strictly increasing string order: thanks to the zero padding to one
    common width, comparing two identifiers character by character agrees
    with comparing the row numbers they stand for, so sorting the table on
    the identifier column keeps the rows in place. *)
Theorem employee_ids_sorted_as_strings
    {F : Float64} (np cp : RandomState) (host : Host) (n : Z)
    (w : World np cp) (df : DataFrame) (w' : World np cp)
    (a b : nat) (s t : string) :
  simulate_complex_payroll_data_cpu np cp n w = (Returned df, w') \/
  simulate_complex_payroll_data_gpu np cp host n w = (Returned df, w') ->
  (a < b)%nat ->
  nth_error (Employee_ID df) a = Some s ->
  nth_error (Employee_ID df) b = Some t ->
  String.ltb s t = true.
Proof.
  intros Hrun Hab Hs Ht.
  assert (Hids : Employee_ID df = employee_ids n).
  { destruct Hrun as [Hrun | Hrun].
    - apply simulate_cpu_returned in Hrun.
      destruct Hrun as (_ & names & titles & periods & d & _ & ->). reflexivity.
    - apply simulate_gpu_returned in Hrun.
      destruct Hrun as (_ & names & titles & periods & d & _ & ->). reflexivity. }
  rewrite Hids in Hs, Ht.
  exact (employee_ids_increasing n a b s t Hab Hs Ht).
Qed.

Lemma employee_ids_sorted_as_strings_witness :
  String.ltb "009" "010" = true.
Proof.
  apply (employee_ids_sorted_as_strings (F := binary64)
           np64 np64 demo_host 12 world64 (demo_table 12)
           (snd (simulate_complex_payroll_data_cpu np64 np64 12 world64))
           8%nat 9%nat "009"%string "010"%string).
  - left. apply run_returned_intro. vm_compute. reflexivity.
  - lia.
  - vm_compute. reflexivity.
  - vm_compute. reflexivity.
Defined.

(** ** Labels *)

Lemma scripted_choice_law {F : Float64} (tape : list Z) :
  choice_law (scripted tape).
Proof.
  intros a n s x Ha. cbn [choice scripted].
  destruct (draw n s) as [raw s']. cbn [fst].
  rewrite in_map_iff. intros (r & <- & _).
  apply nth_In.
  assert (Hlen : (0 < List.length a)%nat)
    by (destruct a; [congruence | simpl; lia]).
  pose proof (Z.mod_pos_bound r (Z.of_nat (List.length a)) ltac:(lia)). lia.
Qed.

(** The labels drawn for a table come from the four fixed lists. *)
Lemma draw_labels_from_lists {F : Float64} (R : RandomState) s n
    names titles periods s' :
  choice_law R ->
  draw_labels R s n = (names, titles, periods, s') ->
  (forall i x, nth_error names i = Some x ->
     exists f l, In f first_names /\ In l last_names /\ x = full_name f l) /\
  (forall x, In x titles -> In x job_titles) /\
  (forall x, In x periods -> In x pay_periods).
Proof.
  intros HR. unfold draw_labels.
  destruct (choice first_names n s) as [firsts s1] eqn:E1.
  destruct (choice last_names n s1) as [lasts s2] eqn:E2.
  destruct (choice job_titles n s2) as [ts s3] eqn:E3.
  destruct (choice pay_periods n s3) as [ps s4] eqn:E4.
  intros H. injection H as <- <- <- _.
  assert (H1 : firsts = fst (choice first_names n s)) by now rewrite E1.
  assert (H2 : lasts = fst (choice last_names n s1)) by now rewrite E2.
  assert (H3 : ts = fst (choice job_titles n s2)) by now rewrite E3.
  assert (H4 : ps = fst (choice pay_periods n s3)) by now rewrite E4.
  split; [|split].
  - intros i x Hx. apply nth_error_zip_with_Some in Hx.
    destruct Hx as (f & l & Hf & Hl & ->). exists f, l.
    apply nth_error_In in Hf, Hl. rewrite H1 in Hf. rewrite H2 in Hl.
    split; [eapply HR; [discriminate | exact Hf]|].
    split; [eapply HR; [discriminate | exact Hl] | reflexivity].
  - intros x Hx. rewrite H3 in Hx. eapply HR; [discriminate | exact Hx].
  - intros x Hx. rewrite H4 in Hx. eapply HR; [discriminate | exact Hx].
Qed.

(** X10.  When NumPy's [choice] returns elements of the list it is given,
    every row of a generated table, on either path, carries labels from
    the four fixed lists: its name is a first name of the list, one space
    and a last name of the list; its job title is one of the eight titles
    and its pay period one of the six periods.  On the accelerated path,
    too, the labels are NumPy's: CuPy's generator has no part in them. *)
Theorem labels_come_from_the_fixed_lists
    {F : Float64} (np cp : RandomState) (host : Host) (n : Z)
    (w : World np cp) (df : DataFrame) (w' : World np cp) :
  choice_law np ->
  simulate_complex_payroll_data_cpu np cp n w = (Returned df, w') \/
  simulate_complex_payroll_data_gpu np cp host n w = (Returned df, w') ->
  forall i row,
    iloc df i = Some row ->
    (exists f l,
       In f first_names /\ In l last_names /\
       name row = String.append f (String " " l)) /\
    In (job_title row) job_titles /\
    In (pay_period row) pay_periods.
Proof.
  intros HR Hrun i row Hrow.
  assert (Hd : exists s names titles periods s' ids d,
             draw_labels np s (Z.to_nat n) = (names, titles, periods, s') /\
             df = payroll_frame names ids titles periods d).
  { destruct Hrun as [Hrun | Hrun].
    - apply simulate_cpu_is_cpu_table in Hrun. destruct Hrun as (_ & ->).
      unfold cpu_table.
      destruct (draw_labels np (seed 42) (Z.to_nat n))
        as [[[names titles] periods] s'] eqn:E.
      exists (seed 42), names, titles, periods, s'. eauto.
    - apply simulate_gpu_is_gpu_table in Hrun.
      destruct Hrun as (_ & _ & _ & ->). unfold gpu_table.
      destruct (draw_labels np (np_global np cp w) (Z.to_nat n))
        as [[[names titles] periods] s'] eqn:E.
      exists (np_global np cp w), names, titles, periods, s'. eauto. }
  destruct Hd as (s & names & titles & periods & s' & ids & d & E & ->).
  destruct (draw_labels_from_lists np s _ _ _ _ _ HR E) as (Hn & Ht & Hp).
  destruct (iloc_fields _ i row Hrow) as (H1 & _ & H3 & H4 & _).
  unfold payroll_frame in H1, H3, H4.
  cbn [Employee_Name Job_Title Pay_Period] in H1, H3, H4.
  split; [exact (Hn i _ H1)|].
  split; [apply Ht | apply Hp]; eapply nth_error_In; eassumption.
Qed.

Lemma labels_come_from_the_fixed_lists_witness :
  (exists f l,
     In f first_names /\ In l last_names /\
     name (demo_row (F := binary64) 1) = String.append f (String " " l)) /\
  In (job_title (demo_row (F := binary64) 1)) job_titles /\
  In (pay_period (demo_row (F := binary64) 1)) pay_periods.
Proof.
  apply (labels_come_from_the_fixed_lists (F := binary64)
           np64 np64 demo_host 1 world64 (demo_table 1)
           (snd (simulate_complex_payroll_data_cpu np64 np64 1 world64))
           (scripted_choice_law demo_tape))
    with (i := 0%nat).
  - left. apply run_returned_intro. vm_compute. reflexivity.
  - vm_compute. reflexivity.
Defined.

(** ** Runs on a single device *)

Section SingleDevice.
Context {F : Float64}.
Variables np cp : RandomState.
Variable host : Host.

(** The table [compute_cpu] samples is the CPU table of the row count. *)
Lemma compute_cpu_samples_cpu_table n w :
  0 <= n ->
  exists s,
    compute_cpu np cp host n w
    = (Returned (elapsed_from host (time_calls np cp w)),
       {| np_global := s; cp_global := cp_global np cp w;
          time_calls := S (S (time_calls np cp w));
          stdout := stdout np cp w ++
            [PrintCpuBanner;
             PrintCpuTime n (elapsed_from host (time_calls np cp w));
             PrintSample (head (compute_net_pay_cpu (cpu_table np n)))] |}).
Proof.
  intros Hn.
  destruct (compute_cpu_run np cp host n w Hn) as (df & s & Hdf & E).
  destruct (simulate_complex_payroll_data_cpu np cp n w) as [r w1] eqn:Es.
  cbn [fst] in Hdf. subst r.
  apply simulate_cpu_is_cpu_table in Es. destruct Es as (_ & ->).
  exists s. exact E.
Qed.

(** The table [compute_gpu] samples is the accelerated table of the row
    count and of the state NumPy's generator is in at the call. *)
Lemma compute_gpu_samples_gpu_table n w :
  installed host cudf = true -> installed host cupy = true -> 0 <= n ->
  exists s s',
    compute_gpu np cp host n w
    = (Returned (Some (elapsed_from host (time_calls np cp w))),
       {| np_global := s; cp_global := s';
          time_calls := S (S (time_calls np cp w));
          stdout := stdout np cp w ++
            [PrintGpuBanner;
             PrintGpuTime n (elapsed_from host (time_calls np cp w));
             PrintSample
               (head (compute_net_pay_cpu
                        (gpu_table np cp (np_global np cp w) n)))] |}).
Proof.
  intros Hcudf Hcupy Hn. unfold compute_gpu, try_except.
  unfold import at 1. rewrite Hcudf. unfold ret at 1.
  rewrite (bind_run np cp (print PrintGpuBanner) _ w tt _ eq_refl).
  rewrite (bind_run np cp (time_time np cp host) _ _ _ _ eq_refl).
  match goal with
  | |- context [bind (simulate_complex_payroll_data_gpu np cp host n) ?k ?w0] =>
      destruct (simulate_gpu_run np cp host n w0 Hcudf Hcupy Hn)
        as (df & s & s' & E);
      rewrite (bind_run np cp _ k w0 df _ E);
      apply simulate_gpu_is_gpu_table in E; destruct E as (_ & _ & _ & ->)
  end.
  cbn [np_global].
  exists s, s'. unfold bind, time_time, print, ret.
  cbn [time_calls stdout np_global cp_global].
  rewrite <- !app_assoc. reflexivity.
Qed.
End SingleDevice.

(** X11.  Runs on a single device, for a row count that is not negative.
    With device "cpu", [main] ends normally on every host, whichever
    packages are installed: it reads the clock twice, leaves CuPy's
    generator as it was and prints exactly the three lines of the CPU
    measurement; the sample shown is the head of the recomputed CPU table,
    which depends on the row count alone.  With device "gpu" on a host
    with both packages, [main] ends normally after the three lines of the
    accelerated measurement; the sample shown depends on the row count and
    on the state NumPy's generator was in at the start.  Neither run
    prints a summary. *)
Theorem single_device_runs
    {F : Float64} (np cp : RandomState) (host : Host) (n : Z)
    (w : World np cp) :
  0 <= n ->
  (exists s,
     main np cp host cpu n w
     = (Returned tt,
        {| np_global := s; cp_global := cp_global np cp w;
           time_calls := S (S (time_calls np cp w));
           stdout := stdout np cp w ++
             [PrintCpuBanner;
              PrintCpuTime n (elapsed_from host (time_calls np cp w));
              PrintSample (head (compute_net_pay_cpu (cpu_table np n)))] |})) /\
  (installed host cudf = true -> installed host cupy = true ->
   exists s s',
     main np cp host gpu n w
     = (Returned tt,
        {| np_global := s; cp_global := s';
           time_calls := S (S (time_calls np cp w));
           stdout := stdout np cp w ++
             [PrintGpuBanner;
              PrintGpuTime n (elapsed_from host (time_calls np cp w));
              PrintSample
                (head (compute_net_pay_cpu
                         (gpu_table np cp (np_global np cp w) n)))] |})).
Proof.
  intros Hn. split.
  - destruct (compute_cpu_samples_cpu_table np cp host n w Hn) as (s & E).
    exists s. unfold main, main_locals.
    cbn [device_in device_eqb existsb orb]. unfold bind.
    rewrite E. reflexivity.
  - intros Hcudf Hcupy.
    destruct (compute_gpu_samples_gpu_table np cp host n w Hcudf Hcupy Hn)
      as (s & s' & E).
    exists s, s'. unfold main, main_locals.
    cbn [device_in device_eqb existsb orb]. unfold bind, ret. cbv beta iota.
    rewrite E. reflexivity.
Qed.

Lemma single_device_runs_witness :
  (exists s,
     main np64 np64 gpu_host cpu 1 world64
     = (Returned tt,
        {| np_global := s; cp_global := cp_global np64 np64 world64;
           time_calls := S (S (time_calls np64 np64 world64));
           stdout := stdout np64 np64 world64 ++
             [PrintCpuBanner;
              PrintCpuTime 1
                (elapsed_from gpu_host (time_calls np64 np64 world64));
              PrintSample (head (compute_net_pay_cpu (cpu_table np64 1)))] |})) /\
  (installed gpu_host cudf = true -> installed gpu_host cupy = true ->
   exists s s',
     main np64 np64 gpu_host gpu 1 world64
     = (Returned tt,
        {| np_global := s; cp_global := s';
           time_calls := S (S (time_calls np64 np64 world64));
           stdout := stdout np64 np64 world64 ++
             [PrintGpuBanner;
              PrintGpuTime 1
                (elapsed_from gpu_host (time_calls np64 np64 world64));
              PrintSample
                (head (compute_net_pay_cpu
                         (gpu_table np64 np64
                            (np_global np64 np64 world64) 1)))] |})).
Proof.
  apply (single_device_runs (F := binary64) np64 np64 gpu_host 1 world64).
  lia.
Defined.

(** * Double-precision arithmetic *)

(** ** Powers of two and the location of a value *)

Local Open Scope Q_scope.

Lemma bpow_pos (e : Z) : 0 < bpow e.
Proof. apply Qpower_0_lt. reflexivity. Qed.

Lemma bpow_add (a b : Z) : bpow (a + b) == bpow a * bpow b.
Proof. apply Qpower_plus. discriminate. Qed.

Lemma bpow_succ (e : Z) : bpow (e + 1) == 2 * bpow e.
Proof. rewrite bpow_add. change (bpow 1) with (2 # 1). ring. Qed.

Lemma bpow_le (a b : Z) : (a <= b)%Z -> bpow a <= bpow b.
Proof. intros H. apply Qpower_le_compat_l; [exact H | discriminate]. Qed.

Lemma bpow_lt (a b : Z) : (a < b)%Z -> bpow a < bpow b.
Proof. intros H. apply Qpower_lt_compat_l; [exact H | reflexivity]. Qed.

Lemma bpow_lt_inv (a b : Z) : bpow a < bpow b -> (a < b)%Z.
Proof. intros H. apply (Qpower_lt_compat_l_inv (2 # 1)); [exact H | reflexivity]. Qed.

Lemma bpow_Z (e : Z) : (0 <= e)%Z -> bpow e == inject_Z (2 ^ e).
Proof. intros H. unfold bpow. rewrite Zpower_Qpower by exact H. reflexivity. Qed.

(** The number of binary digits. *)
Lemma digits2_pos_bounds (m : positive) :
  (2 ^ (Zpos (digits2_pos m) - 1) <= Zpos m < 2 ^ Zpos (digits2_pos m))%Z.
Proof.
  induction m as [m IH | m IH |]; cbn [digits2_pos].
  - rewrite Pos2Z.inj_succ.
    replace (Z.succ (Z.pos (digits2_pos m)) - 1)%Z
      with (Z.succ (Z.pos (digits2_pos m) - 1))%Z by lia.
    rewrite !Z.pow_succ_r by lia. lia.
  - rewrite Pos2Z.inj_succ.
    replace (Z.succ (Z.pos (digits2_pos m)) - 1)%Z
      with (Z.succ (Z.pos (digits2_pos m) - 1))%Z by lia.
    rewrite !Z.pow_succ_r by lia. lia.
  - simpl. lia.
Qed.

Lemma inject_Z_xO (p : positive) : inject_Z (Z.pos p~0) == 2 * inject_Z (Z.pos p).
Proof. rewrite Pos2Z.inj_xO, inject_Z_mult. reflexivity. Qed.

Lemma inject_Z_xI (p : positive) :
  inject_Z (Z.pos p~1) == 2 * inject_Z (Z.pos p) + 1.
Proof. rewrite Pos2Z.inj_xI, inject_Z_plus, inject_Z_mult. reflexivity. Qed.

(** One right shift keeps the location. *)
Lemma shr_1_located (v : Q) (mrs : shr_record) (e : Z) :
  (0 <= shr_m mrs)%Z ->
  located v (shr_m mrs) e (loc_of_shr_record mrs) ->
  (0 <= shr_m (shr_1 mrs))%Z /\
  located v (shr_m (shr_1 mrs)) (e + 1) (loc_of_shr_record (shr_1 mrs)).
Proof.
  destruct mrs as [m r s]. cbn [shr_m]. intros Hm H.
  pose proof (bpow_pos e) as Hb. pose proof (bpow_succ e) as Hs.
  destruct m as [|p|p]; [| |lia].
  - split; [simpl; lia|].
    destruct r, s; cbn [shr_1 orb shr_m loc_of_shr_record located] in *;
      change (inject_Z 0) with 0 in *; rewrite ?Hs; try lra.
  - destruct p as [p|p|].
    + split; [simpl; lia|].
      pose proof (inject_Z_xI p) as Hp.
      destruct r, s; cbn [shr_1 orb shr_m loc_of_shr_record located] in *;
        rewrite ?Hs; rewrite Hp in H; repeat split; try lra.
    + split; [simpl; lia|].
      pose proof (inject_Z_xO p) as Hp.
      destruct r, s; cbn [shr_1 orb shr_m loc_of_shr_record located] in *;
        rewrite ?Hs; rewrite Hp in H; repeat split; try lra.
    + split; [simpl; lia|].
      destruct r, s; cbn [shr_1 orb shr_m loc_of_shr_record located] in *;
        change (inject_Z 0) with 0 in *; change (inject_Z 1) with 1 in *;
        rewrite ?Hs; repeat split; try lra.
Qed.

Lemma iter_shr_1_located (p : positive) :
  forall (v : Q) (mrs : shr_record) (e : Z),
    (0 <= shr_m mrs)%Z ->
    located v (shr_m mrs) e (loc_of_shr_record mrs) ->
    (0 <= shr_m (iter_pos shr_1 p mrs))%Z /\
    located v (shr_m (iter_pos shr_1 p mrs)) (e + Z.pos p)
      (loc_of_shr_record (iter_pos shr_1 p mrs)).
Proof.
  induction p as [p IH | p IH |]; intros v mrs e Hm H; cbn [iter_pos].
  - destruct (shr_1_located v mrs e Hm H) as [Hm1 H1].
    destruct (IH v _ _ Hm1 H1) as [Hm2 H2].
    destruct (IH v _ _ Hm2 H2) as [Hm3 H3].
    split; [exact Hm3|].
    replace (e + Z.pos p~1)%Z with (e + 1 + Z.pos p + Z.pos p)%Z by lia.
    exact H3.
  - destruct (IH v _ _ Hm H) as [Hm2 H2].
    destruct (IH v _ _ Hm2 H2) as [Hm3 H3].
    split; [exact Hm3|].
    replace (e + Z.pos p~0)%Z with (e + Z.pos p + Z.pos p)%Z by lia.
    exact H3.
  - apply shr_1_located; assumption.
Qed.

Lemma shr_record_of_loc_m (m : Z) (l : location) :
  shr_m (shr_record_of_loc m l) = m.
Proof. destruct l as [|[]]; reflexivity. Qed.

Lemma loc_of_shr_record_of_loc (m : Z) (l : location) :
  loc_of_shr_record (shr_record_of_loc m l) = l.
Proof. destruct l as [|[]]; reflexivity. Qed.

(** Shifting to a coarser exponent keeps the location. *)
Lemma shr_located (v : Q) (m e n : Z) (l : location) :
  (0 <= m)%Z -> located v m e l ->
  (0 <= shr_m (fst (shr (shr_record_of_loc m l) e n)))%Z /\
  snd (shr (shr_record_of_loc m l) e n) = (e + Z.max 0 n)%Z /\
  located v (shr_m (fst (shr (shr_record_of_loc m l) e n)))
    (e + Z.max 0 n)
    (loc_of_shr_record (fst (shr (shr_record_of_loc m l) e n))).
Proof.
  intros Hm H. unfold shr.
  destruct n as [|p|p]; cbn [fst snd].
  - rewrite shr_record_of_loc_m, loc_of_shr_record_of_loc.
    replace (e + Z.max 0 0)%Z with e by lia. auto.
  - replace (e + Z.max 0 (Z.pos p))%Z with (e + Z.pos p)%Z by lia.
    destruct (iter_shr_1_located p v (shr_record_of_loc m l) e) as [H1 H2].
    + rewrite shr_record_of_loc_m. exact Hm.
    + rewrite shr_record_of_loc_m, loc_of_shr_record_of_loc. exact H.
    + auto.
  - rewrite shr_record_of_loc_m, loc_of_shr_record_of_loc.
    replace (e + Z.max 0 (Z.neg p))%Z with e by lia. auto.
Qed.

Lemma round_nearest_even_correct (v : Q) (m E : Z) (l : location) :
  located v m E l -> nearest_even v (round_nearest_even m l) E.
Proof.
  unfold located, nearest_even. pose proof (bpow_pos E) as Hb.
  destruct l as [|[]]; cbn [round_nearest_even].
  - intros H. split; [lra | split; [lra | intros _; split; lra]].
  - intros (H1 & H2 & H3).
    destruct (Z.even m) eqn:Ev.
    + split; [lra | split; [lra | intros Ho]].
      rewrite <- Z.negb_even, Ev in Ho. discriminate Ho.
    + rewrite inject_Z_plus. change (inject_Z 1) with 1.
      split; [lra | split; [lra | intros Ho]].
      rewrite Z.odd_add, <- Z.negb_even, Ev in Ho. discriminate Ho.
  - intros (H1 & H2 & H3). split; [lra | split; [lra | intros _; split; lra]].
  - intros (H1 & H2 & H3). rewrite inject_Z_plus. change (inject_Z 1) with 1.
    split; [lra | split; [lra | intros _; split; lra]].
Qed.

Lemma scaled_le (a c : Z) (b : Q) :
  0 < b -> inject_Z a * b <= inject_Z c * b -> (a <= c)%Z.
Proof.
  intros Hb H. apply Qmult_le_r in H; [|exact Hb]. now rewrite <- Zle_Qle in H.
Qed.

Lemma scaled_lt (a c : Z) (b : Q) :
  0 < b -> inject_Z a * b < inject_Z c * b -> (a < c)%Z.
Proof.
  intros Hb H. apply Qmult_lt_r in H; [|exact Hb]. now rewrite <- Zlt_Qlt in H.
Qed.

Lemma scale_le (a c : Z) (b : Q) :
  0 < b -> (a <= c)%Z -> inject_Z a * b <= inject_Z c * b.
Proof.
  intros Hb H. apply Qmult_le_r; [exact Hb|]. now rewrite <- Zle_Qle.
Qed.

Lemma inject_Z_2m1 (M : Z) : inject_Z (2 * M - 1) == 2 * inject_Z M - 1.
Proof.
  unfold Z.sub. rewrite inject_Z_plus, inject_Z_mult, inject_Z_opp.
  reflexivity.
Qed.

Lemma inject_Z_2p1 (M : Z) : inject_Z (2 * M + 1) == 2 * inject_Z M + 1.
Proof. rewrite inject_Z_plus, inject_Z_mult. reflexivity. Qed.

(** Nearest integers on one grid are ordered like the values. *)
Lemma nearest_even_mono (v1 v2 : Q) (M1 M2 E : Z) :
  nearest_even v1 M1 E -> nearest_even v2 M2 E -> v1 <= v2 -> (M1 <= M2)%Z.
Proof.
  intros (L1 & U1 & S1) (L2 & U2 & S2) Hv.
  pose proof (bpow_pos E) as Hb.
  destruct (Z_le_gt_dec M1 M2) as [Hle | Hgt]; [exact Hle | exfalso].
  assert (Hc : (2 * M1 - 1 <= 2 * M2 + 1)%Z).
  { apply (scaled_le _ _ (bpow E) Hb).
    rewrite inject_Z_2m1, inject_Z_2p1. lra. }
  assert (HM : M1 = (M2 + 1)%Z) by lia.
  assert (Heq : inject_Z M1 == inject_Z M2 + 1).
  { rewrite HM, inject_Z_plus. reflexivity. }
  destruct (Z.odd M1) eqn:O1.
  - destruct (S1 eq_refl) as [S1a _]. rewrite Heq in S1a. lra.
  - assert (O2 : Z.odd M2 = true).
    { rewrite HM, Z.odd_add in O1. simpl in O1.
      destruct (Z.odd M2); [reflexivity | discriminate O1]. }
    destruct (S2 O2) as [_ S2b]. rewrite Heq in L1. lra.
Qed.

(** ** Rounding to nearest, ties to even, on the binary64 grid *)

Lemma fexp64 (k : Z) : fexp prec emax k = Z.max (k - 53) (-1074).
Proof. reflexivity. Qed.

Lemma bpow_split (a b : Z) : bpow a == bpow (a - b) * bpow b.
Proof. rewrite <- bpow_add. replace (a - b + b)%Z with a by lia. reflexivity. Qed.

Lemma rounded_mono (v1 r1 v2 r2 : Q) :
  rounded v1 r1 -> rounded v2 r2 -> v1 <= v2 -> r1 <= r2.
Proof.
  intros (M1 & E1 & K1 & A1 & B1 & HE1 & R1 & N1)
         (M2 & E2 & K2 & A2 & B2 & HE2 & R2 & N2) Hv.
  assert (HK : (K1 <= K2)%Z).
  { assert (H : bpow (K1 - 1) < bpow K2) by lra.
    apply bpow_lt_inv in H. lia. }
  rewrite R1, R2.
  destruct (Z.eq_dec E1 E2) as [Heq | Hne].
  - subst E2. rewrite <- Heq in N2 |- *.
    apply scale_le; [apply bpow_pos|].
    eapply nearest_even_mono; eassumption.
  - assert (HE : (E1 < E2)%Z) by lia.
    assert (HE2' : E2 = (K2 - 53)%Z) by lia.
    assert (HK' : (K1 < K2)%Z) by lia.
    pose proof (bpow_pos E1) as Hb1. pose proof (bpow_pos E2) as Hb2.
    destruct N1 as (L1 & U1 & _). destruct N2 as (L2 & U2 & _).
    apply Qle_trans with (bpow (K2 - 1)).
    + (* r1 <= 2^(K2-1) *)
      set (P := (2 ^ Z.max (K1 - E1) 0)%Z).
      assert (HP : bpow K1 <= inject_Z P * bpow E1).
      { unfold P. destruct (Z_le_gt_dec E1 K1) as [H | H].
        - rewrite Z.max_l by lia. rewrite <- bpow_Z by lia.
          rewrite <- bpow_split. apply Qle_refl.
        - rewrite Z.max_r by lia. change (inject_Z (2 ^ 0)) with 1.
          rewrite Qmult_1_l. apply bpow_le. lia. }
      assert (HM : (M1 <= P)%Z).
      { assert (H : (2 * M1 - 1 < 2 * P)%Z); [|lia].
        apply (scaled_lt _ _ (bpow E1) Hb1).
        rewrite inject_Z_2m1, inject_Z_mult. change (inject_Z 2) with 2. lra. }
      apply Qle_trans with (inject_Z P * bpow E1);
        [apply scale_le; assumption|].
      unfold P. destruct (Z_le_gt_dec E1 K1) as [H | H].
      * rewrite Z.max_l by lia. rewrite <- bpow_Z by lia.
        rewrite <- bpow_split. apply bpow_le. lia.
      * rewrite Z.max_r by lia. change (inject_Z (2 ^ 0)) with 1.
        rewrite Qmult_1_l. apply bpow_le. lia.
    + (* 2^(K2-1) <= r2 *)
      assert (Hs : bpow (K2 - 1) == inject_Z (2 ^ 52) * bpow E2).
      { rewrite <- bpow_Z by lia. rewrite <- bpow_add.
        replace (52 + E2)%Z with (K2 - 1)%Z by lia. reflexivity. }
      rewrite Hs. apply scale_le; [exact Hb2|].
      assert (H : (2 * 2 ^ 52 <= 2 * M2 + 1)%Z); [|lia].
      apply (scaled_le _ _ (bpow E2) Hb2).
      rewrite inject_Z_2p1, inject_Z_mult. change (inject_Z 2) with 2. lra.
Qed.

(** ** The rounding of [SpecFloat] *)

Lemma SFpos_value_ext (x : spec_float) (r r' : Q) :
  r == r' -> SFpos_value x r -> SFpos_value x r'.
Proof.
  intros Hr. destruct x as [s | s | | [|] m e]; cbn [SFpos_value]; auto.
  - intros H. rewrite <- Hr. exact H.
  - intros H. rewrite <- Hr. exact H.
Qed.

Lemma shr_nonpos (mrs : shr_record) (e n : Z) :
  (n <= 0)%Z -> shr mrs e n = (mrs, e).
Proof. destruct n; [reflexivity | lia | reflexivity]. Qed.

Lemma located_binade (v : Q) (p : positive) (e : Z) (l : location) :
  located v (Z.pos p) e l ->
  bpow (Z.pos (digits2_pos p) + e - 1) <= v /\
  v < bpow (Z.pos (digits2_pos p) + e).
Proof.
  intros H. pose proof (bpow_pos e) as Hb.
  destruct (digits2_pos_bounds p) as [D1 D2].
  set (d := Z.pos (digits2_pos p)) in *.
  assert (Hd : (1 <= d)%Z) by (unfold d; lia).
  assert (H1 : inject_Z (Z.pos p) * bpow e <= v /\
               v < (inject_Z (Z.pos p) + 1) * bpow e).
  { destruct l as [|c]; cbn [located] in H.
    - rewrite H. split; lra.
    - destruct H as (Ha & Hb' & _). split; lra. }
  destruct H1 as [Hlo Hhi]. split.
  - replace (d + e - 1)%Z with ((d - 1) + e)%Z by lia.
    rewrite bpow_add, bpow_Z by lia.
    apply Qle_trans with (inject_Z (Z.pos p) * bpow e); [|exact Hlo].
    apply scale_le; assumption.
  - rewrite bpow_add, bpow_Z by lia.
    apply Qlt_le_trans with ((inject_Z (Z.pos p) + 1) * bpow e); [exact Hhi|].
    change 1 with (inject_Z 1). rewrite <- inject_Z_plus.
    apply scale_le; [exact Hb | lia].
Qed.

Lemma digits2_small (p : positive) :
  (Z.pos p < 2 ^ 53)%Z -> (Z.pos (digits2_pos p) <= 53)%Z.
Proof.
  intros H. destruct (digits2_pos_bounds p) as [D1 _].
  destruct (Z_le_gt_dec (Z.pos (digits2_pos p)) 53) as [Hle | Hgt]; [exact Hle|].
  exfalso.
  assert (H2 : (2 ^ 53 <= 2 ^ (Z.pos (digits2_pos p) - 1))%Z)
    by (apply Z.pow_le_mono_r; lia).
  lia.
Qed.

(** The second normalisation step of [binary_round_aux] keeps the value. *)
Lemma normalise_rounded (M E : Z) :
  (0 <= M <= 2 ^ 53)%Z -> (-1074 <= E <= 900)%Z ->
  SFpos_value
    (let '(mrs, e) := shr_fexp prec emax M E loc_Exact in
     match shr_m mrs with
     | Z0 => S754_zero false
     | Z.pos m => if (e <=? emax - prec)%Z then S754_finite false m e
                  else S754_infinity false
     | Z.neg _ => S754_nan
     end)
    (inject_Z M * bpow E).
Proof.
  intros HM HE. unfold shr_fexp. rewrite fexp64.
  destruct M as [|p|p]; [| |lia].
  - cbn [Zdigits2]. rewrite shr_nonpos by lia. cbn [shr_record_of_loc shr_m].
    cbn [SFpos_value]. change (inject_Z 0) with 0. ring.
  - cbn [Zdigits2].
    destruct (Z.eq_dec (Z.pos p) (2 ^ 53)) as [Heq | Hne].
    + assert (Hp : p = 9007199254740992%positive) by lia. subst p.
      replace (Z.max (Z.pos (digits2_pos 9007199254740992) + E - 53) (-1074)
               - E)%Z
        with 1%Z
        by (change (Z.pos (digits2_pos 9007199254740992)) with 54%Z; lia).
      cbn [shr shr_record_of_loc iter_pos shr_1 shr_m].
      replace (E + 1 <=? emax - prec)%Z with true
        by (symmetry; apply Z.leb_le; change (emax - prec)%Z with 971%Z; lia).
      cbn [SFpos_value]. rewrite bpow_succ.
      setoid_replace (inject_Z (Z.pos 9007199254740992))
        with (2 * inject_Z (Z.pos 4503599627370496)) by reflexivity.
      ring.
    + assert (Hd : (Z.pos (digits2_pos p) <= 53)%Z)
        by (apply digits2_small; lia).
      rewrite shr_nonpos by lia. cbn [shr_record_of_loc shr_m].
      replace (E <=? emax - prec)%Z with true
        by (symmetry; apply Z.leb_le; change (emax - prec)%Z with 971%Z; lia).
      cbn [SFpos_value]. reflexivity.
Qed.

(** [binary_round_aux] rounds a located positive value to nearest, ties
    to even. *)
Lemma binary_round_aux_rounded (p : positive) (e : Z) (l : location) (v : Q) :
  located v (Z.pos p) e l ->
  (l = loc_Exact \/ (e <= fexp prec emax (Zdigits2 (Z.pos p) + e))%Z) ->
  v < bpow 900 ->
  exists r,
    rounded v r /\
    SFpos_value (binary_round_aux prec emax false (Z.pos p) e l) r.
Proof.
  intros Hloc Hal Hv.
  destruct (located_binade v p e l Hloc) as [HK1 HK2].
  set (K := (Z.pos (digits2_pos p) + e)%Z) in *.
  assert (HK : (K <= 900)%Z).
  { assert (H : bpow (K - 1) < bpow 900) by lra. apply bpow_lt_inv in H. lia. }
  set (E := Z.max (K - 53) (-1074)).
  unfold binary_round_aux.
  change (shr_fexp prec emax (Z.pos p) e l)
    with (shr (shr_record_of_loc (Z.pos p) l) e
            (fexp prec emax (Zdigits2 (Z.pos p) + e) - e)).
  rewrite fexp64 in *. cbn [Zdigits2] in *. fold K in Hal |- *. fold E in Hal |- *.
  destruct (Z_le_gt_dec e E) as [Hle | Hgt].
  - (* the mantissa is shifted to the grid of [v] *)
    destruct (shr_located v (Z.pos p) e (E - e) l ltac:(lia) Hloc)
      as (Hq & He' & Hloc').
    destruct (shr (shr_record_of_loc (Z.pos p) l) e (E - e)) as [mrs' e'].
    cbn [fst snd] in Hq, He', Hloc'. subst e'.
    replace (e + Z.max 0 (E - e))%Z with E in * by lia.
    pose proof (round_nearest_even_correct _ _ _ _ Hloc') as Hne.
    set (M := round_nearest_even (shr_m mrs') (loc_of_shr_record mrs')) in *.
    assert (HM0 : (0 <= M)%Z).
    { unfold M, round_nearest_even.
      destruct (loc_of_shr_record mrs') as [|[]]; try lia.
      destruct (Z.even (shr_m mrs')); lia. }
    assert (HM : (M <= 2 ^ 53)%Z).
    { destruct Hne as (L & _ & _). pose proof (bpow_pos E) as Hb.
      assert (HP : bpow K <= inject_Z (2 ^ 53) * bpow E).
      { destruct (Z_le_gt_dec E K) as [H | H].
        - rewrite (bpow_split K E).
          apply Qmult_le_r; [exact Hb|]. rewrite <- bpow_Z by lia.
          apply bpow_le. unfold E. lia.
        - apply Qle_trans with (bpow E); [apply bpow_le; lia|].
          rewrite <- (Qmult_1_l (bpow E)) at 1.
          apply Qmult_le_r; [exact Hb|]. discriminate. }
      assert (H : (2 * M - 1 < 2 * 2 ^ 53)%Z); [|lia].
      apply (scaled_lt _ _ (bpow E) Hb).
      rewrite inject_Z_2m1, inject_Z_mult. change (inject_Z 2) with 2. lra. }
    exists (inject_Z M * bpow E). split.
    + exists M, E, K. split; [exact HK1|]. split; [exact HK2|].
      split; [reflexivity|]. split; [reflexivity | exact Hne].
    + apply normalise_rounded; unfold E; lia.
  - (* an exact value on a finer grid is kept *)
    destruct Hal as [-> | Hal]; [|lia].
    rewrite shr_nonpos by lia.
    cbn [shr_record_of_loc shr_m loc_of_shr_record round_nearest_even].
    cbn [located] in Hloc.
    assert (Hd : (Z.pos (digits2_pos p) < 53)%Z) by (unfold E, K in Hgt; lia).
    assert (Hp : (Z.pos p < 2 ^ 53)%Z).
    { destruct (digits2_pos_bounds p) as [_ D2].
      assert (H2 : (2 ^ Z.pos (digits2_pos p) <= 2 ^ 53)%Z)
        by (apply Z.pow_le_mono_r; lia).
      lia. }
    assert (He9 : (e < 900)%Z).
    { apply bpow_lt_inv. apply Qle_lt_trans with v; [|exact Hv].
      rewrite Hloc. rewrite <- (Qmult_1_l (bpow e)) at 1.
      apply Qmult_le_r; [apply bpow_pos|].
      change 1 with (inject_Z 1). rewrite <- Zle_Qle. lia. }
    assert (Hv' : v == inject_Z (Z.pos p * 2 ^ (e - E)) * bpow E).
    { rewrite Hloc, inject_Z_mult, <- bpow_Z by lia.
      rewrite (bpow_split e E). ring. }
    exists v. split.
    + exists (Z.pos p * 2 ^ (e - E))%Z, E, K.
      split; [exact HK1|]. split; [exact HK2|].
      split; [reflexivity|]. split; [exact Hv'|].
      pose proof (bpow_pos E) as Hb. unfold nearest_even.
      split; [lra | split; [lra | intros _; split; lra]].
    + apply (SFpos_value_ext _ (inject_Z (Z.pos p) * bpow e));
        [symmetry; exact Hloc|].
      apply normalise_rounded; unfold E in *; lia.
Qed.

(** ** Comparisons and values *)

Lemma valid_finite (s : bool) (m : positive) (e : Z) :
  valid_binary (S754_finite s m e) = true ->
  Z.max (Z.pos (digits2_pos m) + e - 53) (-1074) = e /\ (e <= 971)%Z.
Proof.
  cbn [SpecFloat.valid_binary]. unfold bounded, canonical_mantissa.
  rewrite fexp64. intros H. apply andb_prop in H. destruct H as [H1 H2].
  apply Z.eqb_eq in H1. apply Z.leb_le in H2.
  change (emax - prec)%Z with 971%Z in H2. auto.
Qed.

(** Canonical floats with a smaller exponent are smaller. *)
Lemma canonical_lt (m1 m2 : positive) (e1 e2 : Z) :
  Z.max (Z.pos (digits2_pos m1) + e1 - 53) (-1074) = e1 ->
  Z.max (Z.pos (digits2_pos m2) + e2 - 53) (-1074) = e2 ->
  (e1 < e2)%Z ->
  inject_Z (Z.pos m1) * bpow e1 < inject_Z (Z.pos m2) * bpow e2.
Proof.
  intros C1 C2 He.
  destruct (digits2_pos_bounds m1) as [_ U1].
  destruct (digits2_pos_bounds m2) as [L2 _].
  assert (D2 : Z.pos (digits2_pos m2) = 53%Z) by lia.
  assert (D1 : (Z.pos (digits2_pos m1) <= 53)%Z) by lia.
  rewrite D2 in L2. change (53 - 1)%Z with 52%Z in L2.
  assert (U1' : (Z.pos m1 < 2 ^ 53)%Z).
  { assert (H : (2 ^ Z.pos (digits2_pos m1) <= 2 ^ 53)%Z)
      by (apply Z.pow_le_mono_r; lia).
    lia. }
  pose proof (bpow_pos e1) as Hb1. pose proof (bpow_pos e2) as Hb2.
  apply Qlt_le_trans with (inject_Z (2 ^ 53) * bpow e1).
  - apply Qmult_lt_r; [exact Hb1|]. rewrite <- Zlt_Qlt. exact U1'.
  - apply Qle_trans with (inject_Z (2 ^ 52) * bpow e2).
    + rewrite <- !bpow_Z by lia. rewrite <- !bpow_add. apply bpow_le. lia.
    + apply scale_le; assumption.
Qed.

Lemma Qcompare_scaled (a c : Z) (b : Q) :
  0 < b -> (inject_Z a * b ?= inject_Z c * b) = (a ?= c)%Z.
Proof.
  intros Hb. destruct (Z.compare_spec a c) as [H | H | H].
  - subst. rewrite <- Qeq_alt. reflexivity.
  - rewrite <- Qlt_alt. apply Qmult_lt_r; [exact Hb|]. now rewrite <- Zlt_Qlt.
  - rewrite <- Qgt_alt. apply Qmult_lt_r; [exact Hb|]. now rewrite <- Zlt_Qlt.
Qed.

(** On valid floats that are not negative, the comparison of the format is
    the comparison of the values. *)
Lemma SFcompare_values (x y : spec_float) (rx ry : Q) :
  valid_binary x = true -> valid_binary y = true ->
  SFpos_value x rx -> SFpos_value y ry ->
  SFcompare x y = Some (rx ?= ry).
Proof.
  intros Vx Vy Hx Hy.
  destruct x as [sx | sx | | [|] mx ex]; cbn [SFpos_value] in Hx; try tauto;
    destruct y as [sy | sy | | [|] my ey]; cbn [SFpos_value] in Hy; try tauto;
    cbn [SFcompare]; f_equal; symmetry.
  - rewrite <- Qeq_alt. rewrite Hx, Hy. reflexivity.
  - rewrite <- Qlt_alt. rewrite Hx, Hy. pose proof (bpow_pos ey).
    assert (0 < inject_Z (Z.pos my)) by (change 0 with (inject_Z 0);
      rewrite <- Zlt_Qlt; lia).
    nra.
  - rewrite <- Qgt_alt. rewrite Hx, Hy. pose proof (bpow_pos ex).
    assert (0 < inject_Z (Z.pos mx)) by (change 0 with (inject_Z 0);
      rewrite <- Zlt_Qlt; lia).
    nra.
  - apply valid_finite in Vx, Vy. destruct Vx as [Cx _], Vy as [Cy _].
    rewrite Hx, Hy.
    destruct (Z.compare_spec ex ey) as [He | He | He].
    + subst ey. rewrite Qcompare_scaled by apply bpow_pos.
      rewrite Pos.compare_cont_spec. cbn [Z.compare].
      destruct (mx ?= my)%positive; reflexivity.
    + rewrite <- Qlt_alt. apply canonical_lt; assumption.
    + rewrite <- Qgt_alt. apply canonical_lt; assumption.
Qed.

Lemma SFleb_values (x y : spec_float) (rx ry : Q) :
  valid_binary x = true -> valid_binary y = true ->
  SFpos_value x rx -> SFpos_value y ry ->
  (SFleb x y = true <-> rx <= ry).
Proof.
  intros Vx Vy Hx Hy. unfold SFleb.
  rewrite (SFcompare_values x y rx ry Vx Vy Hx Hy). rewrite Qle_alt.
  destruct (rx ?= ry); split; intros H; try reflexivity; try discriminate;
    try congruence.
Qed.

Lemma SFltb_values (x y : spec_float) (rx ry : Q) :
  valid_binary x = true -> valid_binary y = true ->
  SFpos_value x rx -> SFpos_value y ry ->
  (SFltb x y = true <-> rx < ry).
Proof.
  intros Vx Vy Hx Hy. unfold SFltb.
  rewrite (SFcompare_values x y rx ry Vx Vy Hx Hy). rewrite Qlt_alt.
  destruct (rx ?= ry); split; intros H; try reflexivity; try discriminate.
Qed.

(** A value that is representable rounds to itself. *)
Lemma rounded_representable (m : positive) (e : Z) :
  valid_binary (S754_finite false m e) = true ->
  rounded (inject_Z (Z.pos m) * bpow e) (inject_Z (Z.pos m) * bpow e).
Proof.
  intros V. apply valid_finite in V. destruct V as [C _].
  assert (Hl : located (inject_Z (Z.pos m) * bpow e) (Z.pos m) e loc_Exact)
    by (cbn [located]; reflexivity).
  destruct (located_binade _ _ _ _ Hl) as [K1 K2].
  exists (Z.pos m), e, (Z.pos (digits2_pos m) + e)%Z.
  split; [exact K1|]. split; [exact K2|]. split; [lia|].
  split; [reflexivity|].
  pose proof (bpow_pos e) as Hb. unfold nearest_even.
  split; [lra | split; [lra | intros _; split; lra]].
Qed.

(** ** The operations round their exact results *)

Lemma rounded_arg_pos (v r : Q) : rounded v r -> 0 < v.
Proof.
  intros (M & E & K & A & _). pose proof (bpow_pos (K - 1)). lra.
Qed.

Lemma rounded_nonneg (v r : Q) : rounded v r -> 0 <= r.
Proof.
  intros (M & E & K & A & B & HE & R & (L & U & _)).
  pose proof (bpow_pos (K - 1)) as HK. pose proof (bpow_pos E) as Hb.
  assert (HM : (0 <= M)%Z).
  { assert (H : (0 < 2 * M + 1)%Z); [|lia].
    apply (scaled_lt _ _ (bpow E) Hb). rewrite inject_Z_2p1.
    change (inject_Z 0) with 0. lra. }
  rewrite R. apply Qmult_le_0_compat; [|lra].
  change 0 with (inject_Z 0). rewrite <- Zle_Qle. exact HM.
Qed.

Lemma rounded0_mono (v1 r1 v2 r2 : Q) :
  rounded0 v1 r1 -> rounded0 v2 r2 -> v1 <= v2 -> r1 <= r2.
Proof.
  intros [[Z1 R1] | H1] [[Z2 R2] | H2] Hv.
  - lra.
  - apply rounded_nonneg in H2. lra.
  - apply rounded_arg_pos in H1. lra.
  - eapply rounded_mono; eassumption.
Qed.

Lemma rounded_ext (v v' r r' : Q) :
  v == v' -> r == r' -> rounded v r -> rounded v' r'.
Proof.
  intros Hv Hr (M & E & K & A & B & HE & R & (L & U & S)).
  exists M, E, K.
  split; [rewrite <- Hv; exact A|]. split; [rewrite <- Hv; exact B|].
  split; [exact HE|]. split; [rewrite <- Hr; exact R|].
  unfold nearest_even. rewrite <- Hv. auto.
Qed.

Lemma rounded0_ext (v v' r : Q) : v == v' -> rounded0 v r -> rounded0 v' r.
Proof.
  intros Hv [[Hz R] | (M & E & K & A & B & HE & R & (L & U & S))].
  - left. split; [rewrite <- Hv; exact Hz | exact R].
  - right. exists M, E, K.
    split; [rewrite <- Hv; exact A|]. split; [rewrite <- Hv; exact B|].
    split; [exact HE|]. split; [exact R|].
    unfold nearest_even. rewrite <- Hv. auto.
Qed.

(** ** Multiplication *)

Lemma SFmul_rounded (x y : spec_float) (rx ry : Q) :
  SFpos_value x rx -> SFpos_value y ry -> rx * ry < bpow 900 ->
  exists r, SFpos_value (SFmul prec emax x y) r /\ rounded0 (rx * ry) r.
Proof.
  intros Hx Hy Hv.
  destruct x as [sx | sx | | [|] mx ex]; cbn [SFpos_value] in Hx; try tauto;
    destruct y as [sy | sy | | [|] my ey]; cbn [SFpos_value] in Hy; try tauto;
    cbn [SFmul].
  - exists 0. split; [reflexivity|]. left. split; [rewrite Hx; ring | reflexivity].
  - exists 0. split; [reflexivity|]. left. split; [rewrite Hx; ring | reflexivity].
  - exists 0. split; [reflexivity|]. left. split; [rewrite Hy; ring | reflexivity].
  - cbn [xorb].
    destruct (binary_round_aux_rounded (mx * my) (ex + ey) loc_Exact (rx * ry))
      as (r & Hr & Hs).
    + cbn [located]. rewrite Hx, Hy, Pos2Z.inj_mul, inject_Z_mult, bpow_add.
      ring.
    + left. reflexivity.
    + exact Hv.
    + exists r. split; [exact Hs | right; exact Hr].
Qed.

(** ** Alignment *)

Lemma Pos_iter_xO (m d : positive) :
  Z.pos (Pos.iter xO m d) = (Z.pos m * 2 ^ Z.pos d)%Z.
Proof.
  induction d as [|d IH] using Pos.peano_ind.
  - cbn [Pos.iter]. lia.
  - rewrite Pos.iter_succ, Pos2Z.inj_xO, IH, Pos2Z.inj_succ.
    rewrite Z.pow_succ_r by lia. lia.
Qed.

Lemma shl_align_value (m : positive) (e e' : Z) :
  inject_Z (Z.pos (fst (shl_align m e e'))) * bpow (snd (shl_align m e e'))
  == inject_Z (Z.pos m) * bpow e /\
  snd (shl_align m e e') = Z.min e e'.
Proof.
  unfold shl_align. destruct (e' - e)%Z as [|d|d] eqn:Hd; cbn [fst snd].
  - split; [reflexivity | lia].
  - split; [reflexivity | lia].
  - split; [|lia].
    rewrite Pos_iter_xO, inject_Z_mult, <- bpow_Z by lia.
    rewrite (bpow_split e e'). replace (e - e')%Z with (Z.pos d) by lia. ring.
Qed.

Lemma binary_round_rounded (m : positive) (e : Z) (v : Q) :
  v == inject_Z (Z.pos m) * bpow e -> v < bpow 900 ->
  exists r, rounded v r /\ SFpos_value (binary_round prec emax false m e) r.
Proof.
  intros Hv Hb. unfold binary_round.
  destruct (shl_align_value m e (fexp prec emax (Z.pos (digits2_pos m) + e)))
    as [Hval _].
  destruct (shl_align m e (fexp prec emax (Z.pos (digits2_pos m) + e)))
    as [mz ez]. cbn [fst snd] in Hval.
  apply binary_round_aux_rounded.
  - cbn [located]. rewrite Hv, Hval. reflexivity.
  - left. reflexivity.
  - exact Hb.
Qed.

(** ** Addition *)

Lemma SFadd_rounded (x y : spec_float) (rx ry : Q) :
  valid_binary x = true -> valid_binary y = true ->
  SFpos_value x rx -> SFpos_value y ry -> rx + ry < bpow 900 ->
  exists r, SFpos_value (SFadd prec emax x y) r /\ rounded0 (rx + ry) r.
Proof.
  intros Vx Vy Hx Hy Hv.
  destruct x as [sx | sx | | [|] mx ex]; cbn [SFpos_value] in Hx; try tauto;
    destruct y as [sy | sy | | [|] my ey]; cbn [SFpos_value] in Hy; try tauto;
    cbn [SFadd].
  - exists 0. split.
    + destruct sx, sy; reflexivity.
    + left. split; [rewrite Hx, Hy; ring | reflexivity].
  - exists ry. split; [exact Hy|]. right.
    apply (rounded_ext (inject_Z (Z.pos my) * bpow ey) _
             (inject_Z (Z.pos my) * bpow ey) _);
      [rewrite Hx, Hy; ring | symmetry; exact Hy
      | apply rounded_representable; exact Vy].
  - exists rx. split; [exact Hx|]. right.
    apply (rounded_ext (inject_Z (Z.pos mx) * bpow ex) _
             (inject_Z (Z.pos mx) * bpow ex) _);
      [rewrite Hx, Hy; ring | symmetry; exact Hx
      | apply rounded_representable; exact Vx].
  - cbn [cond_Zopp].
    destruct (shl_align_value mx ex (Z.min ex ey)) as [Vx' Ex'].
    destruct (shl_align_value my ey (Z.min ex ey)) as [Vy' Ey'].
    destruct (shl_align mx ex (Z.min ex ey)) as [ax ezx].
    destruct (shl_align my ey (Z.min ex ey)) as [ay ezy].
    cbn [fst snd] in *.
    replace (Z.min ex (Z.min ex ey)) with (Z.min ex ey) in Ex' by lia.
    replace (Z.min ey (Z.min ex ey)) with (Z.min ex ey) in Ey' by lia.
    subst ezx ezy.
    change (Z.pos ax + Z.pos ay)%Z with (Z.pos (ax + ay)).
    cbn [binary_normalize].
    destruct (binary_round_rounded (ax + ay) (Z.min ex ey) (rx + ry))
      as (r & Hr & Hs).
    + rewrite Hx, Hy, Pos2Z.inj_add, inject_Z_plus, <- Vx', <- Vy'. ring.
    + exact Hv.
    + exists r. split; [exact Hs | right; exact Hr].
Qed.

(** ** Subtraction of a smaller value *)

Lemma SFsub_rounded (x y : spec_float) (rx ry : Q) :
  valid_binary x = true -> valid_binary y = true ->
  SFpos_value x rx -> SFpos_value y ry -> ry <= rx -> rx < bpow 900 ->
  exists r, SFpos_value (SFsub prec emax x y) r /\ rounded0 (rx - ry) r.
Proof.
  intros Vx Vy Hx Hy Hle Hv.
  destruct x as [sx | sx | | [|] mx ex]; cbn [SFpos_value] in Hx; try tauto;
    destruct y as [sy | sy | | [|] my ey]; cbn [SFpos_value] in Hy; try tauto;
    cbn [SFsub].
  - exists 0. split.
    + destruct sx, sy; reflexivity.
    + left. split; [rewrite Hx, Hy; ring | reflexivity].
  - exfalso. pose proof (bpow_pos ey).
    assert (0 < inject_Z (Z.pos my)) by (change 0 with (inject_Z 0);
      rewrite <- Zlt_Qlt; lia).
    rewrite Hx, Hy in Hle. nra.
  - exists rx. split; [exact Hx|]. right.
    apply (rounded_ext (inject_Z (Z.pos mx) * bpow ex) _
             (inject_Z (Z.pos mx) * bpow ex) _);
      [rewrite Hx, Hy; ring | symmetry; exact Hx
      | apply rounded_representable; exact Vx].
  - cbn [cond_Zopp].
    destruct (shl_align_value mx ex (Z.min ex ey)) as [Vx' Ex'].
    destruct (shl_align_value my ey (Z.min ex ey)) as [Vy' Ey'].
    destruct (shl_align mx ex (Z.min ex ey)) as [ax ezx].
    destruct (shl_align my ey (Z.min ex ey)) as [ay ezy].
    cbn [fst snd] in *.
    replace (Z.min ex (Z.min ex ey)) with (Z.min ex ey) in Ex' by lia.
    replace (Z.min ey (Z.min ex ey)) with (Z.min ex ey) in Ey' by lia.
    subst ezx ezy.
    assert (Hd : rx - ry
                 == inject_Z (Z.pos ax - Z.pos ay) * bpow (Z.min ex ey)).
    { unfold Z.sub. rewrite Hx, Hy, inject_Z_plus, inject_Z_opp, <- Vx', <- Vy'.
      ring. }
    pose proof (bpow_pos (Z.min ex ey)) as Hb.
    destruct (Z.pos ax - Z.pos ay)%Z as [|d|d] eqn:Ed; cbn [binary_normalize].
    + exists 0. split; [reflexivity|]. left.
      split; [rewrite Hd; change (inject_Z 0) with 0; ring | reflexivity].
    + destruct (binary_round_rounded d (Z.min ex ey) (rx - ry))
        as (r & Hr & Hs).
      * exact Hd.
      * pose proof (bpow_pos ey).
        assert (0 < inject_Z (Z.pos my)) by (change 0 with (inject_Z 0);
          rewrite <- Zlt_Qlt; lia).
        rewrite Hy. nra.
      * exists r. split; [exact Hs | right; exact Hr].
    + exfalso.
      assert (Hn : inject_Z (Z.neg d) < 0)
        by (change 0 with (inject_Z 0); rewrite <- Zlt_Qlt; lia).
      assert (rx - ry < 0) by (rewrite Hd; nra).
      lra.
Qed.

(** ** Division *)

Lemma new_location_spec (n k : Z) :
  (0 <= k < n)%Z ->
  new_location n k
  = if (k =? 0)%Z then loc_Exact else loc_Inexact (2 * k ?= n)%Z.
Proof.
  intros Hk. unfold new_location, new_location_even, new_location_odd.
  destruct (Z.even n) eqn:Ev; destruct (k =? 0)%Z; try reflexivity.
  f_equal.
  assert (Ho : Z.odd n = true) by (rewrite <- Z.negb_even, Ev; reflexivity).
  apply Z.odd_spec in Ho. destruct Ho as (t & Ht).
  destruct (Z.compare_spec (2 * k + 1) n) as [H | H | H];
    symmetry; [apply Z.compare_lt_iff | apply Z.compare_lt_iff
              | apply Z.compare_gt_iff]; lia.
Qed.

Lemma digits2_lower (p : positive) (k : Z) :
  (2 ^ (k - 1) <= Z.pos p)%Z -> (1 <= k)%Z -> (k <= Z.pos (digits2_pos p))%Z.
Proof.
  intros H Hk. destruct (digits2_pos_bounds p) as [_ U].
  destruct (Z_le_gt_dec k (Z.pos (digits2_pos p))) as [Hle | Hgt]; [exact Hle|].
  exfalso.
  assert (H2 : (2 ^ Z.pos (digits2_pos p) <= 2 ^ (k - 1))%Z)
    by (apply Z.pow_le_mono_r; lia).
  lia.
Qed.

(** The quotient of the mantissas, with its location, and enough digits
    for one rounding. *)
Lemma SFdiv_core_located (mx my : positive) (ex ey : Z) (v : Q) :
  v * (inject_Z (Z.pos my) * bpow ey) == inject_Z (Z.pos mx) * bpow ex ->
  bpow (-900) <= v ->
  exists (q : positive) (e : Z) (l : location),
    SFdiv_core_binary prec emax (Z.pos mx) ex (Z.pos my) ey = (Z.pos q, e, l) /\
    located v (Z.pos q) e l /\
    (e <= fexp prec emax (Zdigits2 (Z.pos q) + e))%Z.
Proof.
  intros Hv Hlo. unfold SFdiv_core_binary. cbn [Zdigits2]. rewrite fexp64.
  destruct (digits2_pos_bounds mx) as [Lx Ux].
  destruct (digits2_pos_bounds my) as [Ly Uy].
  set (d1 := Z.pos (digits2_pos mx)) in *.
  set (d2 := Z.pos (digits2_pos my)) in *.
  assert (Hd1 : (1 <= d1)%Z) by (unfold d1; lia).
  assert (Hd2 : (1 <= d2)%Z) by (unfold d2; lia).
  set (X := (d1 + ex - (d2 + ey))%Z).
  pose proof (bpow_pos ex) as Hbx. pose proof (bpow_pos ey) as Hby.
  assert (Imx : 0 < inject_Z (Z.pos mx))
    by (change 0 with (inject_Z 0); rewrite <- Zlt_Qlt; lia).
  assert (Imy : 0 < inject_Z (Z.pos my))
    by (change 0 with (inject_Z 0); rewrite <- Zlt_Qlt; lia).
  (* the quotient is not tiny *)
  assert (HX : (-900 <= X)%Z).
  { assert (H : bpow (-900) < bpow (X + 1)); [|apply bpow_lt_inv in H; lia].
    apply Qle_lt_trans with v; [exact Hlo|].
    assert (H1 : inject_Z (Z.pos mx) * bpow ex < bpow (d1 + ex)).
    { rewrite bpow_add, (bpow_Z d1) by lia. apply Qmult_lt_r; [exact Hbx|].
      rewrite <- Zlt_Qlt. exact Ux. }
    assert (H2 : bpow (d2 - 1 + ey) <= inject_Z (Z.pos my) * bpow ey).
    { rewrite bpow_add, (bpow_Z (d2 - 1)) by lia. apply scale_le; assumption. }
    assert (H3 : bpow (d1 + ex) == bpow (X + 1) * bpow (d2 - 1 + ey)).
    { rewrite <- bpow_add. unfold X.
      replace (d1 + ex - (d2 + ey) + 1 + (d2 - 1 + ey))%Z with (d1 + ex)%Z
        by lia. reflexivity. }
    pose proof (bpow_pos (X + 1)) as HbX.
    pose proof (bpow_pos (d2 - 1 + ey)) as Hb2.
    pose proof (bpow_pos (-900)) as Hb9.
    assert (H4 : v * bpow (d2 - 1 + ey) < bpow (X + 1) * bpow (d2 - 1 + ey)).
    { rewrite <- H3. apply Qle_lt_trans with (inject_Z (Z.pos mx) * bpow ex);
        [|exact H1].
      rewrite <- Hv. apply Qmult_le_l; [lra | exact H2]. }
    apply Qmult_lt_r in H4; assumption. }
  replace (Z.max (X - 53) (-1074)) with (X - 53)%Z by lia.
  set (e' := Z.min (X - 53) (ex - ey)).
  set (s := (ex - ey - e')%Z).
  assert (Hs : (0 <= s)%Z) by (unfold s, e'; lia).
  assert (Hs' : (53 - d1 + d2 <= s)%Z) by (unfold s, e', X; lia).
  assert (Hm' : match s with
                | Z.pos _ => Z.shiftl (Z.pos mx) s
                | 0%Z => Z.pos mx
                | Z.neg _ => 0%Z
                end = (Z.pos mx * 2 ^ s)%Z).
  { destruct s as [|ps|ps] eqn:Es; [lia | | lia].
    rewrite Z.shiftl_mul_pow2 by lia. reflexivity. }
  rewrite Hm'. clear Hm'.
  set (m' := (Z.pos mx * 2 ^ s)%Z).
  pose proof (Z.div_eucl_eq m' (Z.pos my) ltac:(lia)) as Hdiv.
  pose proof (Z.mod_pos_bound m' (Z.pos my) ltac:(lia)) as Hmod.
  unfold Z.modulo in Hmod.
  destruct (Z.div_eucl m' (Z.pos my)) as [q r] eqn:Eqr.
  (* the quotient has at least 53 digits *)
  assert (Hq : (2 ^ (d1 + s - d2 - 1) <= q)%Z).
  { assert (Hp : (2 ^ (d1 + s - d2 - 1) * 2 ^ d2 <= m')%Z).
    { rewrite <- Z.pow_add_r by lia.
      replace (d1 + s - d2 - 1 + d2)%Z with ((d1 - 1) + s)%Z by lia.
      rewrite Z.pow_add_r by lia. unfold m'.
      apply Z.mul_le_mono_nonneg_r; [apply Z.pow_nonneg; lia | exact Lx]. }
    assert (Hp2 : (0 < 2 ^ (d1 + s - d2 - 1))%Z)
      by (apply Z.pow_pos_nonneg; lia).
    nia. }
  assert (Hq0 : (0 < q)%Z).
  { assert (Hp2 : (0 < 2 ^ (d1 + s - d2 - 1))%Z)
      by (apply Z.pow_pos_nonneg; lia).
    lia. }
  destruct q as [|q|q]; [lia | | lia].
  exists q, e', (new_location (Z.pos my) r). split; [reflexivity|]. split.
  - (* location *)
    rewrite new_location_spec by lia.
    pose proof (bpow_pos e') as Hb.
    assert (Hv' : v * inject_Z (Z.pos my)
                  == (inject_Z (Z.pos my) * inject_Z (Z.pos q) + inject_Z r)
                     * bpow e').
    { assert (H1 : inject_Z (Z.pos mx) * bpow ex
                   == inject_Z m' * bpow e' * bpow ey).
      { unfold m'. rewrite inject_Z_mult, <- (bpow_Z s) by lia.
        rewrite <- Qmult_assoc, <- Qmult_assoc, <- !bpow_add.
        replace (s + (e' + ey))%Z with ex by (unfold s; lia). reflexivity. }
      rewrite H1 in Hv.
      assert (H2 : v * inject_Z (Z.pos my) * bpow ey
                   == inject_Z m' * bpow e' * bpow ey) by (rewrite <- Hv; ring).
      apply Qmult_inj_r in H2; [|lra].
      rewrite H2, Hdiv, inject_Z_plus, inject_Z_mult. reflexivity. }
    set (Y := inject_Z (Z.pos my)) in *. set (Qq := inject_Z (Z.pos q)) in *.
    assert (Hr0 : 0 <= inject_Z r)
      by (change 0 with (inject_Z 0); rewrite <- Zle_Qle; lia).
    assert (HrY : inject_Z r < Y) by (unfold Y; rewrite <- Zlt_Qlt; lia).
    destruct (Z.eqb_spec r 0) as [Hr | Hr].
    + subst r. cbn [located]. change (inject_Z 0) with 0 in Hv'.
      assert (H : v * Y == (Qq * bpow e') * Y) by (rewrite Hv'; ring).
      apply Qmult_inj_r in H; [exact H | lra].
    + assert (Hrp : 0 < inject_Z r)
        by (change 0 with (inject_Z 0); rewrite <- Zlt_Qlt; lia).
      cbn [located].
      assert (A1 : Qq * bpow e' < v).
      { apply (Qmult_lt_r _ _ Y Imy). rewrite Hv'. nra. }
      assert (A2 : v < (Qq + 1) * bpow e').
      { apply (Qmult_lt_r _ _ Y Imy). rewrite Hv'. nra. }
      split; [exact A1|]. split; [exact A2|]. fold Qq.
      destruct (Z.compare_spec (2 * r) (Z.pos my)) as [H | H | H].
      * assert (H' : 2 * inject_Z r == Y).
        { unfold Y. rewrite <- H, inject_Z_mult. reflexivity. }
        assert (H2 : v * Y == ((Qq + (1 # 2)) * bpow e') * Y)
          by (rewrite Hv', <- H'; ring).
        apply Qmult_inj_r in H2; [exact H2 | lra].
      * assert (H' : 2 * inject_Z r < Y).
        { unfold Y. change 2 with (inject_Z 2).
          rewrite <- inject_Z_mult, <- Zlt_Qlt. exact H. }
        apply (Qmult_lt_r _ _ Y Imy). rewrite Hv'.
        assert (0 < (Y - 2 * inject_Z r) * bpow e')
          by (apply Qmult_lt_0_compat; lra).
        lra.
      * assert (H' : Y < 2 * inject_Z r).
        { unfold Y. change 2 with (inject_Z 2).
          rewrite <- inject_Z_mult, <- Zlt_Qlt. exact H. }
        apply (Qmult_lt_r _ _ Y Imy). rewrite Hv'.
        assert (0 < (2 * inject_Z r - Y) * bpow e')
          by (apply Qmult_lt_0_compat; lra).
        lra.
  - (* digits *)
    cbn [Zdigits2]. rewrite fexp64.
    assert (Hdq : (d1 + s - d2 <= Z.pos (digits2_pos q))%Z)
      by (apply digits2_lower; [exact Hq | lia]).
    unfold e', s, X in *. lia.
Qed.

Lemma SFdiv_rounded (x y : spec_float) (rx ry v : Q) :
  SFpos_value x rx -> SFpos_value y ry -> 0 < ry -> v * ry == rx ->
  (rx == 0 \/ bpow (-900) <= v) -> v < bpow 900 ->
  exists r, SFpos_value (SFdiv prec emax x y) r /\ rounded0 v r.
Proof.
  intros Hx Hy Hry Hv Hlo Hhi.
  destruct y as [sy | sy | | [|] my ey]; cbn [SFpos_value] in Hy; try tauto;
    [lra|].
  destruct x as [sx | sx | | [|] mx ex]; cbn [SFpos_value] in Hx; try tauto;
    cbn [SFdiv].
  - exists 0. split; [reflexivity|]. left. split; [|reflexivity].
    rewrite Hx in Hv. apply Qmult_integral in Hv. destruct Hv; [assumption|lra].
  - assert (Hrx : 0 < rx).
    { rewrite Hx. pose proof (bpow_pos ex).
      assert (0 < inject_Z (Z.pos mx)) by (change 0 with (inject_Z 0);
        rewrite <- Zlt_Qlt; lia).
      nra. }
    destruct Hlo as [Hz | Hlo]; [lra|].
    destruct (SFdiv_core_located mx my ex ey v) as (q & e & l & Ec & Hl & Hd).
    + rewrite <- Hx, <- Hy. exact Hv.
    + exact Hlo.
    + rewrite Ec. cbn [xorb].
      destruct (binary_round_aux_rounded q e l v Hl (or_intror Hd) Hhi)
        as (r & Hr & Hs).
      exists r. split; [exact Hs | right; exact Hr].
Qed.

(** ** Doubles between bounds *)

(** ** Bounds on doubles *)

Lemma leb_values (x y : float) (rx ry : Q) :
  fvalue x rx -> fvalue y ry -> (PrimFloat.leb x y = true <-> rx <= ry).
Proof.
  intros Hx Hy. rewrite leb_spec.
  apply SFleb_values; try assumption; apply Prim2SF_valid.
Qed.

Lemma ltb_values (x y : float) (rx ry : Q) :
  fvalue x rx -> fvalue y ry -> (PrimFloat.ltb x y = true <-> rx < ry).
Proof.
  intros Hx Hy. rewrite ltb_spec.
  apply SFltb_values; try assumption; apply Prim2SF_valid.
Qed.

Lemma fvalue_zero : fvalue PrimFloat.zero 0.
Proof. unfold fvalue. cbn. reflexivity. Qed.

Lemma fvalue_huge : fvalue huge (bpow 400).
Proof.
  unfold fvalue.
  change (Prim2SF huge) with (S754_finite false 4503599627370496 348).
  cbn [SFpos_value].
  change (Z.pos 4503599627370496) with (2 ^ 52)%Z.
  rewrite <- bpow_Z by lia. rewrite <- bpow_add. reflexivity.
Qed.

Lemma fvalue_tiny : fvalue tiny (bpow (-400)).
Proof.
  unfold fvalue.
  change (Prim2SF tiny) with (S754_finite false 4503599627370496 (-452)).
  cbn [SFpos_value].
  change (Z.pos 4503599627370496) with (2 ^ 52)%Z.
  rewrite <- bpow_Z by lia. rewrite <- bpow_add. reflexivity.
Qed.

Lemma nonneg_finite_value (x : spec_float) :
  nonneg_finite x -> exists r, SFpos_value x r.
Proof.
  destruct x as [s | s | | [|] m e]; cbn; try tauto; intros _.
  - exists 0. reflexivity.
  - eexists. reflexivity.
Qed.

Lemma SFpos_value_nonneg (x : spec_float) (r : Q) : SFpos_value x r -> 0 <= r.
Proof.
  destruct x as [s | s | | [|] m e]; cbn [SFpos_value]; try tauto;
    intros ->; [lra|].
  pose proof (bpow_pos e).
  assert (0 < inject_Z (Z.pos m)) by (change 0 with (inject_Z 0);
    rewrite <- Zlt_Qlt; lia).
  nra.
Qed.

Lemma nonneg_finite_not_negative (x : spec_float) :
  nonneg_finite x -> not_negative x.
Proof. destruct x as [s | [|] | | [|] m e]; cbn; tauto. Qed.

Lemma not_negative_up (a b : spec_float) :
  not_negative a -> SFleb a b = true -> not_negative b.
Proof.
  unfold SFleb.
  destruct a as [sa | [|] | | [|] ma ea]; cbn [not_negative]; try tauto;
    intros _;
    destruct b as [sb | [|] | | [|] mb eb]; cbn [SFcompare not_negative];
    try discriminate; auto.
Qed.

Lemma nonneg_finite_down (b c : spec_float) :
  not_negative b -> SFleb b c = true -> nonneg_finite c -> nonneg_finite b.
Proof.
  unfold SFleb.
  destruct b as [sb | [|] | | [|] mb eb]; cbn [not_negative nonneg_finite];
    try tauto; intros _;
    destruct c as [sc | [|] | | [|] mc ec]; cbn [SFcompare nonneg_finite];
    try discriminate; auto.
Qed.

(** A double between zero and [huge] has a value. *)
Lemma bounded_value (lo x : float) (rlo : Q) :
  fvalue lo rlo -> PrimFloat.leb lo x = true ->
  PrimFloat.leb x huge = true ->
  exists rx, fvalue x rx /\ rlo <= rx /\ rx <= bpow 400.
Proof.
  intros Vlo H1 H2.
  assert (Nlo : nonneg_finite (Prim2SF lo)).
  { unfold fvalue in Vlo.
    destruct (Prim2SF lo) as [s | s | | [|] m e]; cbn in *; tauto. }
  assert (Nx : nonneg_finite (Prim2SF x)).
  { apply (nonneg_finite_down _ (Prim2SF huge)).
    - apply (not_negative_up (Prim2SF lo)).
      + apply nonneg_finite_not_negative. exact Nlo.
      + rewrite <- leb_spec. exact H1.
    - rewrite <- leb_spec. exact H2.
    - exact I. }
  apply nonneg_finite_value in Nx. destruct Nx as [rx Vx].
  exists rx. split; [exact Vx|]. split.
  - apply (leb_values lo x); assumption.
  - apply (leb_values x huge); [assumption | apply fvalue_huge | assumption].
Qed.

Lemma within_values (lo hi x : float) :
  bounds_ok lo hi = true -> within lo hi x ->
  exists rlo rx rhi,
    fvalue lo rlo /\ fvalue x rx /\ fvalue hi rhi /\
    0 <= rlo /\ rlo <= rx /\ rx <= rhi /\ rhi <= bpow 400.
Proof.
  unfold bounds_ok, within. intros Hok [H1 H2].
  apply andb_prop in Hok. destruct Hok as [H0 H3].
  assert (Nhi : nonneg_finite (Prim2SF hi)).
  { apply (nonneg_finite_down _ (Prim2SF huge)); [| |exact I].
    - apply (not_negative_up (Prim2SF x)); [|rewrite <- leb_spec; exact H2].
      apply (not_negative_up (Prim2SF lo)); [|rewrite <- leb_spec; exact H1].
      apply (not_negative_up (Prim2SF PrimFloat.zero));
        [exact I | rewrite <- leb_spec; exact H0].
    - rewrite <- leb_spec. exact H3. }
  apply nonneg_finite_value in Nhi. destruct Nhi as [rhi Vhi].
  fold (fvalue hi rhi) in Vhi.
  assert (Bhi : rhi <= bpow 400)
    by (apply (leb_values hi huge);
        [assumption | apply fvalue_huge | assumption]).
  assert (Nx : nonneg_finite (Prim2SF x)).
  { apply (nonneg_finite_down _ (Prim2SF hi)).
    - apply (not_negative_up (Prim2SF lo)); [|rewrite <- leb_spec; exact H1].
      apply (not_negative_up (Prim2SF PrimFloat.zero));
        [exact I | rewrite <- leb_spec; exact H0].
    - rewrite <- leb_spec. exact H2.
    - unfold fvalue in Vhi.
      destruct (Prim2SF hi) as [s | s | | [|] m e]; cbn in *; tauto. }
  apply nonneg_finite_value in Nx. destruct Nx as [rx Vx].
  fold (fvalue x rx) in Vx.
  assert (Nlo : nonneg_finite (Prim2SF lo)).
  { apply (nonneg_finite_down _ (Prim2SF x)).
    - apply (not_negative_up (Prim2SF PrimFloat.zero));
        [exact I | rewrite <- leb_spec; exact H0].
    - rewrite <- leb_spec. exact H1.
    - unfold fvalue in Vx.
      destruct (Prim2SF x) as [s | s | | [|] m e]; cbn in *; tauto. }
  apply nonneg_finite_value in Nlo. destruct Nlo as [rlo Vlo].
  fold (fvalue lo rlo) in Vlo.
  exists rlo, rx, rhi.
  split; [exact Vlo|]. split; [exact Vx|]. split; [exact Vhi|].
  split; [exact (SFpos_value_nonneg _ _ Vlo)|].
  split; [apply (leb_values lo x); assumption|].
  split; [apply (leb_values x hi); assumption | exact Bhi].
Qed.

Lemma bpow_400_sq : bpow 400 * bpow 400 < bpow 900.
Proof. rewrite <- bpow_add. apply bpow_lt. lia. Qed.

(** ** Multiplication is monotone *)

Lemma mul_fvalue (x y : float) (rx ry : Q) :
  fvalue x rx -> fvalue y ry -> rx * ry < bpow 900 ->
  exists r, fvalue (PrimFloat.mul x y) r /\ rounded0 (rx * ry) r.
Proof.
  intros Hx Hy Hv. unfold fvalue. rewrite mul_spec.
  apply SFmul_rounded; assumption.
Qed.

Lemma mul_within (lo1 hi1 lo2 hi2 x y : float) :
  bounds_ok lo1 hi1 = true -> bounds_ok lo2 hi2 = true ->
  within lo1 hi1 x -> within lo2 hi2 y ->
  within (PrimFloat.mul lo1 lo2) (PrimFloat.mul hi1 hi2) (PrimFloat.mul x y).
Proof.
  intros O1 O2 W1 W2.
  destruct (within_values _ _ _ O1 W1)
    as (a & u & b & Va & Vu & Vb & A0 & A1 & A2 & A3).
  destruct (within_values _ _ _ O2 W2)
    as (c & w & d & Vc & Vw & Vd & C0 & C1 & C2 & C3).
  pose proof bpow_400_sq as Hsq.
  assert (Hlo : a * c <= u * w) by nra.
  assert (Hhi : u * w <= b * d) by nra.
  assert (Hbd : b * d <= bpow 400 * bpow 400) by nra.
  destruct (mul_fvalue lo1 lo2 a c Va Vc ltac:(lra)) as (r1 & F1 & R1).
  destruct (mul_fvalue x y u w Vu Vw ltac:(lra)) as (r2 & F2 & R2).
  destruct (mul_fvalue hi1 hi2 b d Vb Vd ltac:(lra)) as (r3 & F3 & R3).
  split.
  - apply (leb_values _ _ r1 r2 F1 F2). eapply rounded0_mono; eassumption.
  - apply (leb_values _ _ r2 r3 F2 F3). eapply rounded0_mono; eassumption.
Qed.

(** ** Addition is monotone *)

Lemma add_fvalue (x y : float) (rx ry : Q) :
  fvalue x rx -> fvalue y ry -> rx + ry < bpow 900 ->
  exists r, fvalue (PrimFloat.add x y) r /\ rounded0 (rx + ry) r.
Proof.
  intros Hx Hy Hv. unfold fvalue. rewrite add_spec.
  apply SFadd_rounded; try assumption; apply Prim2SF_valid.
Qed.

Lemma bpow_400_double : bpow 400 + bpow 400 < bpow 900.
Proof.
  assert (H : bpow 400 + bpow 400 == bpow 401)
    by (change 401%Z with (400 + 1)%Z; rewrite bpow_succ; ring).
  rewrite H. apply bpow_lt. lia.
Qed.

Lemma add_within (lo1 hi1 lo2 hi2 x y : float) :
  bounds_ok lo1 hi1 = true -> bounds_ok lo2 hi2 = true ->
  within lo1 hi1 x -> within lo2 hi2 y ->
  within (PrimFloat.add lo1 lo2) (PrimFloat.add hi1 hi2) (PrimFloat.add x y).
Proof.
  intros O1 O2 W1 W2.
  destruct (within_values _ _ _ O1 W1)
    as (a & u & b & Va & Vu & Vb & A0 & A1 & A2 & A3).
  destruct (within_values _ _ _ O2 W2)
    as (c & w & d & Vc & Vw & Vd & C0 & C1 & C2 & C3).
  pose proof bpow_400_double as Hsq.
  destruct (add_fvalue lo1 lo2 a c Va Vc ltac:(lra)) as (r1 & F1 & R1).
  destruct (add_fvalue x y u w Vu Vw ltac:(lra)) as (r2 & F2 & R2).
  destruct (add_fvalue hi1 hi2 b d Vb Vd ltac:(lra)) as (r3 & F3 & R3).
  split.
  - apply (leb_values _ _ r1 r2 F1 F2).
    eapply rounded0_mono; try eassumption. lra.
  - apply (leb_values _ _ r2 r3 F2 F3).
    eapply rounded0_mono; try eassumption. lra.
Qed.

(** ** Subtraction of a smaller double is monotone *)

Lemma sub_fvalue (x y : float) (rx ry : Q) :
  fvalue x rx -> fvalue y ry -> ry <= rx -> rx < bpow 900 ->
  exists r, fvalue (PrimFloat.sub x y) r /\ rounded0 (rx - ry) r.
Proof.
  intros Hx Hy Hle Hv. unfold fvalue. rewrite sub_spec.
  apply SFsub_rounded; try assumption; apply Prim2SF_valid.
Qed.

Lemma sub_within (lo1 hi1 lo2 hi2 x y : float) :
  bounds_ok lo1 hi1 = true -> bounds_ok lo2 hi2 = true ->
  PrimFloat.leb hi2 lo1 = true ->
  within lo1 hi1 x -> within lo2 hi2 y ->
  within (PrimFloat.sub lo1 hi2) (PrimFloat.sub hi1 lo2) (PrimFloat.sub x y).
Proof.
  intros O1 O2 Hsep W1 W2.
  destruct (within_values _ _ _ O1 W1)
    as (a & u & b & Va & Vu & Vb & A0 & A1 & A2 & A3).
  destruct (within_values _ _ _ O2 W2)
    as (c & w & d & Vc & Vw & Vd & C0 & C1 & C2 & C3).
  assert (Hda : d <= a) by (apply (leb_values hi2 lo1); assumption).
  assert (H9 : bpow 400 < bpow 900) by (apply bpow_lt; lia).
  destruct (sub_fvalue lo1 hi2 a d Va Vd ltac:(lra) ltac:(lra))
    as (r1 & F1 & R1).
  destruct (sub_fvalue x y u w Vu Vw ltac:(lra) ltac:(lra)) as (r2 & F2 & R2).
  destruct (sub_fvalue hi1 lo2 b c Vb Vc ltac:(lra) ltac:(lra))
    as (r3 & F3 & R3).
  split.
  - apply (leb_values _ _ r1 r2 F1 F2).
    eapply rounded0_mono; try eassumption. lra.
  - apply (leb_values _ _ r2 r3 F2 F3).
    eapply rounded0_mono; try eassumption. lra.
Qed.

(** ** Division by a positive double is monotone *)

Lemma div_fvalue (x y : float) (rx ry : Q) :
  fvalue x rx -> fvalue y ry -> 0 < ry ->
  (rx == 0 \/ bpow (-900) <= rx / ry) -> rx / ry < bpow 900 ->
  exists r, fvalue (PrimFloat.div x y) r /\ rounded0 (rx / ry) r.
Proof.
  intros Hx Hy Hry Hlo Hhi. unfold fvalue. rewrite div_spec.
  apply (SFdiv_rounded _ _ rx ry); try assumption.
  field. lra.
Qed.

Lemma leb_tiny_zero (x : float) :
  PrimFloat.leb tiny x = true -> PrimFloat.leb PrimFloat.zero x = true.
Proof.
  rewrite !leb_spec.
  change (Prim2SF tiny) with (S754_finite false 4503599627370496 (-452)).
  change (Prim2SF PrimFloat.zero) with (S754_zero false).
  unfold SFleb.
  destruct (Prim2SF x) as [s | [|] | | [|] m e]; cbn [SFcompare];
    try discriminate; auto.
Qed.

Lemma div_within (lo hi d x : float) :
  positive_bounds_ok lo hi = true -> positive_bounds_ok d d = true ->
  within lo hi x ->
  within (PrimFloat.div lo d) (PrimFloat.div hi d) (PrimFloat.div x d).
Proof.
  intros O1 O2 W.
  unfold positive_bounds_ok in O1, O2.
  apply andb_prop in O1, O2. destruct O1 as [T1 B1], O2 as [T2 B2].
  assert (O : bounds_ok lo hi = true).
  { unfold bounds_ok. rewrite (leb_tiny_zero lo T1), B1. reflexivity. }
  destruct (within_values _ _ _ O W)
    as (a & u & b & Va & Vu & Vb & A0 & A1 & A2 & A3).
  assert (Ta : bpow (-400) <= a)
    by (apply (leb_values tiny lo); [apply fvalue_tiny | assumption..]).
  destruct (bounded_value tiny d (bpow (-400)) fvalue_tiny T2 B2)
    as (rd & Vd & D1 & D2).
  pose proof (bpow_pos (-400)) as P1. pose proof (bpow_pos (-900)) as P2.
  assert (E1 : bpow (-900) * bpow 400 == bpow (-500))
    by (rewrite <- bpow_add; reflexivity).
  assert (E2 : bpow 900 * bpow (-400) == bpow 500)
    by (rewrite <- bpow_add; reflexivity).
  assert (E3 : bpow (-500) < bpow (-400)) by (apply bpow_lt; lia).
  assert (E4 : bpow 400 < bpow 500) by (apply bpow_lt; lia).
  pose proof (bpow_pos 900) as P3.
  assert (Hrd : 0 < rd) by lra.
  assert (Lq : forall t, a <= t -> t <= bpow 400 ->
               bpow (-900) <= t / rd /\ t / rd < bpow 900).
  { intros t Ht1 Ht2. split.
    - apply Qle_shift_div_l; [exact Hrd|]. nra.
    - apply Qlt_shift_div_r; [exact Hrd|]. nra. }
  assert (Mq : forall s t, s <= t -> s / rd <= t / rd).
  { intros s t Hst. unfold Qdiv. apply Qmult_le_compat_r; [exact Hst|].
    apply Qinv_le_0_compat. lra. }
  destruct (Lq a ltac:(lra) ltac:(lra)) as [La Ua].
  destruct (Lq u ltac:(lra) ltac:(lra)) as [Lu Uu].
  destruct (Lq b ltac:(lra) ltac:(lra)) as [Lb Ub].
  destruct (div_fvalue lo d a rd Va Vd Hrd (or_intror La) Ua) as (r1 & F1 & R1).
  destruct (div_fvalue x d u rd Vu Vd Hrd (or_intror Lu) Uu) as (r2 & F2 & R2).
  destruct (div_fvalue hi d b rd Vb Vd Hrd (or_intror Lb) Ub) as (r3 & F3 & R3).
  split.
  - apply (leb_values _ _ r1 r2 F1 F2).
    eapply rounded0_mono; try eassumption. apply Mq. exact A1.
  - apply (leb_values _ _ r2 r3 F2 F3).
    eapply rounded0_mono; try eassumption. apply Mq. exact A2.
Qed.

(** ** Order facts *)

Lemma not_negative_cases (x : spec_float) :
  not_negative x -> x = S754_infinity false \/ nonneg_finite x.
Proof. destruct x as [s | [|] | | [|] m e]; cbn; tauto. Qed.

Lemma SFleb_trans (a b c : spec_float) :
  valid_binary a = true -> valid_binary b = true -> valid_binary c = true ->
  not_negative a -> SFleb a b = true -> SFleb b c = true -> SFleb a c = true.
Proof.
  intros Va Vb Vc Na Hab Hbc.
  pose proof (not_negative_up a b Na Hab) as Nb.
  pose proof (not_negative_up b c Nb Hbc) as Nc.
  destruct (not_negative_cases c Nc) as [-> | Fc].
  - destruct a as [sa | [|] | | [|] ma ea]; cbn in Na |- *; tauto.
  - pose proof (nonneg_finite_down b c Nb Hbc Fc) as Fb.
    pose proof (nonneg_finite_down a b Na Hab Fb) as Fa.
    apply nonneg_finite_value in Fa, Fb, Fc.
    destruct Fa as [ra Ha], Fb as [rb Hb], Fc as [rc Hc].
    apply (SFleb_values a b ra rb) in Hab; try assumption.
    apply (SFleb_values b c rb rc) in Hbc; try assumption.
    apply (SFleb_values a c ra rc); try assumption. lra.
Qed.

Lemma leb_trans (a b c : float) :
  PrimFloat.leb PrimFloat.zero a = true ->
  PrimFloat.leb a b = true -> PrimFloat.leb b c = true ->
  PrimFloat.leb a c = true.
Proof.
  rewrite !leb_spec. intros H0 Hab Hbc.
  apply (SFleb_trans _ (Prim2SF b)); try apply Prim2SF_valid; try assumption.
  apply (not_negative_up (Prim2SF PrimFloat.zero)); [exact I | exact H0].
Qed.

Lemma within_weaken (lo hi lo' hi' x : float) :
  PrimFloat.leb PrimFloat.zero lo' = true ->
  PrimFloat.leb lo' lo = true -> PrimFloat.leb hi hi' = true ->
  within lo hi x -> within lo' hi' x.
Proof.
  intros H0 Hlo Hhi [H1 H2].
  assert (H0lo : PrimFloat.leb PrimFloat.zero lo = true)
    by (apply (leb_trans _ lo'); [reflexivity | assumption..]).
  assert (H0x : PrimFloat.leb PrimFloat.zero x = true)
    by (apply (leb_trans _ lo); [reflexivity | assumption..]).
  split.
  - apply (leb_trans _ lo); assumption.
  - apply (leb_trans _ hi); assumption.
Qed.

(** A double above a positive bound is positive. *)
Lemma positive_above (lo x : float) :
  PrimFloat.ltb PrimFloat.zero lo = true -> PrimFloat.leb lo x = true ->
  PrimFloat.ltb PrimFloat.zero x = true.
Proof.
  rewrite !ltb_spec, leb_spec.
  change (Prim2SF PrimFloat.zero) with (S754_zero false).
  unfold SFltb, SFleb.
  destruct (Prim2SF lo) as [sl | [|] | | [|] ml el]; cbn [SFcompare];
    try discriminate; intros _;
    destruct (Prim2SF x) as [sx | [|] | | [|] mx ex]; cbn [SFcompare];
    try discriminate; auto.
Qed.

(** Doubles with values are totally ordered. *)
Lemma leb_total (lo hi x c : float) :
  bounds_ok lo hi = true -> bounds_ok c c = true -> within lo hi x ->
  PrimFloat.leb x c = true \/ PrimFloat.leb c x = true.
Proof.
  intros O Oc W.
  destruct (within_values _ _ _ O W) as (_ & rx & _ & _ & Vx & _).
  unfold bounds_ok in Oc. apply andb_prop in Oc. destruct Oc as [C0 C1].
  destruct (bounded_value PrimFloat.zero c 0 fvalue_zero C0 C1) as (rc & Vc & _).
  destruct (Qlt_le_dec rc rx) as [H | H].
  - right. apply (leb_values c x rc rx Vc Vx). lra.
  - left. apply (leb_values x c rx rc Vx Vc). exact H.
Qed.

(** ** Rounding to an integer and to two decimals *)

Local Close Scope Q_scope.

Lemma float_rint_raw (y : float) :
  PrimFloat.leb PrimFloat.zero y = true ->
  PrimFloat.ltb y two52 = true ->
  PrimFloat.ltb PrimFloat.zero (rint_raw y) = true ->
  float_rint y = rint_raw y.
Proof.
  intros H0 H1 H2. unfold float_rint. fold (rint_raw y).
  assert (A : PrimFloat.ltb (PrimFloat.abs y) two52 = true).
  { rewrite ltb_spec, abs_spec. rewrite ltb_spec in H1. rewrite leb_spec in H0.
    change (Prim2SF PrimFloat.zero) with (S754_zero false) in H0.
    unfold SFltb, SFleb in *.
    destruct (Prim2SF y) as [s | [|] | | [|] m e]; cbn [SFabs SFcompare] in *;
      try discriminate; try exact H1. }
  assert (B : PrimFloat.ltb y PrimFloat.zero = false).
  { rewrite ltb_spec. rewrite leb_spec in H0.
    change (Prim2SF PrimFloat.zero) with (S754_zero false) in *.
    unfold SFltb, SFleb in *.
    destruct (Prim2SF y) as [s | [|] | | [|] m e]; cbn [SFcompare] in *;
      try discriminate; reflexivity. }
  assert (C : PrimFloat.eqb (rint_raw y) PrimFloat.zero = false).
  { rewrite eqb_spec. rewrite ltb_spec in H2.
    change (Prim2SF PrimFloat.zero) with (S754_zero false) in *.
    unfold SFltb, SFeqb in *.
    destruct (Prim2SF (rint_raw y)) as [s | [|] | | [|] m e];
      cbn [SFcompare] in *; try discriminate; reflexivity. }
  rewrite A, B, C. reflexivity.
Qed.

Lemma leb_ltb_trans (x hi c : float) (lo : float) :
  bounds_ok lo hi = true -> within lo hi x ->
  PrimFloat.ltb hi c = true -> PrimFloat.ltb x c = true.
Proof.
  intros O W H.
  destruct (within_values _ _ _ O W) as (_ & rx & rhi & _ & Vx & Vhi & _ & _
                                         & Hle & _).
  rewrite ltb_spec in *.
  pose proof (Prim2SF_valid c) as Vc.
  pose proof (Prim2SF_valid x) as Vx'. pose proof (Prim2SF_valid hi) as Vhi'.
  unfold fvalue in Vx, Vhi.
  destruct (Prim2SF c) as [s | [|] | | [|] m e] eqn:Ec.
  - (* zero *)
    apply (SFltb_values _ _ rhi 0%Q Vhi' Vc Vhi) in H; [|cbn; reflexivity].
    apply (SFltb_values _ _ rx 0%Q Vx' Vc Vx); [cbn; reflexivity|].
    apply Qle_lt_trans with rhi; assumption.
  - (* minus infinity *)
    unfold SFltb in H.
    destruct (Prim2SF hi) as [sh | [|] | | [|] mh eh]; cbn in Vhi, H;
      try tauto; discriminate.
  - (* plus infinity *)
    unfold SFltb.
    destruct (Prim2SF x) as [sx | [|] | | [|] mx ex]; cbn in Vx |- *;
      try tauto; reflexivity.
  - (* not a number *)
    unfold SFltb in H.
    destruct (Prim2SF hi) as [sh | [|] | | [|] mh eh]; cbn in Vhi, H;
      try tauto; discriminate.
  - (* negative *)
    unfold SFltb in H.
    destruct (Prim2SF hi) as [sh | [|] | | [|] mh eh]; cbn in Vhi, H;
      try tauto; discriminate.
  - (* positive *)
    apply (SFltb_values _ _ rhi (inject_Z (Z.pos m) * bpow e) Vhi' Vc Vhi)
      in H; [|cbn; reflexivity].
    apply (SFltb_values _ _ rx (inject_Z (Z.pos m) * bpow e) Vx' Vc Vx);
      [cbn; reflexivity|].
    apply Qle_lt_trans with rhi; assumption.
Qed.

Lemma ltb_leb (a b : float) :
  PrimFloat.ltb a b = true -> PrimFloat.leb a b = true.
Proof.
  rewrite ltb_spec, leb_spec. unfold SFltb, SFleb.
  destruct (SFcompare (Prim2SF a) (Prim2SF b)) as [[| |]|];
    try discriminate; reflexivity.
Qed.

Lemma float_rint_within (lo hi x : float) :
  rint_ok lo hi = true -> within lo hi x ->
  within (rint_raw lo) (rint_raw hi) (float_rint x).
Proof.
  unfold rint_ok. intros Hok W.
  apply andb_prop in Hok. destruct Hok as [Hok P].
  apply andb_prop in Hok. destruct Hok as [Hok S].
  apply andb_prop in Hok. destruct Hok as [Hok O2].
  apply andb_prop in Hok. destruct Hok as [O1 T].
  assert (W2 : within two52 two52 two52) by (split; reflexivity).
  pose proof (add_within lo hi two52 two52 x two52 O1 eq_refl W W2) as Wa.
  pose proof (sub_within _ _ two52 two52 _ two52 O2 eq_refl S Wa W2) as Ws.
  fold (rint_raw lo) in Ws. fold (rint_raw hi) in Ws. fold (rint_raw x) in Ws.
  rewrite float_rint_raw; [exact Ws | | |].
  - unfold bounds_ok in O1. apply andb_prop in O1. destruct O1 as [O1 _].
    destruct W as [W _]. apply (leb_trans _ lo); [reflexivity | assumption..].
  - apply (leb_ltb_trans x hi two52 lo); assumption.
  - apply (positive_above (rint_raw lo)); [exact P | apply Ws].
Qed.

Lemma np_round_round2 (x : float) : @np_round binary64 x 2 = round2 x.
Proof. reflexivity. Qed.

Lemma round2_within (lo hi x : float) :
  round2_ok lo hi = true -> within lo hi x ->
  within (round2_lo lo) (round2_lo hi) (round2 x).
Proof.
  unfold round2_ok. intros Hok W.
  apply andb_prop in Hok. destruct Hok as [Hok P].
  apply andb_prop in Hok. destruct Hok as [O R].
  assert (W2 : within 100%float 100%float 100%float) by (split; reflexivity).
  pose proof (mul_within lo hi 100%float 100%float x 100%float O eq_refl W W2)
    as Wm.
  pose proof (float_rint_within _ _ _ R Wm) as Wr.
  exact (div_within _ _ 100%float _ P eq_refl Wr).
Qed.

(** ** Bounds of an arithmetic expression on doubles *)

(** ** Interval evaluation of expressions *)

Lemma in_box_nth (box : list (float * float)) (env : list float) :
  in_box box env ->
  forall i lo hi,
    nth_error box i = Some (lo, hi) -> within lo hi (nth i env PrimFloat.zero).
Proof.
  induction 1 as [|p x box env Hp _ IH]; intros [|i] lo hi H;
    cbn [nth_error nth] in *; try discriminate.
  - injection H as ->. exact Hp.
  - exact (IH i lo hi H).
Qed.

(** Interval evaluation is sound. *)
Lemma fbounds_sound (box : list (float * float)) (env : list float) :
  in_box box env ->
  forall e lo hi,
    fbounds box e = Some (lo, hi) -> within lo hi (feval env e).
Proof.
  intros Hbox e.
  induction e as [i | c | e1 IH1 e2 IH2 | e1 IH1 e2 IH2 | e1 IH1 e2 IH2
                 | e1 IH1]; intros lo hi H; cbn [fbounds feval] in *.
  - exact (in_box_nth box env Hbox i lo hi H).
  - destruct (PrimFloat.leb c c) eqn:E; [|discriminate H].
    injection H as <- <-. split; exact E.
  - destruct (fbounds box e1) as [[a b]|]; [|discriminate H].
    destruct (fbounds box e2) as [[c d]|]; [|discriminate H].
    destruct (bounds_ok a b && bounds_ok c d) eqn:E; [|discriminate H].
    apply andb_prop in E. destruct E as [E1 E2]. injection H as <- <-.
    exact (add_within a b c d _ _ E1 E2 (IH1 a b eq_refl) (IH2 c d eq_refl)).
  - destruct (fbounds box e1) as [[a b]|]; [|discriminate H].
    destruct (fbounds box e2) as [[c d]|]; [|discriminate H].
    destruct (bounds_ok a b && bounds_ok c d && PrimFloat.leb d a) eqn:E;
      [|discriminate H].
    apply andb_prop in E. destruct E as [E E3].
    apply andb_prop in E. destruct E as [E1 E2]. injection H as <- <-.
    exact (sub_within a b c d _ _ E1 E2 E3 (IH1 a b eq_refl) (IH2 c d eq_refl)).
  - destruct (fbounds box e1) as [[a b]|]; [|discriminate H].
    destruct (fbounds box e2) as [[c d]|]; [|discriminate H].
    destruct (bounds_ok a b && bounds_ok c d) eqn:E; [|discriminate H].
    apply andb_prop in E. destruct E as [E1 E2]. injection H as <- <-.
    exact (mul_within a b c d _ _ E1 E2 (IH1 a b eq_refl) (IH2 c d eq_refl)).
  - destruct (fbounds box e1) as [[a b]|]; [|discriminate H].
    destruct (round2_ok a b) eqn:E; [|discriminate H]. injection H as <- <-.
    exact (round2_within a b _ E (IH1 a b eq_refl)).
Qed.

Lemma piece_sound rest e l a b env g :
  PrimFloat.leb PrimFloat.zero l = true ->
  piece_ok rest e l a b = true -> in_box rest env -> within a b g ->
  PrimFloat.leb l (feval (g :: env) e) = true.
Proof.
  unfold piece_ok. intros Hl Hok Hbox Hg.
  apply andb_prop in Hok. destruct Hok as [_ Hok].
  destruct (fbounds ((a, b) :: rest) e) as [[lo hi]|] eqn:E; [|discriminate Hok].
  assert (W : within lo hi (feval (g :: env) e)).
  { apply (fbounds_sound ((a, b) :: rest)); [|exact E].
    constructor; [exact Hg | exact Hbox]. }
  apply (leb_trans _ lo); [exact Hl | exact Hok | apply W].
Qed.

Lemma leb_total_values (x c : float) (rx rc : Q) :
  fvalue x rx -> fvalue c rc ->
  PrimFloat.leb x c = true \/ PrimFloat.leb c x = true.
Proof.
  intros Vx Vc. destruct (Qlt_le_dec rc rx) as [H | H].
  - right. apply (leb_values c x rc rx Vc Vx). apply Qlt_le_weak. exact H.
  - left. apply (leb_values x c rx rc Vx Vc). exact H.
Qed.

Lemma pieces_sound rest e l env g (rg : Q) top (cuts : list float) :
  PrimFloat.leb PrimFloat.zero l = true ->
  in_box rest env -> fvalue g rg ->
  forall a,
    PrimFloat.leb PrimFloat.zero a = true ->
    pieces_ok rest e l a cuts top = true ->
    within a top g ->
    PrimFloat.leb l (feval (g :: env) e) = true.
Proof.
  intros Hl Hbox Vg.
  induction cuts as [|b cuts IH]; intros a Ha Hok Hg; cbn [pieces_ok] in Hok.
  - exact (piece_sound rest e l a top env g Hl Hok Hbox Hg).
  - apply andb_prop in Hok. destruct Hok as [Hp Hrest].
    assert (Hab : PrimFloat.leb a b = true /\ bounds_ok a b = true).
    { unfold piece_ok in Hp. apply andb_prop in Hp. destruct Hp as [Hp _].
      apply andb_prop in Hp. exact Hp. }
    destruct Hab as [Hab Hbb].
    unfold bounds_ok in Hbb. apply andb_prop in Hbb. destruct Hbb as [_ Hbh].
    assert (Hb : PrimFloat.leb PrimFloat.zero b = true)
      by (apply (leb_trans _ a); [reflexivity | assumption..]).
    destruct (bounded_value PrimFloat.zero b 0%Q fvalue_zero Hb Hbh)
      as (rb & Vb & _).
    destruct (leb_total_values g b rg rb Vg Vb) as [H | H].
    + apply (piece_sound rest e l a b env g Hl Hp Hbox).
      split; [apply Hg | exact H].
    + apply (IH b Hb Hrest). split; [exact H | apply Hg].
Qed.

(** ** The guarded generator honours the contracts *)

Lemma SFcompare_refl (x : spec_float) :
  x <> S754_nan -> SFcompare x x = Some Eq.
Proof.
  destruct x as [s | [|] | | [|] m e]; cbn [SFcompare]; try reflexivity;
    try congruence; intros _; rewrite Z.compare_refl, Pos.compare_cont_refl;
    reflexivity.
Qed.

Lemma ltb_leb_refl (lo hi : float) :
  PrimFloat.ltb lo hi = true ->
  PrimFloat.leb lo lo = true /\ PrimFloat.leb lo hi = true.
Proof.
  intros H. split; [|apply ltb_leb; exact H].
  rewrite ltb_spec in H. rewrite leb_spec. unfold SFltb, SFleb in *.
  rewrite SFcompare_refl; [reflexivity|].
  intros E. rewrite E in H. discriminate H.
Qed.

Lemma guarded_uniform_law (tape : list Z) : uniform_law64 (guarded tape).
Proof.
  intros lo hi n s x Hlt. cbn [uniform guarded].
  destruct (@uniform binary64 (scripted tape) lo hi n s) as [xs s'].
  cbn [fst]. rewrite in_map_iff. intros (y & <- & _). unfold clamp.
  destruct (PrimFloat.leb lo y && PrimFloat.leb y hi) eqn:E.
  - apply andb_prop in E. exact E.
  - exact (ltb_leb_refl lo hi Hlt).
Qed.

Lemma guarded_randint_law (tape : list Z) : randint_law (guarded tape).
Proof.
  intros lo hi n s x. exact (scripted_randint_law (F := binary64) tape lo hi n s x).
Qed.

Lemma guarded_size_law (tape : list Z) : size_law (guarded tape).
Proof.
  intros n s.
  destruct (scripted_size_law (F := binary64) tape n s) as (H1 & H2 & H3).
  split; [exact H1|]. split; [exact H2|].
  intros lo hi. specialize (H3 lo hi). cbn [uniform guarded].
  destruct (@uniform binary64 (scripted tape) lo hi n s) as [xs s'].
  cbn [fst] in *. rewrite length_map. exact H3.
Qed.

(** ** Gross wages and net pay on doubles *)

Lemma regular_hours_within (h : Z) :
  70 <= h < 81 -> within 70%float 80%float (float_of_int h).
Proof.
  intros H.
  assert (C : h = 70 \/ h = 71 \/ h = 72 \/ h = 73 \/ h = 74 \/ h = 75 \/
              h = 76 \/ h = 77 \/ h = 78 \/ h = 79 \/ h = 80) by lia.
  repeat destruct C as [-> | C]; try subst h; split; reflexivity.
Qed.

Lemma overtime_hours_within (o : Z) :
  0 <= o < 11 -> within 0%float 10%float (float_of_int o).
Proof.
  intros H.
  assert (C : o = 0 \/ o = 1 \/ o = 2 \/ o = 3 \/ o = 4 \/ o = 5 \/
              o = 6 \/ o = 7 \/ o = 8 \/ o = 9 \/ o = 10) by lia.
  repeat destruct C as [-> | C]; try subst o; split; reflexivity.
Qed.

(** Unrounded gross wages lie between 1050 and 4750. *)
Lemma gross_of_within (h o : Z) (r : float) :
  70 <= h < 81 -> 0 <= o < 11 ->
  within (@f_of_int binary64 15) (@f_of_int binary64 50) r ->
  within 1050%float 4750%float (@gross_of binary64 h o r).
Proof.
  intros Hh Ho Hr.
  change (@gross_of binary64 h o r)
    with (feval [float_of_int h; float_of_int o; r] gross_expr).
  apply (fbounds_sound gross_box); [|reflexivity].
  constructor; [exact (regular_hours_within h Hh)|].
  constructor; [exact (overtime_hours_within o Ho)|].
  constructor; [exact Hr | constructor].
Qed.

(** The draws of one row lie in their ranges. *)
Lemma row_draws_within (R : @RandomState binary64) (n : nat) (d : Draws)
    (i : nat) (h o : Z) (r fr sr hi re od : float) :
  randint_law R -> uniform_law64 R -> drawn_from R n d ->
  nth_error (d_regular_hours d) i = Some h ->
  nth_error (d_overtime_hours d) i = Some o ->
  nth_error (d_base_rates d) i = Some r ->
  nth_error (d_federal_rates d) i = Some fr ->
  nth_error (d_state_rates d) i = Some sr ->
  nth_error (d_health_insurance d) i = Some hi ->
  nth_error (d_retirement d) i = Some re ->
  nth_error (d_other_deductions d) i = Some od ->
  70 <= h < 81 /\ 0 <= o < 11 /\
  within (@f_of_int binary64 15) (@f_of_int binary64 50) r /\
  in_box rates_box [fr; sr; hi; re; od].
Proof.
  intros Hint Huni Hd Hrh Hoh Hr Hfr Hsr Hhi Hre Hod.
  destruct Hd as ((s1 & E1) & (s2 & E2) & (s3 & E3) & (s4 & E4) & (s5 & E5)
                  & (s6 & E6) & (s7 & E7) & (s8 & E8)).
  rewrite E1 in Hrh. rewrite E2 in Hoh. rewrite E3 in Hr. rewrite E4 in Hfr.
  rewrite E5 in Hsr. rewrite E6 in Hhi. rewrite E7 in Hre. rewrite E8 in Hod.
  apply nth_error_In in Hrh, Hoh, Hr, Hfr, Hsr, Hhi, Hre, Hod.
  apply Hint in Hrh; [|lia]. apply Hint in Hoh; [|lia].
  apply Huni in Hr; [|reflexivity]. apply Huni in Hfr; [|reflexivity].
  apply Huni in Hsr; [|reflexivity]. apply Huni in Hhi; [|reflexivity].
  apply Huni in Hre; [|reflexivity]. apply Huni in Hod; [|reflexivity].
  split; [exact Hrh|]. split; [exact Hoh|]. split; [exact Hr|].
  constructor; [exact Hfr|]. constructor; [exact Hsr|].
  constructor; [exact Hhi|]. constructor; [exact Hre|].
  constructor; [exact Hod | constructor].
Qed.

(** C10.  When the generator keeps [randint] within its half-open range
    and [uniform] between its bounds, every row the CPU generator produces
    has, in the double-precision arithmetic of the program, a stored
    [Net Pay] of at least 549.17, hence strictly positive. *)
Theorem net_pay_positive
    (np cp : @RandomState binary64) (n : Z)
    (w : World np cp) (df : @DataFrame binary64) (w' : World np cp) :
  randint_law np -> uniform_law64 np ->
  simulate_complex_payroll_data_cpu np cp n w = (Returned df, w') ->
  forall i row,
    iloc df i = Some row ->
    PrimFloat.leb (@dec binary64 54917 2) (net_pay row) = true /\
    PrimFloat.ltb PrimFloat.zero (net_pay row) = true.
Proof.
  intros Hint Huni Hrun i row Hrow.
  apply simulate_cpu_returned in Hrun.
  destruct Hrun as (_ & names & titles & periods & d & Hd & ->).
  apply payroll_frame_row in Hrow.
  destruct Hrow as (r & fr & sr & hi & re & od & Hrh & Hoh & Hr & Hfr & Hsr
                    & Hhi & Hre & Hod & _ & _ & _ & _ & _ & _ & _ & _ & Hnet).
  destruct (row_draws_within np _ d i _ _ r fr sr hi re od Hint Huni Hd
              Hrh Hoh Hr Hfr Hsr Hhi Hre Hod) as (Bh & Bo & Br & Bbox).
  pose proof (gross_of_within _ _ r Bh Bo Br) as Wg.
  set (g := gross_of (regular_hours row) (overtime_hours row) r) in *.
  assert (Hlow : PrimFloat.leb (@dec binary64 54917 2) (net_pay row) = true).
  { rewrite Hnet.
    change (np_round (net_of g fr sr hi re od) 2)
      with (feval (g :: [fr; sr; hi; re; od]) net_expr).
    destruct (within_values _ _ _ (eq_refl : bounds_ok 1050 4750 = true) Wg)
      as (_ & rg & _ & _ & Vg & _).
    apply (pieces_sound rates_box net_expr (@dec binary64 54917 2)
             [fr; sr; hi; re; od] g rg 4750%float
             (cuts_from 1050%float 0.03125%float (Z.to_nat 118399))
             eq_refl Bbox Vg 1050%float eq_refl);
      [vm_compute; reflexivity | exact Wg]. }
  split; [exact Hlow|].
  apply (positive_above (@dec binary64 54917 2)); [reflexivity | exact Hlow].
Qed.

Lemma net_pay_positive_witness :
  PrimFloat.leb (@dec binary64 54917 2) (net_pay guarded_row) = true /\
  PrimFloat.ltb PrimFloat.zero (net_pay guarded_row) = true.
Proof.
  apply (net_pay_positive guarded_np guarded_np 1 guarded_world guarded_table
           (snd (simulate_complex_payroll_data_cpu guarded_np guarded_np 1
                   guarded_world))
           (guarded_randint_law demo_tape) (guarded_uniform_law demo_tape))
    with (i := 0%nat).
  - apply run_returned_intro. vm_compute. reflexivity.
  - vm_compute. reflexivity.
Defined.

(** ** Ranges of the stored amounts *)

Lemma stored_share_within (h o : Z) (r x : float) (lo hi a b : float) :
  70 <= h < 81 -> 0 <= o < 11 ->
  within (@f_of_int binary64 15) (@f_of_int binary64 50) r ->
  within lo hi x ->
  fbounds (gross_box ++ [(lo, hi)]) (share_expr (FVar 3)) = Some (a, b) ->
  within a b (@np_round binary64 (PrimFloat.mul (@gross_of binary64 h o r) x) 2).
Proof.
  intros Hh Ho Hr Hx Hb.
  change (@np_round binary64 (PrimFloat.mul (@gross_of binary64 h o r) x) 2)
    with (feval [float_of_int h; float_of_int o; r; x] (share_expr (FVar 3))).
  apply (fbounds_sound (gross_box ++ [(lo, hi)])); [|exact Hb].
  constructor; [exact (regular_hours_within h Hh)|].
  constructor; [exact (overtime_hours_within o Ho)|].
  constructor; [exact Hr|]. constructor; [exact Hx | constructor].
Qed.

Lemma stored_amount_within (x : float) (lo hi a b : float) :
  within lo hi x ->
  fbounds [(lo, hi)] (FRound2 (FVar 0)) = Some (a, b) ->
  within a b (@np_round binary64 x 2).
Proof.
  intros Hx Hb.
  change (@np_round binary64 x 2) with (feval [x] (FRound2 (FVar 0))).
  apply (fbounds_sound [(lo, hi)]); [|exact Hb].
  constructor; [exact Hx | constructor].
Qed.

(** X7.  In the double-precision arithmetic of the program, when the
    generators keep [randint] within its half-open range and [uniform]
    between its bounds, every stored amount of a generated row, on either
    path, lies in a fixed range: gross wages between 1050.00 and 4750.00,
    federal tax between 105.00 and 712.50, state tax between 31.50 and
    285.00, social security between 65.10 and 294.50, medicare between
    15.23 and 68.88, health insurance between 50.00 and 100.00, retirement
    between 30.00 and 70.00 and the other deductions between 10.00 and
    30.00. *)
Theorem stored_fields_within_ranges
    (np cp : @RandomState binary64) (host : Host) (n : Z)
    (w : World np cp) (df : @DataFrame binary64) (w' : World np cp) :
  randint_law np -> uniform_law64 np -> randint_law cp -> uniform_law64 cp ->
  simulate_complex_payroll_data_cpu np cp n w = (Returned df, w') \/
  simulate_complex_payroll_data_gpu np cp host n w = (Returned df, w') ->
  forall i row,
    iloc df i = Some row ->
    (PrimFloat.leb (@dec binary64 105000 2) (gross_wages row) = true /\
     PrimFloat.leb (gross_wages row) (@dec binary64 475000 2) = true) /\
    (PrimFloat.leb (@dec binary64 10500 2) (federal_tax row) = true /\
     PrimFloat.leb (federal_tax row) (@dec binary64 71250 2) = true) /\
    (PrimFloat.leb (@dec binary64 3150 2) (state_tax row) = true /\
     PrimFloat.leb (state_tax row) (@dec binary64 28500 2) = true) /\
    (PrimFloat.leb (@dec binary64 6510 2) (social_security row) = true /\
     PrimFloat.leb (social_security row) (@dec binary64 29450 2) = true) /\
    (PrimFloat.leb (@dec binary64 1523 2) (medicare row) = true /\
     PrimFloat.leb (medicare row) (@dec binary64 6888 2) = true) /\
    (PrimFloat.leb (@dec binary64 5000 2) (health_insurance row) = true /\
     PrimFloat.leb (health_insurance row) (@dec binary64 10000 2) = true) /\
    (PrimFloat.leb (@dec binary64 3000 2) (retirement row) = true /\
     PrimFloat.leb (retirement row) (@dec binary64 7000 2) = true) /\
    (PrimFloat.leb (@dec binary64 1000 2) (other_deductions row) = true /\
     PrimFloat.leb (other_deductions row) (@dec binary64 3000 2) = true).
Proof.
  intros Hnpi Hnpu Hcpi Hcpu Hrun i row Hrow.
  assert (Hd : exists R names ids titles periods d,
             randint_law R /\ uniform_law64 R /\
             drawn_from R (Z.to_nat n) d /\
             df = payroll_frame names ids titles periods d).
  { destruct Hrun as [Hrun | Hrun].
    - apply simulate_cpu_returned in Hrun.
      destruct Hrun as (_ & names & titles & periods & d & Hd & ->).
      exists np. eauto 10.
    - apply simulate_gpu_returned in Hrun.
      destruct Hrun as (_ & names & titles & periods & d & Hd & ->).
      exists cp. eauto 10. }
  destruct Hd as (R & names & ids & titles & periods & d & Hint & Huni & Hd
                  & ->).
  apply payroll_frame_row in Hrow.
  destruct Hrow as (r & fr & sr & hi & re & od & Hrh & Hoh & Hr & Hfr & Hsr
                    & Hhi & Hre & Hod & Eg & Efed & Est & Ess & Emed & Ehi
                    & Ere & Eod & _).
  destruct (row_draws_within R _ d i _ _ r fr sr hi re od Hint Huni Hd
              Hrh Hoh Hr Hfr Hsr Hhi Hre Hod) as (Bh & Bo & Br & Bbox).
  inversion Bbox as [|p1 x1 b1 e1 Wfr Bbox1]; subst.
  inversion Bbox1 as [|p2 x2 b2 e2 Wsr Bbox2]; subst.
  inversion Bbox2 as [|p3 x3 b3 e3 Whi Bbox3]; subst.
  inversion Bbox3 as [|p4 x4 b4 e4 Wre Bbox4]; subst.
  inversion Bbox4 as [|p5 x5 b5 e5 Wod _]; subst.
  cbn [fst snd] in Wfr, Wsr, Whi, Wre, Wod.
  assert (Wc62 : within (@dec binary64 62 3) (@dec binary64 62 3)
                   (@dec binary64 62 3)) by (split; reflexivity).
  assert (Wc145 : within (@dec binary64 145 4) (@dec binary64 145 4)
                    (@dec binary64 145 4)) by (split; reflexivity).
  rewrite Eg, Efed, Est, Ess, Emed, Ehi, Ere, Eod.
  split.
  { change (np_round (gross_of (regular_hours row) (overtime_hours row) r) 2)
      with (feval [float_of_int (regular_hours row);
                   float_of_int (overtime_hours row); r]
              (FRound2 gross_expr)).
    apply (fbounds_sound gross_box); [|reflexivity].
    constructor; [exact (regular_hours_within _ Bh)|].
    constructor; [exact (overtime_hours_within _ Bo)|].
    constructor; [exact Br | constructor]. }
  split; [exact (stored_share_within _ _ r fr _ _ _ _ Bh Bo Br Wfr eq_refl)|].
  split; [exact (stored_share_within _ _ r sr _ _ _ _ Bh Bo Br Wsr eq_refl)|].
  split; [exact (stored_share_within _ _ r _ _ _ _ _ Bh Bo Br Wc62 eq_refl)|].
  split; [exact (stored_share_within _ _ r _ _ _ _ _ Bh Bo Br Wc145 eq_refl)|].
  split; [exact (stored_amount_within hi _ _ _ _ Whi eq_refl)|].
  split; [exact (stored_amount_within re _ _ _ _ Wre eq_refl)|].
  exact (stored_amount_within od _ _ _ _ Wod eq_refl).
Qed.

Lemma stored_fields_within_ranges_witness :
  (PrimFloat.leb (@dec binary64 105000 2) (gross_wages guarded_row) = true /\
   PrimFloat.leb (gross_wages guarded_row) (@dec binary64 475000 2) = true) /\
  (PrimFloat.leb (@dec binary64 10500 2) (federal_tax guarded_row) = true /\
   PrimFloat.leb (federal_tax guarded_row) (@dec binary64 71250 2) = true) /\
  (PrimFloat.leb (@dec binary64 3150 2) (state_tax guarded_row) = true /\
   PrimFloat.leb (state_tax guarded_row) (@dec binary64 28500 2) = true) /\
  (PrimFloat.leb (@dec binary64 6510 2) (social_security guarded_row) = true /\
   PrimFloat.leb (social_security guarded_row) (@dec binary64 29450 2)
   = true) /\
  (PrimFloat.leb (@dec binary64 1523 2) (medicare guarded_row) = true /\
   PrimFloat.leb (medicare guarded_row) (@dec binary64 6888 2) = true) /\
  (PrimFloat.leb (@dec binary64 5000 2) (health_insurance guarded_row) = true /\
   PrimFloat.leb (health_insurance guarded_row) (@dec binary64 10000 2)
   = true) /\
  (PrimFloat.leb (@dec binary64 3000 2) (retirement guarded_row) = true /\
   PrimFloat.leb (retirement guarded_row) (@dec binary64 7000 2) = true) /\
  (PrimFloat.leb (@dec binary64 1000 2) (other_deductions guarded_row) = true /\
   PrimFloat.leb (other_deductions guarded_row) (@dec binary64 3000 2) = true).
Proof.
  apply (stored_fields_within_ranges guarded_np guarded_np demo_host 1
           guarded_world guarded_table
           (snd (simulate_complex_payroll_data_cpu guarded_np guarded_np 1
                   guarded_world))
           (guarded_randint_law demo_tape) (guarded_uniform_law demo_tape)
           (guarded_randint_law demo_tape) (guarded_uniform_law demo_tape))
    with (i := 0%nat).
  - left. apply run_returned_intro. vm_compute. reflexivity.
  - vm_compute. reflexivity.
Defined.
